(** * Synthetic exchange fixtures: identifiers, timestamps and closed orders

    A shallow embedding of the Python generator scripts
    [scripts/constants.py], [scripts/timestamps.py], [scripts/order_ids.py],
    [scripts/transfer_ids.py] and [scripts/closed_orders.py], together with
    the parts of the Python runtime they call: binary64 arithmetic, the
    [random] module, naive [datetime] values and fixed-point [format].

    Layout: the runtime model (binary64, the random source and the
    Mersenne Twister behind it, datetimes, formatting), then the five
    scripts (one Rocq module per Python module), the timestamp generator
    in a zone with rules, and the scripts run as programs; then the theory
    of rounding and of the runtime; then the properties of the generators,
    first those the specification states (C1 to C10), then further ones
    read off the code (X1 to X19). *)

From Stdlib Require Import ZArith Lia List Bool String Ascii.
From Stdlib Require Import DecimalString DecimalPos.
From Stdlib Require SpecFloat.
Import ListNotations.
Local Open Scope Z_scope.

(* ================================================================== *)
(** ** Python [float]: IEEE 754 binary64, round to nearest, ties to even *)
(* ================================================================== *)

(** Every finite binary64 number is an integer multiple of [2^-1074], the
    smallest subnormal.  A finite [float] is represented by that integer:
    the value of [x : float] is [x / 2^1074].  Equality and order of finite
    doubles are then equality and order on [Z].  A number [x] is a double
    when it is [m * 2^e] with [|m| < 2^53] ([representable] below).

    Each arithmetic operation is the exact result followed by one rounding
    to the nearest double, ties to the even significand, as IEEE 754
    prescribes and as CPython's [float] does.  Infinities, NaN and the sign
    of zero are outside this model; overflow needs a magnitude of [2^1024],
    and every quantity of the scripts stays far below it (the properties
    bound them). *)
Module Binary64.

Definition float : Type := Z.

(** [2^1074]: the number of units in [1.0]. *)
Definition U : Z := 2 ^ 1074.

(** *** Rounding, as a specification *)

(** The integer nearest to [p / q] ([0 < q]), ties to even. *)
Definition rne_div (p q : Z) : Z :=
  let n := p / q in
  let r := p mod q in
  match 2 * r ?= q with
  | Lt => n
  | Gt => n + 1
  | Eq => if Z.even n then n else n + 1
  end.

(** Doubles of magnitude [a] units (with [2^(b-1) <= a < 2^b]) are spaced
    [2^(b-53)] units apart, and one unit apart below [2^53] units (the
    subnormal numbers and the first binade of normal ones). *)
Definition grid (a : Z) : Z := Z.max (Z.log2 a + 1 - 53) 0.

(** The double nearest to the rational [p / q] units ([0 < q]). *)
Definition round53 (p q : Z) : Z :=
  let k := grid (Z.abs p / q) in
  rne_div p (q * 2 ^ k) * 2 ^ k.

Definition representable (x : Z) : Prop :=
  Z.abs x mod 2 ^ grid (Z.abs x) = 0.

Definition representableb (x : Z) : bool :=
  Z.abs x mod 2 ^ grid (Z.abs x) =? 0.

(** *** Rounding, as computed *)

(** The operations below compute the same roundings with shifts, and with
    a single division where the denominator is no power of two
    ([rne_shr_spec], [round_pow2_spec] and [round_ratio_spec] below). *)

(** [rne_div p (2^n)] *)
Definition rne_shr (p n : Z) : Z :=
  let m := Z.shiftr p n in
  match 2 * Z.land p (Z.ones n) ?= Z.shiftl 1 n with
  | Lt => m
  | Gt => m + 1
  | Eq => if Z.even m then m else m + 1
  end.

(** [round53 p (2^n)] *)
Definition round_pow2 (p n : Z) : Z :=
  let k := grid (Z.shiftr (Z.abs p) n) in
  Z.shiftl (rne_shr p (n + k)) k.

(** [round53 p q] *)
Definition round_ratio (p q : Z) : Z :=
  let '(a, r) := Z.div_eucl (Z.abs p) q in
  let k := grid a in
  let m := Z.shiftr a k in
  let rest := Z.land a (Z.ones k) * q + r in
  let m' := match 2 * rest ?= Z.shiftl q k with
            | Lt => m
            | Gt => m + 1
            | Eq => if Z.even m then m else m + 1
            end in
  Z.sgn p * Z.shiftl m' k.

(** The number of trailing zero bits. *)
Fixpoint pos_ctz (p : positive) : Z :=
  match p with
  | xO p' => 1 + pos_ctz p'
  | _ => 0
  end.

Definition ctz (z : Z) : Z :=
  match z with
  | Z0 => 0
  | Zpos p | Zneg p => pos_ctz p
  end.

(** *** The operations of [float] *)

(** [float(z)] for a Python [int]. *)
Definition float_of_int (z : Z) : float := round_pow2 (Z.shiftl z 1074) 0.

(** A decimal literal [num / den], e.g. [0.0026] is [literal 26 10000]. *)
Definition literal (num den : Z) : float :=
  round_ratio (Z.shiftl num 1074) den.

Definition fadd (x y : float) : float := round_pow2 (x + y) 0.
Definition fsub (x y : float) : float := round_pow2 (x - y) 0.
Definition fmul (x y : float) : float := round_pow2 (x * y) 1074.

(** [x / y], the double nearest to [x * U / y] units; the powers of two
    common to both are cancelled before the division.  Python raises
    ZeroDivisionError for [y = 0], which no division of the scripts can
    meet (the only divisors are the literals [1e6] and
    [9007199254740992.0]). *)
Definition fdiv (x y : float) : float :=
  let p := Z.shiftl (Z.sgn y * x) 1074 in
  let q := Z.abs y in
  let t := Z.min (ctz p) (ctz q) in
  round_ratio (Z.shiftr p t) (Z.shiftr q t).

Definition fle (x y : float) : bool := x <=? y.
Definition flt (x y : float) : bool := x <? y.
Definition feq (x y : float) : bool := x =? y.

(** [math.floor] *)
Definition floor (x : float) : Z := Z.shiftr x 1074.

(** [math.modf]: the fractional and the integral part, both with the sign
    of [x]; exact in binary64. *)
Definition modf (x : float) : float * Z :=
  let a := Z.abs x in
  (Z.sgn x * Z.land a (Z.ones 1074), Z.sgn x * Z.shiftr a 1074).

(** [round(x)] to an [int]: nearest, ties to even. *)
Definition round_half_even (x : float) : Z := rne_shr x 1074.

(** The same numbers in the Standard Library's executable specification
    of IEEE 754, used to cross-check the operations above on concrete
    operands. *)
Definition to_spec (x : float) : SpecFloat.spec_float :=
  SpecFloat.binary_normalize 53 1024 x (-1074) false.

Definition of_spec (f : SpecFloat.spec_float) : option float :=
  match f with
  | SpecFloat.S754_zero _ => Some 0
  | SpecFloat.S754_finite s m e =>
      Some (SpecFloat.cond_Zopp s (Z.pos m) * 2 ^ (e + 1074))
  | _ => None
  end.

Definition agrees (op : float -> float -> float)
    (sop : SpecFloat.spec_float -> SpecFloat.spec_float -> SpecFloat.spec_float)
    (x y : float) : bool :=
  match of_spec (sop (to_spec x) (to_spec y)) with
  | Some z => z =? op x y
  | None => false
  end.

End Binary64.
Import Binary64.

(* ================================================================== *)
(** ** The process-wide random source (module [random]) *)
(* ================================================================== *)

(** The Mersenne Twister delivers a sequence of 32-bit words; every draw of
    module [random] consumes some of them.  The state of the source is the
    words still to come: a finite tape, since a call that returns has read
    finitely many.  A generator is a function from the tape to its result
    and the rest of the tape; [None] stands for an exception, or for a tape
    too short for the call. *)
Module Random.

Definition rng : Type := list Z.
Definition M (A : Type) : Type := rng -> option (A * rng).

Definition ret {A} (a : A) : M A := fun s => Some (a, s).

Definition bind {A B} (m : M A) (f : A -> M B) : M B :=
  fun s => match m s with
           | Some (a, s') => f a s'
           | None => None
           end.

Definition raise {A} : M A := fun _ => None.

Definition lift {A} (o : option A) : M A :=
  match o with
  | Some a => ret a
  | None => raise
  end.

Module Notations.
Notation "x <- m ;; k" := (bind m (fun x => k))
  (at level 61, m at next level, right associativity).
End Notations.
Import Notations.

(** [genrand_uint32]: the next word of the twister. *)
Definition genrand_uint32 : M Z :=
  fun s => match s with
           | [] => None
           | w :: s' => Some (w mod 2 ^ 32, s')
           end.

(** [random()], as in [_randommodule.c]:
    [a = genrand_uint32() >> 5; b = genrand_uint32() >> 6;
     return (a * 67108864.0 + b) * (1.0 / 9007199254740992.0)]. *)
Definition random : M float :=
  a <- genrand_uint32 ;;
  b <- genrand_uint32 ;;
  ret (fmul (fadd (fmul (float_of_int (Z.shiftr a 5))
                        (float_of_int 67108864))
                  (float_of_int (Z.shiftr b 6)))
            (fdiv (float_of_int 1) (float_of_int 9007199254740992))).

(** [int.bit_length] for a non-negative [int]. *)
Definition bit_length (n : Z) : Z :=
  if n =? 0 then 0 else Z.log2 n + 1.

(** [getrandbits(k)] for [0 < k <= 32]: the top [k] bits of one word. *)
Definition getrandbits (k : Z) : M Z :=
  w <- genrand_uint32 ;;
  ret (Z.shiftr w (32 - k)).

(** [_randbelow(n)] for [0 < n < 2^32]:
    [k = n.bit_length(); r = getrandbits(k);
     while r >= n: r = getrandbits(k)]
    with [getrandbits] unfolded, so that the loop is a recursion on the
    tape. *)
Fixpoint _randbelow (n : Z) (s : rng) : option (Z * rng) :=
  match s with
  | [] => None
  | w :: s' =>
      let r := Z.shiftr (w mod 2 ^ 32) (32 - bit_length n) in
      if r <? n then Some (r, s') else _randbelow n s'
  end.

(** [uniform(a, b)]: [a + (b - a) * random()]. *)
Definition uniform (a b : float) : M float :=
  r <- random ;;
  ret (fadd a (fmul (fsub b a) r)).

(** [randint(a, b)]: [randrange(a, b + 1)], that is
    [a + _randbelow(b + 1 - a)]; ValueError on an empty range. *)
Definition randint (a b : Z) : M Z :=
  if 0 <? b + 1 - a
  then r <- _randbelow (b + 1 - a) ;; ret (a + r)
  else raise.

(** [seq[i]] with Python's negative indices; IndexError out of range. *)
Definition getitem {A} (seq : list A) (i : Z) : option A :=
  let n := Z.of_nat (List.length seq) in
  if (0 <=? i) && (i <? n) then nth_error seq (Z.to_nat i)
  else if (- n <=? i) && (i <? 0) then nth_error seq (Z.to_nat (n + i))
  else None.

(** [choice(seq)]: [seq[_randbelow(len(seq))]]; IndexError when empty. *)
Definition choice {A} (seq : list A) : M A :=
  match seq with
  | [] => raise
  | _ => i <- _randbelow (Z.of_nat (List.length seq)) ;;
         lift (getitem seq i)
  end.

(** [choices(population, k=k)] without weights:
    [n = len(population) + 0.0;
     [population[floor(random() * n)] for i in range(k)]]. *)
Fixpoint choices {A} (population : list A) (k : nat) : M (list A) :=
  match k with
  | O => ret []
  | S k' =>
      r <- random ;;
      x <- lift (getitem population
                   (floor (fmul r (float_of_int
                                     (Z.of_nat (List.length population)))))) ;;
      xs <- choices population k' ;;
      ret (x :: xs)
  end.

End Random.
Import Random Random.Notations.

(* ================================================================== *)
(** ** The Mersenne Twister behind module [random] *)
(* ================================================================== *)

(** [_randommodule.c]: the state of the process-wide source is an array
    of 624 words of 32 bits and an index into it.  The functions below
    update a state as the C code updates the array in place.  The tape of
    module [Random] is the sequence of words [genrand_words] delivers from
    such a state ([draw_from] below runs a generator on it).  Not every
    tape is one: the twister has [2^19937 - 1] states in its cycle, which
    deliver every sequence of up to 623 words and not every longer one. *)
Module MersenneTwister.

Definition N : nat := 624.
Definition M : nat := 397.
Definition MATRIX_A : Z := 0x9908b0df.
Definition UPPER_MASK : Z := 0x80000000.
Definition LOWER_MASK : Z := 0x7fffffff.

Definition uint32 (z : Z) : Z := z mod 2 ^ 32.

Record RandomObject : Type := mkRandomObject { state : list Z; index : nat }.

(** [mt[i] = v] *)
Fixpoint set_nth (mt : list Z) (i : nat) (v : Z) : list Z :=
  match mt, i with
  | [], _ => []
  | _ :: mt', O => v :: mt'
  | x :: mt', S i' => x :: set_nth mt' i' v
  end.

(** [for (k = first; k < first + count; k++) body(k)] on the array. *)
Fixpoint for_loop (count first : nat) (body : nat -> list Z -> list Z)
    (mt : list Z) : list Z :=
  match count with
  | O => mt
  | S count' => for_loop count' (S first) body (body first mt)
  end.

(** [init_genrand(self, s)]:
    [mt[0] = s;
     for (mti = 1; mti < N; mti++)
       mt[mti] = 1812433253 * (mt[mti-1] ^ (mt[mti-1] >> 30)) + mti;
     self->index = mti]. *)
Definition init_genrand (self : RandomObject) (s : Z) : RandomObject :=
  let mt := set_nth (state self) 0 (uint32 s) in
  let mt :=
    for_loop (N - 1) 1
      (fun mti mt =>
         let prev := nth (mti - 1) mt 0 in
         set_nth mt mti
           (uint32 (1812433253 * Z.lxor prev (Z.shiftr prev 30)
                    + Z.of_nat mti)))
      mt in
  mkRandomObject mt N.

(** The first loop of [init_by_array]:
    [mt[i] = (mt[i] ^ ((mt[i-1] ^ (mt[i-1] >> 30)) * 1664525))
             + init_key[j] + j;
     i++; j++;
     if (i >= N) { mt[0] = mt[N-1]; i = 1; }
     if (j >= key_length) j = 0]. *)
Fixpoint key_loop (k i j : nat) (init_key : list Z) (mt : list Z)
  : nat * list Z :=
  match k with
  | O => (i, mt)
  | S k' =>
      let prev := nth (i - 1) mt 0 in
      let mt :=
        set_nth mt i
          (uint32 (Z.lxor (nth i mt 0)
                     (uint32 (Z.lxor prev (Z.shiftr prev 30) * 1664525))
                   + nth j init_key 0 + Z.of_nat j)) in
      let i := S i in
      let j := S j in
      let '(i, mt) :=
        if (N <=? i)%nat then (1%nat, set_nth mt 0 (nth (N - 1) mt 0))
        else (i, mt) in
      let j := if (List.length init_key <=? j)%nat then O else j in
      key_loop k' i j init_key mt
  end.

(** The second loop:
    [mt[i] = (mt[i] ^ ((mt[i-1] ^ (mt[i-1] >> 30)) * 1566083941)) - i;
     i++;
     if (i >= N) { mt[0] = mt[N-1]; i = 1; }]. *)
Fixpoint mix_loop (k i : nat) (mt : list Z) : list Z :=
  match k with
  | O => mt
  | S k' =>
      let prev := nth (i - 1) mt 0 in
      let mt :=
        set_nth mt i
          (uint32 (Z.lxor (nth i mt 0)
                     (uint32 (Z.lxor prev (Z.shiftr prev 30) * 1566083941))
                   - Z.of_nat i)) in
      let i := S i in
      let '(i, mt) :=
        if (N <=? i)%nat then (1%nat, set_nth mt 0 (nth (N - 1) mt 0))
        else (i, mt) in
      mix_loop k' i mt
  end.

(** [init_by_array(self, init_key, key_length)] *)
Definition init_by_array (self : RandomObject) (init_key : list Z)
  : RandomObject :=
  let self := init_genrand self 19650218 in
  let k := Nat.max N (List.length init_key) in
  let '(i, mt) := key_loop k 1 0 init_key (state self) in
  let mt := mix_loop (N - 1) i mt in
  mkRandomObject (set_nth mt 0 0x80000000) (index self).

(** The key of an [int] seed: its absolute value in chunks of 32 bits,
    the lowest first, and one chunk at least. *)
Definition seed_key (a : Z) : list Z :=
  let n := Z.abs a in
  let bits := if n =? 0 then 0 else Z.log2 n + 1 in
  let keyused := if bits =? 0 then 1 else (bits - 1) / 32 + 1 in
  map (fun i => uint32 (Z.shiftr n (32 * Z.of_nat i)))
      (seq 0 (Z.to_nat keyused)).

(** [random.seed(a)] for an [int] [a]: [init_by_array] with the key of
    [abs(a)], on the state the source is in. *)
Definition seed (a : Z) (self : RandomObject) : RandomObject :=
  init_by_array self (seed_key a).

(** One word of the next block:
    [y = (mt[kk] & UPPER_MASK) | (mt[k1] & LOWER_MASK);
     mt[kk] = mt[km] ^ (y >> 1) ^ mag01[y & 1]]. *)
Definition twist_word (kk k1 km : nat) (mt : list Z) : list Z :=
  let y := Z.lor (Z.land (nth kk mt 0) UPPER_MASK)
                 (Z.land (nth k1 mt 0) LOWER_MASK) in
  set_nth mt kk
    (Z.lxor (Z.lxor (nth km mt 0) (Z.shiftr y 1))
            (if Z.testbit y 0 then MATRIX_A else 0)).

(** The block of [N] words [genrand_uint32] generates when the index has
    reached [N]. *)
Definition twist (mt : list Z) : list Z :=
  let mt := for_loop (N - M) 0
              (fun kk => twist_word kk (kk + 1) (kk + M)) mt in
  let mt := for_loop (M - 1) (N - M)
              (fun kk => twist_word kk (kk + 1) (kk + M - N)) mt in
  twist_word (N - 1) 0 (M - 1) mt.

Definition temper (y : Z) : Z :=
  let y := Z.lxor y (Z.shiftr y 11) in
  let y := Z.lxor y (Z.land (Z.shiftl y 7) 0x9d2c5680) in
  let y := Z.lxor y (Z.land (Z.shiftl y 15) 0xefc60000) in
  Z.lxor y (Z.shiftr y 18).

(** [genrand_uint32(self)] *)
Definition genrand_uint32 (self : RandomObject) : Z * RandomObject :=
  let '(mt, i) :=
    if (N <=? index self)%nat then (twist (state self), O)
    else (state self, index self) in
  (temper (nth i mt 0), mkRandomObject mt (S i)).

(** The next [n] words the source delivers, and the state it is left
    in. *)
Fixpoint genrand_words (n : nat) (self : RandomObject)
  : list Z * RandomObject :=
  match n with
  | O => ([], self)
  | S n' =>
      let '(w, self) := genrand_uint32 self in
      let '(ws, self) := genrand_words n' self in
      (w :: ws, self)
  end.


End MersenneTwister.



Definition used_source : MersenneTwister.RandomObject :=
  MersenneTwister.mkRandomObject
    (map (fun i => (Z.of_nat i * 2654435761 + 12345) mod 2 ^ 32)
         (seq 0 624)) 17.

(** Equality of two lists of words. *)
Fixpoint words_eqb (l1 l2 : list Z) : bool :=
  match l1, l2 with
  | [], [] => true
  | x :: l1', y :: l2' => (x =? y) && words_eqb l1' l2'
  | _, _ => false
  end.

(** The first words after [random.seed(a)], for some seeds, as CPython
    delivers them. *)
Definition twister_cross_checks : list bool :=
  let words a n :=
    fst (MersenneTwister.genrand_words n
           (MersenneTwister.seed a used_source)) in
  let at_ a i := nth i (words a (S i)) 0 in
  [ words_eqb (words 42 4%nat) [2746317213; 478163327; 107420369; 3184935163];
    words_eqb (words 0 4%nat) [3626764237; 1654615998; 3255389356; 3823568514];
    words_eqb (words (-7) 4%nat)
      [1390851128; 4071050724; 647892279; 1695753998];
    words_eqb (words 1099511627781 4%nat)
      [2166296868; 2220160828; 1153647273; 2850991874];
    at_ 42 623%nat =? 2929454134;
    at_ 42 624%nat =? 1071722055;
    at_ 42 1248%nat =? 2301518177 ].


(* ================================================================== *)
(** ** Naive [datetime] values *)
(* ================================================================== *)

(** A naive datetime is a reading of the local calendar and clock, to the
    microsecond.  It is kept as the number of whole seconds between
    1970-01-01 00:00:00 and that reading on the same calendar, and the
    microsecond field.  The local zone is taken to have a fixed offset
    [tz] (seconds east of UTC), so that local time is UTC plus [tz]. *)
Module Datetime.

Record datetime : Type := mkdatetime { dt_second : Z; dt_microsecond : Z }.

(** [_is_leap], [_days_before_year], [_days_before_month], [_ymd2ord]
    of [Lib/datetime.py]. *)
Definition _is_leap (year : Z) : bool :=
  (year mod 4 =? 0) && (negb (year mod 100 =? 0) || (year mod 400 =? 0)).

Definition _days_before_year (year : Z) : Z :=
  let y := year - 1 in y * 365 + y / 4 - y / 100 + y / 400.

Definition _DAYS_BEFORE_MONTH : list Z :=
  [0; 31; 59; 90; 120; 151; 181; 212; 243; 273; 304; 334].

Definition _days_before_month (year month : Z) : Z :=
  nth (Z.to_nat (month - 1)) _DAYS_BEFORE_MONTH 0
  + (if (2 <? month) && _is_leap year then 1 else 0).

Definition _ymd2ord (year month day : Z) : Z :=
  _days_before_year year + _days_before_month year month + day.

(** [datetime(year, month, day)]: midnight of that day. *)
Definition datetime_ymd (year month day : Z) : datetime :=
  mkdatetime ((_ymd2ord year month day - _ymd2ord 1970 1 1) * 86400) 0.

(** Comparison of naive datetimes: by fields, i.e. lexicographic. *)
Definition dt_le (a b : datetime) : bool :=
  (dt_second a <? dt_second b)
  || ((dt_second a =? dt_second b) && (dt_microsecond a <=? dt_microsecond b)).

(** What the constructor accepts: years 1 to 9999 and a microsecond
    field below one million. *)
Definition valid_datetime (d : datetime) : Prop :=
  -62135596800 <= dt_second d <= 253402300799
  /\ 0 <= dt_microsecond d < 1000000.

Section Zone.
Variable tz : Z.

(** [datetime.timestamp()] of a naive datetime:
    [self._mktime() + self.microsecond / 1e6]. *)
Definition timestamp (d : datetime) : float :=
  fadd (float_of_int (dt_second d - tz))
       (fdiv (float_of_int (dt_microsecond d)) (float_of_int 1000000)).

(** [datetime.fromtimestamp(t)]:
    [frac, t = modf(t); us = round(frac * 1e6);
     if us >= 1000000: t += 1; us -= 1000000
     elif us < 0: t -= 1; us += 1000000]
    and the local reading of the instant [t]. *)
Definition fromtimestamp (t : float) : datetime :=
  let '(frac, t) := modf t in
  let us := round_half_even (fmul frac (float_of_int 1000000)) in
  if 1000000 <=? us then mkdatetime (t + 1 + tz) (us - 1000000)
  else if us <? 0 then mkdatetime (t - 1 + tz) (us + 1000000)
  else mkdatetime (t + tz) us.
End Zone.

End Datetime.
Import Datetime.

(* ================================================================== *)
(** ** Strings: [str(int)], [format(float, spec)], [str.join] *)
(* ================================================================== *)

Module Format.

Definition is_digit (c : ascii) : bool :=
  let n := N_of_ascii c in (48 <=? n)%N && (n <=? 57)%N.

(** [str(z)] for an [int]. *)
Definition str_of_int (z : Z) : string :=
  NilZero.string_of_int (Z.to_int z).

Definition digit_char (v : Z) : ascii :=
  ascii_of_N (48 + Z.to_N (v mod 10)).

(** The last [d] decimal digits of [v], most significant first. *)
Fixpoint frac_digits (d : nat) (v : Z) : list ascii :=
  match d with
  | O => []
  | S d' => frac_digits d' (v / 10) ++ [digit_char v]
  end.

(** The number of [10^-d] steps nearest to [x], ties to even: presentation
    type ['f'] rounds the exact binary value correctly. *)
Definition quantize (x : float) (d : nat) : Z :=
  rne_shr (x * 10 ^ Z.of_nat d) 1074.

(** [format(x, ".<d>f")] *)
Definition format_f (x : float) (d : nat) : string :=
  let m := quantize (Z.abs x) d in
  let p := 10 ^ Z.of_nat d in
  ((if (x <? 0)%Z then "-" else "")
   ++ str_of_int (m / p)
   ++ (match d with
       | O => ""
       | _ => String "."%char (string_of_list_ascii (frac_digits d (m mod p)))
       end))%string.

(** The maximal prefix of decimal digits of a string, and what follows. *)
Fixpoint span_digits (s : string) : list ascii * string :=
  match s with
  | String c s' =>
      if is_digit c
      then let '(ds, rest) := span_digits s' in (c :: ds, rest)
      else ([], s)
  | EmptyString => ([], s)
  end.

Definition digit_value (c : ascii) : Z := Z.of_N (N_of_ascii c) - 48.

(** The number a list of decimal digits denotes, after the digits
    already read ([acc]). *)
Definition digits_acc (acc : Z) (ds : list ascii) : Z :=
  fold_left (fun acc c => 10 * acc + digit_value c) ds acc.

Definition Z_of_digits (ds : list ascii) : Z := digits_acc 0 ds.

(** The same for a numeral of the Standard Library, which [str_of_int]
    prints. *)
Fixpoint uint_value (acc : Z) (u : Decimal.uint) : Z :=
  match u with
  | Decimal.Nil => acc
  | Decimal.D0 u => uint_value (10 * acc + 0) u
  | Decimal.D1 u => uint_value (10 * acc + 1) u
  | Decimal.D2 u => uint_value (10 * acc + 2) u
  | Decimal.D3 u => uint_value (10 * acc + 3) u
  | Decimal.D4 u => uint_value (10 * acc + 4) u
  | Decimal.D5 u => uint_value (10 * acc + 5) u
  | Decimal.D6 u => uint_value (10 * acc + 6) u
  | Decimal.D7 u => uint_value (10 * acc + 7) u
  | Decimal.D8 u => uint_value (10 * acc + 8) u
  | Decimal.D9 u => uint_value (10 * acc + 9) u
  end.

(** The format specifications of the form [0.<digits>f] or [.<digits>f]:
    an optional zero-padding flag with no width, a precision and the
    presentation type ['f'].  Any other specification is refused here
    (ValueError for a malformed one). *)
Definition parse_spec (spec : string) : option nat :=
  let body := match spec with
              | String "0"%char rest => rest
              | _ => spec
              end in
  match body with
  | String "."%char rest =>
      match span_digits rest with
      | (c :: ds, "f"%string) => Some (Z.to_nat (Z_of_digits (c :: ds)))
      | _ => None
      end
  | _ => None
  end.

(** [format(x, spec)] for a [float]. *)
Definition format (x : float) (spec : string) : option string :=
  match parse_spec spec with
  | Some d => Some (format_f x d)
  | None => None
  end.

(** Reading a fixed-point numeral back: [decimal_value s = Some (n, d)]
    when [s] is an optional minus sign, at least one digit and, if [d] is
    not zero, a point and exactly [d] more digits; the numeral then
    denotes [n / 10^d]. *)
Definition unsigned_value (body : string) : option (Z * nat) :=
  match span_digits body with
  | (c :: ip, String "."%char rest) =>
      match span_digits rest with
      | (f :: fp, EmptyString) =>
          Some (Z_of_digits ((c :: ip) ++ f :: fp), List.length (f :: fp))
      | _ => None
      end
  | (c :: ip, EmptyString) => Some (Z_of_digits (c :: ip), O)
  | _ => None
  end.

Definition decimal_value (s : string) : option (Z * nat) :=
  match s with
  | String c rest =>
      if Ascii.eqb c "-"
      then match unsigned_value rest with
           | Some (n, d) => Some (- n, d)
           | None => None
           end
      else unsigned_value s
  | EmptyString => None
  end.

(** [has_decimals d s]: [s] is a fixed-point numeral with exactly [d]
    digits after the point. *)
Definition has_decimals (d : nat) (s : string) : bool :=
  match decimal_value s with
  | Some (_, d') => Nat.eqb d' d
  | None => false
  end.

End Format.
Import Format.

(* ================================================================== *)
(** ** Python values *)
(* ================================================================== *)

(** The values a generated record holds.  A [dict] is the list of its
    items in insertion order. *)
#[warnings="-register-all"]
Inductive pyvalue : Type :=
| PNone
| PInt (z : Z)
| PFloat (x : float)
| PStr (s : string)
| PDict (d : list (string * pyvalue)).

Definition dict : Type := list (string * pyvalue).

(** [d[key]]; [None] models KeyError. *)
Fixpoint dict_get (d : dict) (key : string) : option pyvalue :=
  match d with
  | [] => None
  | (k, v) :: d' => if String.eqb k key then Some v else dict_get d' key
  end.

(* ================================================================== *)
(** ** scripts/constants.py *)
(* ================================================================== *)

Module constants.

Definition ascii_uppercase : string := "ABCDEFGHIJKLMNOPQRSTUVWXYZ".
Definition ascii_lowercase : string := "abcdefghijklmnopqrstuvwxyz".
Definition digits : string := "0123456789".

Definition UPPER_ALPHA_NUMERIC : string := ascii_uppercase ++ digits.
Definition ALL_ALPHA_NUMERIC : string :=
  ascii_uppercase ++ ascii_lowercase ++ digits.
Definition START : datetime := datetime_ymd 2020 1 1.
Definition END : datetime := datetime_ymd 2024 1 1.

Definition VOLUME_MIN : float := literal 1 10.
Definition VOLUME_MAX : Z := 1000.

Definition PRICE_MIN : float := literal 1 10000.
Definition PRICE_MAX : Z := 50000.

Definition OPEN_ORDER_STATUSES : list string := ["pending"; "open"]%string.
Definition OVER_ORDER_STATUSES : list string :=
  ["canceled"; "closed"; "expired"]%string.
Definition ORDER_STATUSES : list string :=
  OPEN_ORDER_STATUSES ++ OVER_ORDER_STATUSES.

End constants.

(* ================================================================== *)
(** ** scripts/timestamps.py *)
(* ================================================================== *)

Module timestamps.
Section Zone.
Variable tz : Z.

Definition gen_random_timestamp (start end_ : datetime) : M float :=
  let diff := fsub (timestamp tz end_) (timestamp tz start) in
  r <- random ;;
  let rand := fmul r diff in
  ret (fadd (timestamp tz start) rand).

End Zone.
End timestamps.

(* ================================================================== *)
(** ** Naive datetimes in a zone with rules; the timestamp that may fail *)
(* ================================================================== *)

(** [datetime.timestamp()] of a naive datetime asks the platform for the
    local time of a few instants ([_mktime] in [Lib/_pydatetime.py],
    [local_to_seconds] in [_datetimemodule.c]).  The rules of the local
    zone are a function from an instant, in seconds since the epoch, to
    the offset from UTC in force at that instant.  The call raises
    ValueError when one of the local times it computes falls outside the
    years 1 to 9999.

    [Datetime.timestamp] and module [timestamps] above are the case of a
    zone of fixed offset and of datetimes whose timestamp is defined
    ([timestamp_fixed_intro] and [zoned_gen_random_timestamp_fixed]
    below); the datetimes [closed_orders] passes are of this kind
    ([closed_order_timestamps_defined]). *)
Module zoned.

Definition zone : Type := Z -> Z.

(** A zone whose offset never changes. *)
Definition fixed_offset (tz : Z) : zone := fun _ => tz.

(** [datetime(1, 1, 1)] and [datetime(9999, 12, 31, 23, 59, 59)], in
    seconds on the naive calendar. *)
Definition MIN_second : Z :=
  (_ymd2ord 1 1 1 - _ymd2ord 1970 1 1) * 86400.
Definition MAX_second : Z :=
  (_ymd2ord 9999 12 31 - _ymd2ord 1970 1 1) * 86400 + 86399.

(** [local(u)]: the local calendar reading of the instant [u];
    [None] is the ValueError [year ... is out of range]. *)
Definition local (z : zone) (u : Z) : option Z :=
  let t := u + z u in
  if (MIN_second <=? t) && (t <=? MAX_second) then Some t else None.

(** The last part of [_mktime], once both offsets [a] and [b] are known:
    [u2 = t - b; t2 = local(u2);
     if t2 == t: return u2
     if t1 == t: return u1
     return max(u1, u2)]          (the reading is in a gap; [fold] is 0) *)
Definition _mktime_second_offset (z : zone) (t u1 t1 b : Z) : option Z :=
  let u2 := t - b in
  match local z u2 with
  | None => None
  | Some t2 =>
      if t2 =? t then Some u2
      else if t1 =? t then Some u1
      else Some (Z.max u1 u2)
  end.

(** [_mktime] for [fold = 0]:
    [a = local(t) - t; u1 = t - a; t1 = local(u1)
     if t1 == t:
         u2 = u1 - 24 * 3600; b = local(u2) - u2
         if a == b: return u1
     else:
         b = t1 - u1]
    and the part above. *)
Definition _mktime (z : zone) (d : datetime) : option Z :=
  let t := dt_second d in
  match local z t with
  | None => None
  | Some lt =>
      let a := lt - t in
      let u1 := t - a in
      match local z u1 with
      | None => None
      | Some t1 =>
          if t1 =? t
          then let u2 := u1 - 24 * 3600 in
               match local z u2 with
               | None => None
               | Some lt2 =>
                   let b := lt2 - u2 in
                   if a =? b then Some u1
                   else _mktime_second_offset z t u1 t1 b
               end
          else _mktime_second_offset z t u1 t1 (t1 - u1)
      end
  end.

(** [datetime.timestamp()] of a naive datetime:
    [self._mktime() + self.microsecond / 1e6]. *)
Definition timestamp (z : zone) (d : datetime) : option float :=
  match _mktime z d with
  | Some s =>
      Some (fadd (float_of_int s)
              (fdiv (float_of_int (dt_microsecond d))
                    (float_of_int 1000000)))
  | None => None
  end.

(** scripts/timestamps.py, with the calls of [timestamp()] that may
    raise, in the order the source makes them. *)
Definition gen_random_timestamp (z : zone) (start end_ : datetime)
  : M float :=
  end_ts <- lift (timestamp z end_) ;;
  start_ts <- lift (timestamp z start) ;;
  let diff := fsub end_ts start_ts in
  r <- random ;;
  let rand := fmul r diff in
  start_ts' <- lift (timestamp z start) ;;
  ret (fadd start_ts' rand).

(** [datetime(year, month, day, hour, minute)] *)
Definition datetime_ymdhm (year month day hour minute : Z) : datetime :=
  mkdatetime ((_ymd2ord year month day - _ymd2ord 1970 1 1) * 86400
              + hour * 3600 + minute * 60) 0.

(** The rules of America/New_York around 2020: five hours behind UTC,
    and four between 2020-03-08 07:00 UTC and 2020-11-01 06:00 UTC. *)
Definition new_york_2020 : zone :=
  fun u => if (1583650800 <=? u) && (u <? 1604210400) then -14400
           else -18000.

End zoned.

(* ================================================================== *)
(** ** scripts/order_ids.py *)
(* ================================================================== *)

Module order_ids.
Import constants.

Definition gen_segment (n : Z) : M string :=
  cs <- choices (list_ascii_of_string UPPER_ALPHA_NUMERIC) (Z.to_nat n) ;;
  ret (string_of_list_ascii cs).

Definition gen_order_id : M string :=
  a <- gen_segment 6 ;;
  b <- gen_segment 5 ;;
  c <- gen_segment 6 ;;
  ret (a ++ "-" ++ b ++ "-" ++ c)%string.

Fixpoint gen_random_kraken_identifiers (n : nat) : M (list string) :=
  match n with
  | O => ret []
  | S n' =>
      x <- gen_order_id ;;
      xs <- gen_random_kraken_identifiers n' ;;
      ret (x :: xs)
  end.

Definition is_upper_alnum (c : ascii) : bool :=
  let n := N_of_ascii c in
  ((65 <=? n) && (n <=? 90) || (48 <=? n) && (n <=? 57))%N.

(** The pattern [[A-Z0-9]{6}-[A-Z0-9]{5}-[A-Z0-9]{6}], anchored at both
    ends. *)
Definition matches_order_id (s : string) : bool :=
  match list_ascii_of_string s with
  | [a1; a2; a3; a4; a5; a6; d1; b1; b2; b3; b4; b5; d2;
     c1; c2; c3; c4; c5; c6] =>
      forallb is_upper_alnum [a1; a2; a3; a4; a5; a6]
      && Ascii.eqb d1 "-"
      && forallb is_upper_alnum [b1; b2; b3; b4; b5]
      && Ascii.eqb d2 "-"
      && forallb is_upper_alnum [c1; c2; c3; c4; c5; c6]
  | _ => false
  end.

End order_ids.

(* ================================================================== *)
(** ** scripts/transfer_ids.py *)
(* ================================================================== *)

Module transfer_ids.
Import constants.

Definition gen_segment (n : Z) : M string :=
  cs <- choices (list_ascii_of_string ALL_ALPHA_NUMERIC) (Z.to_nat n) ;;
  ret (string_of_list_ascii cs).

Fixpoint gen_random_kraken_transfer_identifiers (n : nat)
  : M (list string) :=
  match n with
  | O => ret []
  | S n' =>
      a <- gen_segment 7 ;;
      b <- gen_segment 22 ;;
      xs <- gen_random_kraken_transfer_identifiers n' ;;
      ret ((a ++ "-" ++ b)%string :: xs)
  end.

End transfer_ids.

(* ================================================================== *)
(** ** scripts/closed_orders.py *)
(* ================================================================== *)

Module closed_orders.
Import constants timestamps.

Section Zone.
Variable tz : Z.

Definition gen_random_closed_order : M dict :=
  open <- gen_random_timestamp tz START END ;;
  end_ <- gen_random_timestamp tz (fromtimestamp tz open) END ;;

  price <- uniform PRICE_MIN (float_of_int PRICE_MAX) ;;
  volume <- uniform VOLUME_MIN (float_of_int VOLUME_MAX) ;;
  executed_volume <- uniform VOLUME_MIN volume ;;
  let cost := fmul price executed_volume in
  let fee := fmul (literal 26 10000) cost in

  decimals <- randint 3 8 ;;
  let decimal_formatter := ("0." ++ str_of_int decimals ++ "f")%string in

  status <- choice OVER_ORDER_STATUSES ;;

  vol_s <- lift (format volume decimal_formatter) ;;
  vol_exec_s <- lift (format executed_volume decimal_formatter) ;;
  cost_s <- lift (format cost decimal_formatter) ;;
  fee_s <- lift (format fee decimal_formatter) ;;
  price_s <- lift (format price decimal_formatter) ;;
  ret [ ("refid", PStr "None");
        ("userref", PInt 1);
        ("status", PStr status);
        ("reason", if String.eqb status "canceled"
                   then PStr "User requested" else PNone);
        ("opentm", PFloat open);
        ("closetm", PFloat end_);
        ("starttm", PInt 0);
        ("expiretm", PInt 0);
        ("descr", PDict []);
        ("vol", PStr vol_s);
        ("vol_exec", PStr vol_exec_s);
        ("cost", PStr cost_s);
        ("fee", PStr fee_s);
        ("price", PStr price_s);
        ("stopprice", PStr "0.00000");
        ("limitprice", PStr "0.00000");
        ("misc", PStr "");
        ("oflags", PStr "fciq");
        ("trigger", PStr "index") ]%string.

End Zone.
End closed_orders.

(* ================================================================== *)
(** ** Reading a run of the generators *)
(* ================================================================== *)

(** The statements below speak about the values a run of
    [gen_random_closed_order] drew on its way to the record.
    [closed_order_draws tz s s' ...] says that, from the tape [s], the seven
    draws of the function returned these values, in the order of the
    source, and left the tape [s']. *)
Definition closed_order_draws (tz : Z) (s s' : rng)
    (open close price volume executed_volume : float)
    (decimals : Z) (status : string) : Prop :=
  exists s1 s2 s3 s4 s5 s6,
    timestamps.gen_random_timestamp tz constants.START constants.END s
      = Some (open, s1)
    /\ timestamps.gen_random_timestamp tz (fromtimestamp tz open)
         constants.END s1 = Some (close, s2)
    /\ uniform constants.PRICE_MIN (float_of_int constants.PRICE_MAX) s2
       = Some (price, s3)
    /\ uniform constants.VOLUME_MIN (float_of_int constants.VOLUME_MAX) s3
       = Some (volume, s4)
    /\ uniform constants.VOLUME_MIN volume s4 = Some (executed_volume, s5)
    /\ randint 3 8 s5 = Some (decimals, s6)
    /\ choice constants.OVER_ORDER_STATUSES s6 = Some (status, s').

(** The record the function returns for given draws. *)
Definition closed_order_record
    (open close price volume executed_volume : float)
    (decimals : Z) (status : string) : dict :=
  let d := Z.to_nat decimals in
  let cost := fmul price executed_volume in
  let fee := fmul (literal 26 10000) cost in
  [ ("refid", PStr "None");
    ("userref", PInt 1);
    ("status", PStr status);
    ("reason", if String.eqb status "canceled"
               then PStr "User requested" else PNone);
    ("opentm", PFloat open);
    ("closetm", PFloat close);
    ("starttm", PInt 0);
    ("expiretm", PInt 0);
    ("descr", PDict []);
    ("vol", PStr (format_f volume d));
    ("vol_exec", PStr (format_f executed_volume d));
    ("cost", PStr (format_f cost d));
    ("fee", PStr (format_f fee d));
    ("price", PStr (format_f price d));
    ("stopprice", PStr "0.00000");
    ("limitprice", PStr "0.00000");
    ("misc", PStr "");
    ("oflags", PStr "fciq");
    ("trigger", PStr "index") ]%string.

(** [record["closetm"] < record["opentm"]] *)
Definition closes_before_opening (record : dict) : bool :=
  match dict_get record "opentm", dict_get record "closetm" with
  | Some (PFloat o), Some (PFloat c) => flt c o
  | _, _ => false
  end.

(** Two tapes used as running examples: the words one run of
    [gen_random_closed_order] reads, and the words one run of
    [gen_order_id] reads. *)
Definition sample_order_tape : rng :=
  [96; 0; 0; 0; 2863311530; 1431655765; 3000000000; 4; 1500000000; 6;
   4000000000; 2000000000; 3221225472; 0].

Definition sample_id_tape : rng :=
  [0; 0; 4294967295; 4294967295; 1234567890; 987654321;
   2147483648; 0; 305419896; 2596069104; 123; 456;
   4000000000; 1; 3000000000; 2; 2000000000; 3;
   1000000000; 4; 500000000; 5; 250000000; 6;
   125000000; 7; 62500000; 8; 31250000; 9;
   15625000; 10; 3999999999; 11].

(** ** Cross-check of the arithmetic *)

(** Operands that occur in the runs studied below, and some at the edges
    of the format (subnormal numbers, ties, the first integer that is not
    a double): on each the operations of [Binary64] agree with the
    Standard Library's [SpecFloat]. *)
Definition spec_cross_checks : list bool :=
  let T0 := timestamp 0 constants.START in
  let T1 := timestamp 0 constants.END in
  let r96 := 3 * 2 ^ 26 * 2 ^ 1021 in
  let rmax := (2 ^ 53 - 1) * 2 ^ 1021 in
  let open96 := fadd T0 (fmul r96 (fsub T1 T0)) in
  let add := SpecFloat.SFadd 53 1024 in
  let sub := SpecFloat.SFsub 53 1024 in
  let mul := SpecFloat.SFmul 53 1024 in
  let div := SpecFloat.SFdiv 53 1024 in
  [ agrees fsub sub T1 T0;
    agrees fmul mul r96 (fsub T1 T0);
    agrees fadd add T0 (fmul r96 (fsub T1 T0));
    agrees fmul mul (fst (modf open96)) (float_of_int 1000000);
    agrees fdiv div (float_of_int 821469) (float_of_int 1000000);
    agrees fadd add (float_of_int 1577836802)
      (fdiv (float_of_int 821469) (float_of_int 1000000));
    agrees fmul mul rmax (fsub T1 T0);
    agrees fadd add T0 (fmul rmax (fsub T1 T0));
    agrees fdiv div (float_of_int 1) (float_of_int 10);
    literal 1 10 =? fdiv (float_of_int 1) (float_of_int 10);
    agrees fdiv div (float_of_int 26) (float_of_int 10000);
    literal 26 10000 =? fdiv (float_of_int 26) (float_of_int 10000);
    agrees fsub sub (float_of_int 1000) (literal 1 10);
    agrees fmul mul rmax (float_of_int 36);
    agrees fmul mul rmax (float_of_int 62);
    agrees fmul mul (literal 1 10) (literal 1 10);
    agrees fadd add (literal 1 10) (literal 2 10);
    agrees fadd add (- literal 1 10) (literal 3 10);
    agrees fmul mul (- literal 1 10) (literal 3 10);
    agrees fdiv div (literal 1 10) (- literal 3 10);
    agrees fdiv div 3 (2 * U);
    agrees fdiv div 5 (2 * U);
    agrees fmul mul 7 (literal 1 2);
    agrees fmul mul (2 ^ 60 + 2 ^ 8) (literal 1 2);
    agrees fadd add (2 ^ 53 * U) U;
    agrees fadd add (2 ^ 53 * U + 2 * U) U;
    agrees fmul mul (2 ^ 1021) (2 ^ 1021) ].

(* ================================================================== *)
(** ** Patterns, tapes and amounts; the scripts run as programs *)
(* ================================================================== *)

Definition is_alnum (c : ascii) : bool :=
  let n := N_of_ascii c in
  ((65 <=? n) && (n <=? 90) || (97 <=? n) && (n <=? 122)
   || (48 <=? n) && (n <=? 57))%N.

(** The pattern [[A-Za-z0-9]{7}-[A-Za-z0-9]{22}], anchored at both ends. *)
Definition matches_transfer_id (s : string) : bool :=
  let l := list_ascii_of_string s in
  Nat.eqb (List.length l) 30
  && forallb is_alnum (firstn 7 l)
  && match nth_error l 7 with
     | Some c => Ascii.eqb c "-"
     | None => false
     end
  && forallb is_alnum (skipn 8 l).

(** A generator reads the tape from its front: what it returns, and what
    it leaves, do not depend on the words behind those it consumed. *)
Definition reads_a_prefix {A} (m : M A) : Prop :=
  forall s x s' t, m s = Some (x, s') -> m (s ++ t) = Some (x, s' ++ t).

(** Two words that make [random()] return [k / 2^53], with [k] the least
    integer for which [k / 2^53 * n] is at least [i]: the draw for which
    [choices] picks index [i] of a population of [n]. *)
Definition words_for_index (n i : Z) : rng :=
  let k := (i * 2 ^ 53 + n - 1) / n in
  [Z.shiftl (Z.shiftr k 26) 5; Z.shiftl (Z.land k (Z.ones 26)) 6].

Fixpoint index_of (c : ascii) (population : list ascii) : Z :=
  match population with
  | [] => 0
  | x :: rest => if Ascii.eqb x c then 0 else 1 + index_of c rest
  end.

Definition words_for_symbol (population : list ascii) (c : ascii) : rng :=
  words_for_index (Z.of_nat (List.length population)) (index_of c population).

(** The tape from which [choices] spells [cs]. *)
Definition tape_for (population : list ascii) (cs : list ascii) : rng :=
  flat_map (words_for_symbol population) cs.

Definition draws_symbol (population : list ascii) (c : ascii) : bool :=
  match choices population 1 (words_for_symbol population c) with
  | Some ([x], []) => Ascii.eqb x c
  | _ => false
  end.

(** [record[key]], when it is a string holding an unsigned fixed-point
    numeral (it starts with a digit): the number [n] of [10^-d] steps the
    numeral denotes, and [d]. *)
Definition amount (record : dict) (key : string) : option (Z * nat) :=
  match dict_get record key with
  | Some (PStr (String c rest)) =>
      if is_digit c then decimal_value (String c rest) else None
  | _ => None
  end.

(** The tape ends with at least [k] zero words. *)
Definition ends_in_zeros (k : nat) (s : rng) : Prop :=
  exists p, s = p ++ repeat 0 k.

(** *** The scripts run as programs *)

Definition newline : string := String "010"%char EmptyString.

(** [print(x)] for a string [x]: its text and a line feed, written after
    what standard output already holds. *)
Definition print (x : string) (stdout : string) : string :=
  (stdout ++ x ++ newline)%string.

(** The lines of a text, as [text.split("\n")] without the empty piece
    after the last line feed. *)
Fixpoint lines_from (cur : string) (text : string) : list string :=
  match text with
  | EmptyString =>
      match cur with
      | EmptyString => []
      | _ => [cur]
      end
  | String c rest =>
      if Ascii.eqb c "010"
      then cur :: lines_from EmptyString rest
      else lines_from (cur ++ String c EmptyString) rest
  end.

Definition lines (text : string) : list string := lines_from EmptyString text.

(** scripts/order_ids.py as a program:
    [for uuid in gen_random_kraken_identifiers(19): print(uuid)];
    the result is what it writes to standard output. *)
Definition order_ids_main : M string :=
  uuids <- order_ids.gen_random_kraken_identifiers 19 ;;
  ret (fold_left (fun stdout uuid => print uuid stdout) uuids EmptyString).

(** scripts/transfer_ids.py as a program:
    [for uuid in gen_random_kraken_transfer_identifiers(3): print(uuid)]. *)
Definition transfer_ids_main : M string :=
  uuids <- transfer_ids.gen_random_kraken_transfer_identifiers 3 ;;
  ret (fold_left (fun stdout uuid => print uuid stdout) uuids EmptyString).

(** [d[key] = value]: the value of a key already present is replaced where
    it stands; a new key goes to the end. *)
Fixpoint dict_set (d : dict) (key : string) (value : pyvalue) : dict :=
  match d with
  | [] => [(key, value)]
  | (k, v) :: d' =>
      if String.eqb k key then (k, value) :: d'
      else (k, v) :: dict_set d' key value
  end.

(** The mapping scripts/closed_orders.py builds when run as a program,
    [{gen_order_id(): gen_random_closed_order() for _ in range(3)}]:
    each round evaluates the key, then the value (the order the language
    defines since Python 3.8), and stores the item. *)
Fixpoint orders_comprehension (tz : Z) (n : nat) (orders : dict) : M dict :=
  match n with
  | O => ret orders
  | S n' =>
      key <- order_ids.gen_order_id ;;
      value <- closed_orders.gen_random_closed_order tz ;;
      orders_comprehension tz n' (dict_set orders key (PDict value))
  end.

Definition closed_orders_main_orders (tz : Z) : M dict :=
  orders_comprehension tz 3 [].

(** An item of that mapping: an order identifier with a record that
    [gen_random_closed_order] returned. *)
Definition is_order_item (tz : Z) (item : string * pyvalue) : Prop :=
  order_ids.matches_order_id (fst item) = true
  /\ exists record s s',
       snd item = PDict record
       /\ closed_orders.gen_random_closed_order tz s = Some (record, s').

(* ================================================================== *)
(** * Rounding *)
(* ================================================================== *)

Import constants timestamps order_ids closed_orders.

(** ** Division rounded to the nearest integer *)

Section RneDiv.

Lemma rne_div_bounds p q :
  0 < q -> p / q <= rne_div p q <= p / q + 1.
Proof.
  intros Hq. unfold rne_div.
  destruct (2 * (p mod q) ?= q); destruct (Z.even (p / q)); lia.
Qed.

(** [rne_div p q] is an integer nearest to [p / q]. *)
Lemma rne_div_nearest p q :
  0 < q -> 2 * Z.abs (rne_div p q * q - p) <= q.
Proof.
  intros Hq. unfold rne_div.
  pose proof (Z.div_mod p q ltac:(lia)) as E.
  pose proof (Z.mod_pos_bound p q Hq) as B.
  destruct (Z.compare_spec (2 * (p mod q)) q);
    destruct (Z.even (p / q)); nia.
Qed.

Lemma div_le_cross p1 q1 p2 q2 :
  0 < q1 -> 0 < q2 -> p1 * q2 <= p2 * q1 -> p1 / q1 <= p2 / q2.
Proof.
  intros H1 H2 H.
  pose proof (Z.div_mod p1 q1 ltac:(lia)).
  pose proof (Z.mod_pos_bound p1 q1 H1).
  pose proof (Z.div_mod p2 q2 ltac:(lia)).
  pose proof (Z.mod_pos_bound p2 q2 H2).
  apply Z.div_le_lower_bound; [lia|].
  destruct (Z_le_gt_dec (q2 * (p1 / q1)) p2) as [|G]; [assumption|exfalso].
  nia.
Qed.

Lemma rne_div_mono p1 q1 p2 q2 :
  0 < q1 -> 0 < q2 -> p1 * q2 <= p2 * q1 ->
  rne_div p1 q1 <= rne_div p2 q2.
Proof.
  intros H1 H2 H.
  pose proof (div_le_cross _ _ _ _ H1 H2 H) as Hn.
  pose proof (rne_div_bounds p1 q1 H1) as B1.
  pose proof (rne_div_bounds p2 q2 H2) as B2.
  destruct (Z.eq_dec (p1 / q1) (p2 / q2)) as [E|NE]; [|lia].
  unfold rne_div in *. rewrite <- E in *.
  pose proof (Z.div_mod p1 q1 ltac:(lia)).
  pose proof (Z.mod_pos_bound p1 q1 H1).
  pose proof (Z.div_mod p2 q2 ltac:(lia)).
  pose proof (Z.mod_pos_bound p2 q2 H2).
  assert (Hr : (p1 mod q1) * q2 <= (p2 mod q2) * q1) by nia.
  destruct (Z.compare_spec (2 * (p1 mod q1)) q1);
    destruct (Z.compare_spec (2 * (p2 mod q2)) q2);
    destruct (Z.even (p1 / q1)); try lia; exfalso; nia.
Qed.

Lemma rne_div_mono_num p1 p2 q :
  0 < q -> p1 <= p2 -> rne_div p1 q <= rne_div p2 q.
Proof. intros Hq H. apply rne_div_mono; nia. Qed.

Lemma rne_div_ext p1 q1 p2 q2 :
  0 < q1 -> 0 < q2 -> p1 * q2 = p2 * q1 ->
  rne_div p1 q1 = rne_div p2 q2.
Proof.
  intros H1 H2 H. apply Z.le_antisymm; apply rne_div_mono; lia.
Qed.

Lemma rne_div_exact n q : 0 < q -> rne_div (n * q) q = n.
Proof.
  intros Hq. unfold rne_div.
  rewrite Z.div_mul, Z.mod_mul by lia.
  destruct (Z.compare_spec (2 * 0) q); try lia.
Qed.

Lemma rne_div_1 n : rne_div n 1 = n.
Proof. rewrite <- (Z.mul_1_r n) at 1. apply rne_div_exact. lia. Qed.

Lemma rne_div_le_int p q n : 0 < q -> p <= n * q -> rne_div p q <= n.
Proof.
  intros Hq H. rewrite <- (rne_div_exact n q Hq).
  apply rne_div_mono; nia.
Qed.

Lemma rne_div_ge_int p q n : 0 < q -> n * q <= p -> n <= rne_div p q.
Proof.
  intros Hq H. rewrite <- (rne_div_exact n q Hq).
  apply rne_div_mono; nia.
Qed.

(** Strictly below the midpoint of [n] and [n + 1]: rounds to at most [n]. *)
Lemma rne_div_below_half p q n :
  0 < q -> 2 * p < (2 * n + 1) * q -> rne_div p q <= n.
Proof.
  intros Hq H. unfold rne_div.
  pose proof (Z.div_mod p q ltac:(lia)).
  pose proof (Z.mod_pos_bound p q Hq).
  assert (p / q <= n) by nia.
  destruct (Z.compare_spec (2 * (p mod q)) q);
    destruct (Z.even (p / q)); nia.
Qed.

Lemma rne_div_opp p q : 0 < q -> rne_div (- p) q = - rne_div p q.
Proof.
  intros Hq.
  pose proof (rne_div_nearest p q Hq) as N1.
  pose proof (rne_div_nearest (- p) q Hq) as N2.
  unfold rne_div in *.
  pose proof (Z.div_mod p q ltac:(lia)) as E1.
  pose proof (Z.mod_pos_bound p q Hq) as B1.
  pose proof (Z.div_mod (- p) q ltac:(lia)) as E2.
  pose proof (Z.mod_pos_bound (- p) q Hq) as B2.
  destruct (Z.eq_dec (p mod q) 0) as [Z0|NZ].
  - assert ((- p) mod q = 0) as Z1.
    { apply Z.mod_opp_l_z; lia. }
    rewrite Z0, Z1 in *.
    assert (- p / q = - (p / q)) by nia.
    destruct (Z.compare_spec (2 * 0) q); lia.
  - assert (- p / q = - (p / q) - 1) as Hd by nia.
    assert ((- p) mod q = q - p mod q) as Hm by nia.
    rewrite Hd, Hm in *.
    assert (Z.even (- (p / q) - 1) = negb (Z.even (p / q))) as Hev.
    { replace (- (p / q) - 1) with (- (Z.succ (p / q))) by lia.
      rewrite Z.even_opp, Z.even_succ, <- Z.negb_even. reflexivity. }
    rewrite Hev.
    destruct (Z.compare_spec (2 * (p mod q)) q);
      destruct (Z.compare_spec (2 * (q - p mod q)) q);
      destruct (Z.even (p / q)); simpl; lia.
Qed.

End RneDiv.

(** ** Rounding to the nearest double *)

Section Round53.

Lemma grid_nonneg a : 0 <= grid a.
Proof. unfold grid. lia. Qed.

Lemma grid_mono a b : a <= b -> grid a <= grid b.
Proof.
  intros H. unfold grid. pose proof (Z.log2_le_mono a b H). lia.
Qed.

Lemma pow2_pos k : 0 < 2 ^ k \/ (k < 0 /\ 2 ^ k = 0).
Proof.
  destruct (Z_lt_le_dec k 0) as [N|P].
  - right. split; [assumption|]. apply Z.pow_neg_r. assumption.
  - left. apply Z.pow_pos_nonneg; lia.
Qed.

Lemma pow2_grid_pos a : 0 < 2 ^ grid a.
Proof. apply Z.pow_pos_nonneg; [lia | apply grid_nonneg]. Qed.

(** A magnitude lies below the top of its binade... *)
Lemma grid_upper a : 0 <= a -> a < 2 ^ grid a * 2 ^ 53.
Proof.
  intros Ha. rewrite <- Z.pow_add_r by (pose proof (grid_nonneg a); lia).
  destruct (Z.eq_dec a 0) as [->|NZ].
  - apply Z.pow_pos_nonneg; [lia|]. pose proof (grid_nonneg 0). lia.
  - destruct (Z.log2_spec a ltac:(lia)) as [_ Hu].
    eapply Z.lt_le_trans; [exact Hu|].
    apply Z.pow_le_mono_r; [lia|]. unfold grid. lia.
Qed.

(** ... and, when the spacing exceeds one unit, at or above its bottom. *)
Lemma grid_lower a : 0 < grid a -> 2 ^ grid a * 2 ^ 52 <= a.
Proof.
  intros Hg. rewrite <- Z.pow_add_r by lia.
  assert (0 < a) as Ha.
  { destruct (Z_lt_le_dec 0 a); [assumption|].
    unfold grid in Hg. rewrite Z.log2_nonpos in Hg by assumption. lia. }
  destruct (Z.log2_spec a Ha) as [Hl _].
  eapply Z.le_trans; [|exact Hl].
  apply Z.pow_le_mono_r; [lia|]. unfold grid in *. lia.
Qed.

Lemma div_ext p1 q1 p2 q2 :
  0 < q1 -> 0 < q2 -> p1 * q2 = p2 * q1 -> p1 / q1 = p2 / q2.
Proof.
  intros. apply Z.le_antisymm; apply div_le_cross; lia.
Qed.

Lemma round53_0 q : 0 < q -> round53 0 q = 0.
Proof.
  intros Hq. unfold round53. change (Z.abs 0) with 0.
  rewrite Zdiv_0_l. pose proof (pow2_grid_pos 0).
  rewrite <- (Z.mul_0_l (q * 2 ^ grid 0)) at 1.
  rewrite rne_div_exact by nia. reflexivity.
Qed.

Lemma round53_ext p1 q1 p2 q2 :
  0 < q1 -> 0 < q2 -> p1 * q2 = p2 * q1 ->
  round53 p1 q1 = round53 p2 q2.
Proof.
  intros H1 H2 H. unfold round53.
  assert (Z.abs p1 / q1 = Z.abs p2 / q2) as ->.
  { apply div_ext; try assumption.
    destruct (Z.abs_spec p1) as [[? ->]|[? ->]];
      destruct (Z.abs_spec p2) as [[? ->]|[? ->]]; nia. }
  set (k := grid _). pose proof (pow2_grid_pos (Z.abs p2 / q2)) as Hk.
  fold k in Hk. f_equal. apply rne_div_ext; nia.
Qed.

Lemma round53_opp p q : 0 < q -> round53 (- p) q = - round53 p q.
Proof.
  intros Hq. unfold round53. rewrite Z.abs_opp.
  set (k := grid _). pose proof (pow2_grid_pos (Z.abs p / q)) as Hk.
  fold k in Hk. rewrite rne_div_opp by nia. lia.
Qed.

Lemma round53_mono_nonneg p1 q1 p2 q2 :
  0 < q1 -> 0 < q2 -> 0 <= p1 -> p1 * q2 <= p2 * q1 ->
  round53 p1 q1 <= round53 p2 q2.
Proof.
  intros H1 H2 P1 H.
  assert (0 <= p2) as P2 by nia.
  unfold round53. rewrite !Z.abs_eq by assumption.
  pose proof (div_le_cross _ _ _ _ H1 H2 H) as Ha.
  assert (0 <= p1 / q1) as A1 by (apply Z.div_pos; lia).
  assert (0 <= p2 / q2) as A2 by lia.
  pose proof (grid_mono _ _ Ha) as Hg.
  pose proof (grid_upper _ A1) as Up.
  pose proof (pow2_grid_pos (p1 / q1)) as K1.
  pose proof (pow2_grid_pos (p2 / q2)) as K2.
  pose proof (Z.div_mod p1 q1 ltac:(lia)) as E1.
  pose proof (Z.mod_pos_bound p1 q1 H1) as B1.
  pose proof (Z.div_mod p2 q2 ltac:(lia)) as E2.
  pose proof (Z.mod_pos_bound p2 q2 H2) as B2.
  set (a1 := p1 / q1) in *. set (a2 := p2 / q2) in *.
  destruct (Z.eq_dec (grid a1) (grid a2)) as [E|NE].
  - rewrite E in *.
    apply Z.mul_le_mono_nonneg_r; [lia|].
    apply rne_div_mono; nia.
  - assert (0 < grid a2) as G2 by (pose proof (grid_nonneg a1); lia).
    pose proof (grid_lower _ G2) as Lo.
    assert (2 * 2 ^ grid a1 <= 2 ^ grid a2) as Hpow.
    { replace (2 * 2 ^ grid a1) with (2 ^ (grid a1 + 1)).
      - apply Z.pow_le_mono_r; lia.
      - rewrite Z.pow_add_r by (pose proof (grid_nonneg a1); lia). lia. }
    assert (rne_div p1 (q1 * 2 ^ grid a1) <= 2 ^ 53) as R1.
    { apply rne_div_le_int; nia. }
    assert (2 ^ 52 <= rne_div p2 (q2 * 2 ^ grid a2)) as R2.
    { apply rne_div_ge_int; nia. }
    change (2 ^ 53) with (2 * 2 ^ 52) in *.
    assert (0 < 2 ^ 52) by reflexivity.
    nia.
Qed.

Lemma round53_nonneg p q : 0 < q -> 0 <= p -> 0 <= round53 p q.
Proof.
  intros Hq Hp. rewrite <- (round53_0 q Hq).
  apply round53_mono_nonneg; lia.
Qed.

(** Rounding is monotone: the workhorse of every bound below. *)
Lemma round53_mono p1 q1 p2 q2 :
  0 < q1 -> 0 < q2 -> p1 * q2 <= p2 * q1 ->
  round53 p1 q1 <= round53 p2 q2.
Proof.
  intros H1 H2 H.
  destruct (Z_le_gt_dec 0 p1) as [P1|N1].
  - apply round53_mono_nonneg; assumption.
  - destruct (Z_le_gt_dec 0 p2) as [P2|N2].
    + pose proof (round53_nonneg p2 q2 H2 P2).
      pose proof (round53_nonneg (- p1) q1 H1 ltac:(lia)) as Hn.
      rewrite round53_opp in Hn by assumption. lia.
    + pose proof (round53_mono_nonneg (- p2) q2 (- p1) q1 H2 H1
                    ltac:(lia) ltac:(lia)) as Hn.
      rewrite !round53_opp in Hn by assumption. lia.
Qed.

Lemma representable_opp x : representable x -> representable (- x).
Proof. unfold representable. rewrite Z.abs_opp. trivial. Qed.

Lemma representable_iff x : representableb x = true <-> representable x.
Proof. unfold representableb, representable. apply Z.eqb_eq. Qed.

(** A double is its own rounding. *)
Lemma round53_id x : representable x -> round53 x 1 = x.
Proof.
  assert (forall y, 0 <= y -> representable y -> round53 y 1 = y) as Pos.
  { intros y Hy R. unfold representable, round53 in *.
    rewrite Z.abs_eq in * by assumption. rewrite Z.div_1_r, Z.mul_1_l.
    pose proof (pow2_grid_pos y) as K.
    apply Z.mod_divide in R; [|lia]. destruct R as [c Hc].
    set (k := grid y) in *. rewrite Hc.
    rewrite rne_div_exact by assumption. reflexivity. }
  intros R. destruct (Z_le_gt_dec 0 x) as [P|N]; [apply Pos; assumption|].
  pose proof (Pos (- x) ltac:(lia) (representable_opp _ R)) as E.
  rewrite round53_opp in E by lia. lia.
Qed.

(** [m * 2^e] with a significand of at most 53 bits is a double. *)
Lemma representable_intro m e :
  Z.abs m < 2 ^ 53 -> 0 <= e -> representable (m * 2 ^ e).
Proof.
  intros Hm He. unfold representable.
  assert (0 < 2 ^ e) as Pe by (apply Z.pow_pos_nonneg; lia).
  rewrite Z.abs_mul, (Z.abs_eq (2 ^ e)) by lia.
  set (a := Z.abs m) in *. assert (0 <= a) as Ha by (subst a; lia).
  pose proof (grid_nonneg (a * 2 ^ e)) as G0.
  destruct (Z_le_gt_dec (grid (a * 2 ^ e)) e) as [L|G].
  - replace e with ((e - grid (a * 2 ^ e)) + grid (a * 2 ^ e)) at 1 by lia.
    rewrite Z.pow_add_r by lia. rewrite Z.mul_assoc. apply Z.mod_mul.
    pose proof (pow2_grid_pos (a * 2 ^ e)). lia.
  - exfalso.
    pose proof (grid_lower (a * 2 ^ e) ltac:(lia)) as Lo.
    assert (2 * 2 ^ e <= 2 ^ grid (a * 2 ^ e)) as Hpow.
    { replace (2 * 2 ^ e) with (2 ^ (e + 1)).
      - apply Z.pow_le_mono_r; lia.
      - rewrite Z.pow_add_r by lia. lia. }
    change (2 ^ 53) with (2 * 2 ^ 52) in Hm.
    assert (0 < 2 ^ 52) by reflexivity. nia.
Qed.

(** The result of a rounding is a double. *)
Lemma round53_representable p q : 0 < q -> representable (round53 p q).
Proof.
  intros Hq.
  assert (forall p, 0 <= p -> representable (round53 p q)) as Pos.
  { clear p. intros p Hp. unfold round53. rewrite Z.abs_eq by assumption.
    assert (0 <= p / q) as A by (apply Z.div_pos; lia).
    pose proof (grid_upper _ A) as Up.
    pose proof (pow2_grid_pos (p / q)) as K.
    pose proof (grid_nonneg (p / q)) as G0.
    pose proof (Z.div_mod p q ltac:(lia)) as E.
    pose proof (Z.mod_pos_bound p q Hq) as B.
    set (k := grid (p / q)) in *.
    assert (rne_div p (q * 2 ^ k) <= 2 ^ 53) as R1.
    { apply rne_div_le_int; nia. }
    assert (0 <= rne_div p (q * 2 ^ k)) as R0.
    { apply rne_div_ge_int; nia. }
    destruct (Z.eq_dec (rne_div p (q * 2 ^ k)) (2 ^ 53)) as [Top|NTop].
    - rewrite Top. replace (2 ^ 53 * 2 ^ k) with (2 ^ 52 * 2 ^ (k + 1)).
      + apply representable_intro; [reflexivity | lia].
      + rewrite Z.pow_add_r by lia. change (2 ^ 53) with (2 ^ 52 * 2). lia.
    - apply representable_intro; lia. }
  destruct (Z_le_gt_dec 0 p) as [P|N]; [apply Pos; assumption|].
  replace p with (- - p) by lia. rewrite round53_opp by assumption.
  apply representable_opp, Pos. lia.
Qed.

End Round53.

(** ** The roundings as computed *)

Section Computed.

Lemma U_pos : 0 < U.
Proof. reflexivity. Qed.

Lemma rne_shr_spec p n : 0 <= n -> rne_shr p n = rne_div p (2 ^ n).
Proof.
  intros Hn. unfold rne_shr, rne_div.
  rewrite Z.shiftr_div_pow2, Z.land_ones, Z.shiftl_1_l by assumption.
  reflexivity.
Qed.

Lemma round_pow2_spec p n : 0 <= n -> round_pow2 p n = round53 p (2 ^ n).
Proof.
  intros Hn. unfold round_pow2, round53.
  rewrite Z.shiftr_div_pow2 by assumption.
  set (k := grid _). pose proof (grid_nonneg (Z.abs p / 2 ^ n)) as Hk.
  fold k in Hk.
  rewrite rne_shr_spec, Z.shiftl_mul_pow2, Z.pow_add_r by lia.
  reflexivity.
Qed.

Lemma round_ratio_spec p q : 0 < q -> round_ratio p q = round53 p q.
Proof.
  intros Hq. unfold round_ratio.
  assert (Z.div_eucl (Z.abs p) q = (Z.abs p / q, Z.abs p mod q)) as ->.
  { unfold Z.div, Z.modulo. destruct (Z.div_eucl (Z.abs p) q). reflexivity. }
  set (s := Z.abs p). assert (0 <= s) as Hs by (subst s; lia).
  set (k := grid (s / q)). pose proof (grid_nonneg (s / q)) as Hk.
  fold k in Hk.
  assert (0 < 2 ^ k) as Pk by (apply Z.pow_pos_nonneg; lia).
  assert (Z.shiftl
            match 2 * (Z.land (s / q) (Z.ones k) * q + s mod q)
                  ?= Z.shiftl q k with
            | Eq => if Z.even (Z.shiftr (s / q) k)
                    then Z.shiftr (s / q) k else Z.shiftr (s / q) k + 1
            | Lt => Z.shiftr (s / q) k
            | Gt => Z.shiftr (s / q) k + 1
            end k
          = round53 s q) as ->.
  { unfold round53, rne_div. rewrite (Z.abs_eq s) by assumption. fold k.
    rewrite Z.shiftr_div_pow2, Z.land_ones, !Z.shiftl_mul_pow2 by lia.
    rewrite Z.div_div by lia.
    rewrite (Z.rem_mul_r s q (2 ^ k)) by lia.
    replace (s / q mod 2 ^ k * q + s mod q)
      with (s mod q + q * (s / q mod 2 ^ k)) by lia.
    reflexivity. }
  subst s. destruct (Z.abs_spec p) as [[Hp ->]|[Hp ->]].
  - destruct (Z.eq_dec p 0) as [->|NZ].
    + rewrite round53_0 by assumption. reflexivity.
    + rewrite Z.sgn_pos by lia. lia.
  - rewrite Z.sgn_neg by lia. rewrite round53_opp by assumption. lia.
Qed.

Lemma pos_ctz_spec p :
  0 <= pos_ctz p /\ (2 ^ pos_ctz p | Z.pos p).
Proof.
  induction p as [p IH|p IH|]; cbn [pos_ctz].
  - split; [lia | apply Z.divide_1_l].
  - destruct IH as [H0 [c Hc]]. split; [lia|].
    exists c. rewrite Z.pow_add_r, Pos2Z.inj_xO, Hc by lia. lia.
  - split; [lia | apply Z.divide_1_l].
Qed.

Lemma ctz_spec z : 0 <= ctz z /\ (2 ^ ctz z | z).
Proof.
  destruct z as [|p|p]; cbn [ctz].
  - split; [lia | apply Z.divide_0_r].
  - apply pos_ctz_spec.
  - destruct (pos_ctz_spec p) as [H0 [c Hc]]. split; [assumption|].
    exists (- c). rewrite <- Pos2Z.opp_pos, Hc. lia.
Qed.

Lemma pow2_divide_le a b z : 0 <= a <= b -> (2 ^ b | z) -> (2 ^ a | z).
Proof.
  intros H [c ->]. exists (c * 2 ^ (b - a)).
  rewrite <- Z.mul_assoc, <- Z.pow_add_r by lia. do 2 f_equal. lia.
Qed.

Lemma float_of_int_eq z : float_of_int z = round53 (z * U) 1.
Proof.
  unfold float_of_int. rewrite round_pow2_spec, Z.shiftl_mul_pow2 by lia.
  reflexivity.
Qed.

Lemma literal_eq n d : 0 < d -> literal n d = round53 (n * U) d.
Proof.
  intros Hd. unfold literal.
  rewrite round_ratio_spec, Z.shiftl_mul_pow2 by lia. reflexivity.
Qed.

Lemma fadd_eq x y : fadd x y = round53 (x + y) 1.
Proof. unfold fadd. rewrite round_pow2_spec by lia. reflexivity. Qed.

Lemma fsub_eq x y : fsub x y = round53 (x - y) 1.
Proof. unfold fsub. rewrite round_pow2_spec by lia. reflexivity. Qed.

Lemma fmul_eq x y : fmul x y = round53 (x * y) U.
Proof. unfold fmul. rewrite round_pow2_spec by lia. reflexivity. Qed.

Lemma fdiv_eq x y :
  y <> 0 -> fdiv x y = round53 (Z.sgn y * x * U) (Z.abs y).
Proof.
  intros Hy. unfold fdiv. rewrite Z.shiftl_mul_pow2 by lia.
  change (2 ^ 1074) with U.
  set (p := Z.sgn y * x * U). set (q := Z.abs y).
  assert (0 < q) as Hq by (subst q; lia).
  destruct (ctz_spec p) as [Cp Dp]. destruct (ctz_spec q) as [Cq Dq].
  set (t := Z.min (ctz p) (ctz q)).
  assert (0 <= t) as Ht by (subst t; lia).
  apply (pow2_divide_le t) in Dp; [|subst t; lia].
  apply (pow2_divide_le t) in Dq; [|subst t; lia].
  assert (0 < 2 ^ t) as Pt by (apply Z.pow_pos_nonneg; lia).
  destruct Dp as [a Ha]. destruct Dq as [b Hb].
  rewrite !Z.shiftr_div_pow2 by assumption.
  rewrite Ha, Hb, !Z.div_mul by lia.
  assert (0 < b) by nia.
  rewrite round_ratio_spec by assumption.
  apply round53_ext; nia.
Qed.

Lemma floor_eq x : floor x = x / U.
Proof. unfold floor. rewrite Z.shiftr_div_pow2 by lia. reflexivity. Qed.

Lemma modf_eq x : modf x = (Z.rem x U, Z.quot x U).
Proof.
  unfold modf. rewrite Z.land_ones, Z.shiftr_div_pow2 by lia.
  change (2 ^ 1074) with U. pose proof U_pos as HU.
  destruct (Z.abs_spec x) as [[Hx ->]|[Hx ->]].
  - destruct (Z.eq_dec x 0) as [->|NZ]; [reflexivity|].
    rewrite Z.sgn_pos, !Z.mul_1_l by lia.
    rewrite Z.rem_mod_nonneg, Z.quot_div_nonneg by lia. reflexivity.
  - rewrite Z.sgn_neg by lia.
    rewrite <- (Z.opp_involutive x) at 3 4.
    rewrite Z.rem_opp_l', Z.quot_opp_l by lia.
    rewrite Z.rem_mod_nonneg, Z.quot_div_nonneg by lia.
    f_equal; lia.
Qed.

Lemma round_half_even_eq x : round_half_even x = rne_div x U.
Proof. unfold round_half_even. apply rne_shr_spec. lia. Qed.

End Computed.

(** ** The arithmetic operations *)

Section Operations.

Lemma U_split : U = 2 ^ 1021 * 2 ^ 53.
Proof. reflexivity. Qed.

Lemma fadd_exact x y : representable (x + y) -> fadd x y = x + y.
Proof. rewrite fadd_eq. apply round53_id. Qed.

Lemma fsub_exact x y : representable (x - y) -> fsub x y = x - y.
Proof. rewrite fsub_eq. apply round53_id. Qed.

Lemma fmul_exact x y z :
  x * y = z * U -> representable z -> fmul x y = z.
Proof.
  intros E R. rewrite fmul_eq. rewrite <- (round53_id z R).
  apply round53_ext; [apply U_pos | lia | lia].
Qed.

Lemma float_of_int_exact z : Z.abs z < 2 ^ 53 -> float_of_int z = z * U.
Proof.
  intros H. rewrite float_of_int_eq. apply round53_id.
  apply representable_intro; [assumption | lia].
Qed.

Lemma fmul_comm x y : fmul x y = fmul y x.
Proof. unfold fmul. rewrite Z.mul_comm. reflexivity. Qed.

Lemma fadd_0_r x : representable x -> fadd x 0 = x.
Proof. intros R. rewrite fadd_eq, Z.add_0_r. apply round53_id, R. Qed.

Lemma fsub_diag x : fsub x x = 0.
Proof. rewrite fsub_eq, Z.sub_diag. apply round53_0. lia. Qed.

Lemma fmul_0_r x : fmul x 0 = 0.
Proof. rewrite fmul_eq, Z.mul_0_r. apply round53_0, U_pos. Qed.

Lemma fadd_representable x y : representable (fadd x y).
Proof. rewrite fadd_eq. apply round53_representable. lia. Qed.

Lemma fsub_representable x y : representable (fsub x y).
Proof. rewrite fsub_eq. apply round53_representable. lia. Qed.

Lemma fmul_representable x y : representable (fmul x y).
Proof. rewrite fmul_eq. apply round53_representable, U_pos. Qed.

Lemma literal_representable n d : 0 < d -> representable (literal n d).
Proof.
  intros Hd. rewrite literal_eq by assumption.
  apply round53_representable, Hd.
Qed.

Lemma float_of_int_representable z : representable (float_of_int z).
Proof. rewrite float_of_int_eq. apply round53_representable. lia. Qed.

Lemma round53_mono_num p1 p2 q :
  0 < q -> p1 <= p2 -> round53 p1 q <= round53 p2 q.
Proof. intros Hq H. apply round53_mono; nia. Qed.

Lemma fadd_mono x1 y1 x2 y2 :
  x1 + y1 <= x2 + y2 -> fadd x1 y1 <= fadd x2 y2.
Proof. intros H. rewrite !fadd_eq. apply round53_mono; lia. Qed.

Lemma fmul_mono x1 y1 x2 y2 :
  x1 * y1 <= x2 * y2 -> fmul x1 y1 <= fmul x2 y2.
Proof.
  intros H. pose proof U_pos. rewrite !fmul_eq. apply round53_mono; nia.
Qed.

Lemma fmul_nonneg x y : 0 <= x -> 0 <= y -> 0 <= fmul x y.
Proof. intros. rewrite fmul_eq. apply round53_nonneg; [apply U_pos | nia]. Qed.

Lemma float_of_int_mono z1 z2 :
  z1 <= z2 -> float_of_int z1 <= float_of_int z2.
Proof.
  intros H. pose proof U_pos. rewrite !float_of_int_eq.
  apply round53_mono; nia.
Qed.

(** A draw [r = k / 2^53] of [random()] scales the rounded length [fl(x)]
    of an interval to at most the true length [x]: should the rounding of
    [x] have gone up, the factor [r <= 1 - 2^-53] takes it down again by
    at least half a spacing. *)
Lemma fmul_unit_le x k :
  0 <= x -> 0 <= k < 2 ^ 53 -> fmul (k * 2 ^ 1021) (round53 x 1) <= x.
Proof.
  intros Hx Hk.
  pose proof (round53_nonneg x 1 ltac:(lia) Hx) as D0.
  pose proof (round53_representable x 1 ltac:(lia)) as DR.
  destruct (Z_le_gt_dec (round53 x 1) x) as [Le|Gt].
  - (* the length was rounded down, or is exact *)
    apply Z.le_trans with (round53 x 1); [|exact Le].
    set (d := round53 x 1) in *.
    enough (fmul (k * 2 ^ 1021) d <= round53 d 1) as Hd
        by (rewrite (round53_id d DR) in Hd; exact Hd).
    rewrite fmul_eq. pose proof U_pos. rewrite U_split in *.
    assert (0 < 2 ^ 1021) as V by reflexivity.
    set (v := 2 ^ 1021) in *. set (b := 2 ^ 53) in *. clearbody v b.
    apply round53_mono; nia.
  - (* the length was rounded up to the next double *)
    rewrite fmul_eq. unfold round53 in Gt |- * at 2.
    rewrite Z.abs_eq, Z.div_1_r in * by lia.
    rewrite Z.mul_1_l in *.
    pose proof (grid_nonneg x) as G0.
    pose proof (pow2_grid_pos x) as K.
    pose proof (grid_upper x Hx) as Up.
    pose proof (rne_div_bounds x (2 ^ grid x) K) as RB.
    pose proof (Z.div_mod x (2 ^ grid x) ltac:(lia)) as E.
    pose proof (Z.mod_pos_bound x (2 ^ grid x) K) as B.
    destruct (Z.eq_dec (grid x) 0) as [G|G].
    { exfalso. rewrite G in *. rewrite rne_div_1 in Gt. lia. }
    pose proof (grid_lower x ltac:(lia)) as Lo.
    set (g := grid x) in *. set (Q := x / 2 ^ g) in *.
    assert (rne_div x (2 ^ g) = Q + 1) as -> by nia.
    assert (2 ^ 52 <= Q) as Q52.
    { apply Z.div_le_lower_bound; lia. }
    assert (Q < 2 ^ 53) as Q53.
    { apply Z.div_lt_upper_bound; lia. }
    apply Z.le_trans with (Q * 2 ^ g); [|lia].
    (* it suffices to look at the largest draw *)
    apply Z.le_trans with (round53 ((2 ^ 53 - 1) * ((Q + 1) * 2 ^ g)) (2 ^ 53)).
    { pose proof U_pos. rewrite U_split in *.
      assert (0 < 2 ^ 1021) as V by reflexivity.
      assert (0 < 2 ^ 53) as Bp by reflexivity.
      set (v := 2 ^ 1021) in *. set (b := 2 ^ 53) in *.
      set (t := 2 ^ g) in *. clearbody v b t.
      apply round53_mono; nia. }
    assert (0 < 2 ^ 52) as Hp by reflexivity.
    assert (2 ^ 53 = 2 * 2 ^ 52) as B53 by reflexivity.
    set (h := 2 ^ 52) in *. set (b := 2 ^ 53) in *.
    set (t := 2 ^ g) in *.
    assert (0 <= (b - 1) * ((Q + 1) * t)) as P0 by nia.
    unfold round53. rewrite Z.abs_eq by assumption.
    set (a := (b - 1) * ((Q + 1) * t) / b).
    assert (Q * t <= a) as A1.
    { apply Z.div_le_lower_bound; nia. }
    assert (a < (Q + 1) * t) as A2.
    { apply Z.div_lt_upper_bound; nia. }
    assert (grid a = g) as ->.
    { unfold grid. rewrite (Z.log2_unique a (52 + g)).
      - lia.
      - lia.
      - rewrite Z.pow_add_r, Z.pow_succ_r by lia.
        rewrite Z.pow_add_r by lia. fold h t. nia. }
    fold t. apply Z.mul_le_mono_nonneg_r; [lia|].
    apply rne_div_below_half; nia.
Qed.

(** [a + (b - a) * random()] stays within [[a, b]]. *)
Lemma lerp_bounds s e k :
  representable s -> representable e -> s <= e -> 0 <= k < 2 ^ 53 ->
  s <= fadd s (fmul (k * 2 ^ 1021) (fsub e s)) <= e.
Proof.
  intros Rs Re Hse Hk. rewrite fsub_eq.
  pose proof (fmul_unit_le (e - s) k ltac:(lia) Hk) as Hw.
  assert (0 <= fmul (k * 2 ^ 1021) (round53 (e - s) 1)) as W0.
  { apply fmul_nonneg.
    - assert (0 < 2 ^ 1021) by reflexivity. nia.
    - apply round53_nonneg; lia. }
  set (w := fmul _ _) in *. split.
  - rewrite fadd_eq. rewrite <- (round53_id s Rs) at 1.
    apply round53_mono; lia.
  - rewrite fadd_eq. rewrite <- (round53_id e Re). apply round53_mono; lia.
Qed.

End Operations.

(** The model against the Standard Library's IEEE 754 specification. *)
Lemma binary64_agrees_with_SpecFloat :
  forallb (fun b => b) spec_cross_checks = true.
Proof. vm_compute. reflexivity. Qed.

(* ================================================================== *)
(** * The runtime *)
(* ================================================================== *)

(** ** The random source *)

Section RandomFacts.

Lemma bind_inv {A B} (m : M A) (f : A -> M B) s b s' :
  bind m f s = Some (b, s') ->
  exists a s1, m s = Some (a, s1) /\ f a s1 = Some (b, s').
Proof.
  unfold bind. destruct (m s) as [[a s1]|]; [|discriminate].
  intros H. exists a, s1. split; [reflexivity | exact H].
Qed.

Lemma ret_inv {A} (a b : A) s s' :
  ret a s = Some (b, s') -> b = a /\ s' = s.
Proof. unfold ret. intros H. inversion H. split; reflexivity. Qed.

Lemma lift_inv {A} (o : option A) s b s' :
  lift o s = Some (b, s') -> o = Some b /\ s' = s.
Proof.
  destruct o as [a|]; simpl; [|discriminate].
  intros H. apply ret_inv in H. destruct H as [-> ->].
  split; reflexivity.
Qed.

Lemma genrand_uint32_inv s w s' :
  genrand_uint32 s = Some (w, s') ->
  0 <= w < 2 ^ 32 /\ exists w0, s = w0 :: s'.
Proof.
  destruct s as [|w0 t]; [discriminate|]. unfold genrand_uint32.
  intros H. inversion H; subst. split.
  - apply Z.mod_pos_bound. reflexivity.
  - exists w0. reflexivity.
Qed.

Lemma representable_int z : Z.abs z < 2 ^ 53 -> representable (z * U).
Proof. intros H. apply representable_intro; [assumption | lia]. Qed.

Lemma inv_2_53 :
  fdiv (float_of_int 1) (float_of_int 9007199254740992) = 2 ^ 1021.
Proof. vm_compute. reflexivity. Qed.

(** [random()] reads two words and returns [k / 2^53] for a
    [0 <= k < 2^53]: every float operation in it is exact. *)
Lemma random_inv s r s' :
  random s = Some (r, s') ->
  exists w1 w2 k,
    s = w1 :: w2 :: s' /\ 0 <= k < 2 ^ 53 /\ r = k * 2 ^ 1021.
Proof.
  unfold random. intros H.
  apply bind_inv in H. destruct H as (a & s1 & Ha & H).
  apply bind_inv in H. destruct H as (b & s2 & Hb & H).
  apply ret_inv in H. destruct H as [-> ->].
  apply genrand_uint32_inv in Ha. destruct Ha as [Ba [w1 ->]].
  apply genrand_uint32_inv in Hb. destruct Hb as [Bb [w2 ->]].
  exists w1, w2, (Z.shiftr a 5 * 2 ^ 26 + Z.shiftr b 6).
  rewrite !Z.shiftr_div_pow2 by lia.
  assert (0 <= a / 2 ^ 5 < 2 ^ 27) as Ba'.
  { split; [apply Z.div_pos; lia | apply Z.div_lt_upper_bound; lia]. }
  assert (0 <= b / 2 ^ 6 < 2 ^ 26) as Bb'.
  { split; [apply Z.div_pos; lia | apply Z.div_lt_upper_bound; lia]. }
  set (x := a / 2 ^ 5) in *. set (y := b / 2 ^ 6) in *.
  split; [reflexivity|]. split; [lia|].
  rewrite inv_2_53.
  rewrite (float_of_int_exact x), (float_of_int_exact y),
    (float_of_int_exact 67108864) by lia.
  rewrite (fmul_exact (x * U) (67108864 * U) (x * 2 ^ 26 * U)).
  - rewrite fadd_exact.
    + apply fmul_exact.
      * rewrite U_split. lia.
      * apply representable_intro; lia.
    + replace (x * 2 ^ 26 * U + y * U) with ((x * 2 ^ 26 + y) * U) by lia.
      apply representable_int. lia.
  - lia.
  - apply representable_int. lia.
Qed.

Lemma random_representable s r s' :
  random s = Some (r, s') -> representable r.
Proof.
  intros H. apply random_inv in H.
  destruct H as (_ & _ & k & _ & Hk & ->).
  apply representable_intro; lia.
Qed.

Lemma random_total w1 w2 s : exists r, random (w1 :: w2 :: s) = Some (r, s).
Proof. eexists. reflexivity. Qed.

Lemma bit_length_pos n : 0 < n -> 0 < bit_length n.
Proof.
  intros H. unfold bit_length.
  destruct (Z.eqb_spec n 0); [lia|]. pose proof (Z.log2_nonneg n). lia.
Qed.

(** [_randbelow n] returns a number of [[0, n)] and leaves a suffix of
    the tape. *)
Lemma _randbelow_inv n s r s' :
  _randbelow n s = Some (r, s') -> 0 <= r < n.
Proof.
  induction s as [|w t IH]; intros H; [discriminate|].
  cbn [_randbelow] in H.
  destruct (Z.ltb_spec (Z.shiftr (w mod 2 ^ 32) (32 - bit_length n)) n)
    as [L|G].
  - inversion H; subst. split; [|assumption].
    apply Z.shiftr_nonneg. apply Z.mod_pos_bound. reflexivity.
  - apply IH, H.
Qed.

Lemma randint_inv a b s r s' :
  randint a b s = Some (r, s') -> a <= r <= b.
Proof.
  unfold randint. destruct (0 <? b + 1 - a); [|discriminate].
  intros H. apply bind_inv in H. destruct H as (x & s1 & Hx & H).
  apply ret_inv in H. destruct H as [-> _].
  apply _randbelow_inv in Hx. lia.
Qed.

Lemma getitem_In {A} (seq : list A) i x :
  getitem seq i = Some x -> In x seq.
Proof.
  unfold getitem.
  destruct ((0 <=? i) && (i <? _));
    [|destruct ((- _ <=? i) && (i <? 0)); [|discriminate]];
    apply nth_error_In.
Qed.

Lemma choice_In {A} (seq : list A) s x s' :
  choice seq s = Some (x, s') -> In x seq.
Proof.
  unfold choice. destruct seq as [|y l]; [discriminate|].
  intros H. apply bind_inv in H. destruct H as (i & s1 & _ & H).
  apply lift_inv in H. destruct H as [H _].
  eapply getitem_In, H.
Qed.

(** [uniform(a, b)] for doubles [a <= b] lies in [[a, b]]. *)
Lemma uniform_inv a b s x s' :
  representable a -> representable b -> a <= b ->
  uniform a b s = Some (x, s') ->
  a <= x <= b /\ representable x
  /\ exists r s1, random s = Some (r, s1) /\ s' = s1
                  /\ x = fadd a (fmul (fsub b a) r).
Proof.
  intros Ra Rb Hab H. unfold uniform in H.
  apply bind_inv in H. destruct H as (r & s1 & Hr & H).
  apply ret_inv in H. destruct H as [-> ->].
  split; [|split].
  - apply random_inv in Hr. destruct Hr as (_ & _ & k & _ & Hk & ->).
    rewrite fmul_comm. apply lerp_bounds; assumption.
  - apply fadd_representable.
  - exists r, s1. repeat split. exact Hr.
Qed.

End RandomFacts.

(** Inverts one [bind] of a run that returned. *)
Ltac inv_bind H :=
  let a := fresh "a" in
  let s := fresh "s" in
  let Ha := fresh "D" in
  apply bind_inv in H; destruct H as (a & s & Ha & H).

(** ** Datetimes and timestamps *)

Section DatetimeFacts.
Variable tz : Z.
Hypothesis tz_range : -86400 < tz < 86400.

Lemma timestamp_representable d : representable (timestamp tz d).
Proof. apply fadd_representable. Qed.

Lemma float_1e6 : float_of_int 1000000 = 1000000 * U.
Proof. apply float_of_int_exact. reflexivity. Qed.

(** The fraction [us / 1e6] of a second, as a double. *)
Lemma microsecond_fraction us :
  0 <= us < 1000000 ->
  0 <= fdiv (float_of_int us) (float_of_int 1000000) < U.
Proof.
  intros Hus. pose proof U_pos as HU.
  rewrite float_1e6, float_of_int_exact by lia.
  rewrite fdiv_eq by lia.
  rewrite Z.sgn_pos, Z.abs_eq, Z.mul_1_l by lia. split.
  - apply round53_nonneg; nia.
  - apply Z.le_lt_trans
      with (round53 (999999 * U * U) (1000000 * U)).
    + apply round53_mono_num; nia.
    + vm_compute. reflexivity.
Qed.

Lemma microsecond_fraction_mono us1 us2 :
  0 <= us1 <= us2 -> us2 < 1000000 ->
  fdiv (float_of_int us1) (float_of_int 1000000)
  <= fdiv (float_of_int us2) (float_of_int 1000000).
Proof.
  intros H1 H2. pose proof U_pos as HU.
  rewrite float_1e6, !float_of_int_exact by lia.
  rewrite !fdiv_eq by lia.
  rewrite Z.sgn_pos, Z.abs_eq, !Z.mul_1_l by lia.
  apply round53_mono_num; nia.
Qed.

(** On valid datetimes [timestamp] is monotone. *)
Lemma timestamp_mono a b :
  valid_datetime a -> valid_datetime b -> dt_le a b = true ->
  timestamp tz a <= timestamp tz b.
Proof.
  intros [Sa Ma] [Sb Mb] H. unfold dt_le in H. unfold timestamp.
  rewrite (float_of_int_exact (dt_second a - tz)),
    (float_of_int_exact (dt_second b - tz)) by lia.
  pose proof (microsecond_fraction _ Ma) as Fa.
  pose proof (microsecond_fraction _ Mb) as Fb.
  pose proof U_pos as HU.
  apply fadd_mono.
  apply orb_true_iff in H. destruct H as [H|H].
  - apply Z.ltb_lt in H.
    assert ((dt_second a - tz + 1) * U <= (dt_second b - tz) * U)
      by (apply Z.mul_le_mono_nonneg_r; lia).
    lia.
  - apply andb_true_iff in H. destruct H as [E L].
    apply Z.eqb_eq in E. apply Z.leb_le in L. rewrite E.
    pose proof (microsecond_fraction_mono _ _ (conj (proj1 Ma) L) (proj2 Mb)).
    lia.
Qed.

Lemma gen_random_timestamp_inv start end_ s v s' :
  gen_random_timestamp tz start end_ s = Some (v, s') ->
  exists w1 w2 k,
    s = w1 :: w2 :: s' /\ 0 <= k < 2 ^ 53
    /\ v = fadd (timestamp tz start)
             (fmul (k * 2 ^ 1021)
                   (fsub (timestamp tz end_) (timestamp tz start))).
Proof.
  unfold gen_random_timestamp. intros H.
  apply bind_inv in H. destruct H as (r & s1 & Hr & H).
  apply ret_inv in H. destruct H as [-> ->].
  apply random_inv in Hr. destruct Hr as (w1 & w2 & k & -> & Hk & ->).
  exists w1, w2, k. repeat split; lia.
Qed.

Lemma gen_random_timestamp_range start end_ s v s' :
  valid_datetime start -> valid_datetime end_ ->
  dt_le start end_ = true ->
  gen_random_timestamp tz start end_ s = Some (v, s') ->
  timestamp tz start <= v <= timestamp tz end_.
Proof.
  intros Vs Ve Hle H.
  apply gen_random_timestamp_inv in H.
  destruct H as (_ & _ & k & _ & Hk & ->).
  apply lerp_bounds; try apply timestamp_representable; try assumption.
  apply timestamp_mono; assumption.
Qed.

End DatetimeFacts.

Lemma gen_random_timestamp_total tz start end_ w1 w2 s :
  exists v, gen_random_timestamp tz start end_ (w1 :: w2 :: s) = Some (v, s).
Proof.
  unfold gen_random_timestamp, bind.
  destruct (random_total w1 w2 s) as [r ->]. eexists. reflexivity.
Qed.

Section WindowFacts.
Variable tz : Z.
Hypothesis tz_range : -86400 < tz < 86400.

Lemma zero_microseconds :
  fdiv (float_of_int 0) (float_of_int 1000000) = 0.
Proof. vm_compute. reflexivity. Qed.

(** The timestamp of a whole second is exact. *)
Lemma timestamp_whole_second d :
  valid_datetime d -> dt_microsecond d = 0 ->
  timestamp tz d = (dt_second d - tz) * U.
Proof.
  intros [Vs _] Hus. unfold timestamp. rewrite Hus, zero_microseconds.
  rewrite (float_of_int_exact (dt_second d - tz)) by lia.
  apply fadd_0_r, representable_int. lia.
Qed.

(** [fromtimestamp] of an instant between two whole seconds [a <= b],
    not before the epoch, is a datetime between them. *)
Lemma fromtimestamp_between a b t :
  0 <= a -> b < 2 ^ 53 -> a * U <= t <= b * U ->
  a + tz <= dt_second (fromtimestamp tz t) <= b + tz
  /\ 0 <= dt_microsecond (fromtimestamp tz t) < 1000000
  /\ (dt_second (fromtimestamp tz t) = b + tz ->
      dt_microsecond (fromtimestamp tz t) = 0).
Proof.
  intros Ha Hb Ht. pose proof U_pos as HU.
  assert (0 <= t) as T0 by nia.
  unfold fromtimestamp. rewrite modf_eq, round_half_even_eq.
  rewrite Z.rem_mod_nonneg, Z.quot_div_nonneg by lia.
  pose proof (Z.div_mod t U ltac:(lia)) as E.
  pose proof (Z.mod_pos_bound t U HU) as B.
  assert (a <= t / U) as Qa by (apply Z.div_le_lower_bound; lia).
  assert (t / U <= b) as Qb.
  { apply Z.lt_succ_r, Z.div_lt_upper_bound; lia. }
  set (q := t / U) in *. set (fr := t mod U) in *.
  set (x := fmul fr (float_of_int 1000000)).
  assert (0 <= x <= 1000000 * U) as Hx.
  { subst x. rewrite float_1e6. split.
    - apply fmul_nonneg; lia.
    - rewrite <- (round53_id (1000000 * U)) at 2
        by (apply representable_int; reflexivity).
      rewrite fmul_eq.
      rewrite (round53_ext (1000000 * U) 1 (U * (1000000 * U)) U) by lia.
      apply round53_mono_num; [lia|]. nia. }
  assert (fr = 0 -> x = 0) as Hx0.
  { intros ->. subst x. rewrite fmul_eq, Z.mul_0_l.
    apply round53_0, HU. }
  assert (0 <= rne_div x U <= 1000000) as Hus.
  { split; [apply rne_div_ge_int | apply rne_div_le_int]; lia. }
  assert (x = 0 -> rne_div x U = 0) as Hus0.
  { intros ->. rewrite <- (Z.mul_0_l U). apply rne_div_exact, HU. }
  assert (q = b -> rne_div x U = 0) as Htop.
  { intros Hq. apply Hus0, Hx0. nia. }
  destruct (Z.leb_spec 1000000 (rne_div x U)) as [C|C].
  - cbn [dt_second dt_microsecond].
    assert (q <> b) by (intros Hq; specialize (Htop Hq); lia). lia.
  - destruct (Z.ltb_spec (rne_div x U) 0) as [N|N]; [lia|].
    cbn [dt_second dt_microsecond].
    split; [lia|]. split; [lia|]. intros Hq. apply Htop. lia.
Qed.

End WindowFacts.

(** ** Formatting *)

Section FormatFacts.

Lemma is_digit_not_minus c : is_digit c = true -> Ascii.eqb c "-" = false.
Proof.
  intros H. destruct (Ascii.eqb_spec c "-"%char) as [->|]; [|reflexivity].
  discriminate H.
Qed.

Lemma span_digits_app l rest :
  forallb is_digit l = true ->
  match rest with
  | String c _ => is_digit c = false
  | EmptyString => True
  end ->
  span_digits (string_of_list_ascii l ++ rest) = (l, rest).
Proof.
  intros Hl Hr. induction l as [|c l IH]; simpl in *.
  - destruct rest as [|c r]; [reflexivity|]. simpl. rewrite Hr. reflexivity.
  - apply andb_true_iff in Hl. destruct Hl as [Hc Hl].
    rewrite Hc, (IH Hl). reflexivity.
Qed.

Lemma span_digits_all l :
  forallb is_digit l = true ->
  span_digits (string_of_list_ascii l) = (l, EmptyString).
Proof.
  intros Hl. induction l as [|c l IH]; simpl in *; [reflexivity|].
  apply andb_true_iff in Hl. destruct Hl as [Hc Hl].
  rewrite Hc, (IH Hl). reflexivity.
Qed.

Lemma digits_acc_app acc l1 l2 :
  digits_acc acc (l1 ++ l2) = digits_acc (digits_acc acc l1) l2.
Proof. apply fold_left_app. Qed.

Lemma digits_acc_shift l acc :
  digits_acc acc l = acc * 10 ^ Z.of_nat (List.length l) + digits_acc 0 l.
Proof.
  revert acc. induction l as [|c l IH]; intros acc.
  - simpl. lia.
  - cbn [digits_acc fold_left List.length]. fold (digits_acc (10 * acc + digit_value c) l).
    fold (digits_acc (10 * 0 + digit_value c) l).
    rewrite (IH (10 * acc + digit_value c)), (IH (10 * 0 + digit_value c)).
    rewrite Nat2Z.inj_succ, Z.pow_succ_r by lia. lia.
Qed.

Lemma string_of_uint_digits u :
  forallb is_digit (list_ascii_of_string (NilEmpty.string_of_uint u)) = true.
Proof. induction u; simpl; auto. Qed.

Lemma string_of_uint_value u acc :
  digits_acc acc (list_ascii_of_string (NilEmpty.string_of_uint u))
  = uint_value acc u.
Proof.
  revert acc. induction u; intros acc; simpl; try reflexivity; apply IHu.
Qed.

Lemma uint_value_pos u acc :
  uint_value (Z.pos acc) u = Z.pos (Pos.of_uint_acc u acc).
Proof.
  revert acc.
  induction u; intros acc; cbn [uint_value Pos.of_uint_acc];
    try reflexivity; rewrite <- IHu; f_equal; lia.
Qed.

Lemma uint_value_0 u : uint_value 0 u = Z.of_N (Pos.of_uint u).
Proof.
  induction u; cbn [uint_value Pos.of_uint]; try reflexivity;
    try assumption; apply (uint_value_pos u).
Qed.

(** [str(z)] for [0 <= z]: a digit, more digits, and the value is [z]. *)
Lemma str_of_int_nonneg z :
  0 <= z ->
  exists c l,
    str_of_int z = string_of_list_ascii (c :: l)
    /\ forallb is_digit (c :: l) = true
    /\ Z_of_digits (c :: l) = z.
Proof.
  intros Hz. destruct z as [|p|p]; [| |lia].
  - exists "0"%char, []. repeat split.
  - unfold str_of_int. cbn [Z.to_int NilZero.string_of_int].
    pose proof (Unsigned.to_uint_nonnil p) as NN.
    pose proof (Unsigned.of_to p) as OT.
    pose proof (string_of_uint_digits (Pos.to_uint p)) as D.
    pose proof (string_of_uint_value (Pos.to_uint p) 0) as V.
    rewrite uint_value_0, OT in V.
    assert (NilZero.string_of_uint (Pos.to_uint p)
            = NilEmpty.string_of_uint (Pos.to_uint p)) as ->.
    { unfold NilZero.string_of_uint.
      destruct (Pos.to_uint p); [congruence | reflexivity..]. }
    rewrite <- (string_of_list_ascii_of_string
                  (NilEmpty.string_of_uint (Pos.to_uint p))).
    destruct (list_ascii_of_string (NilEmpty.string_of_uint (Pos.to_uint p)))
      as [|c l] eqn:E.
    + exfalso. revert E NN. clear.
      destruct (Pos.to_uint p); simpl; congruence.
    + exists c, l. repeat split; assumption.
Qed.

Lemma digit_char_spec v :
  is_digit (digit_char v) = true /\ digit_value (digit_char v) = v mod 10.
Proof.
  unfold digit_char.
  pose proof (Z.mod_pos_bound v 10 ltac:(lia)) as B.
  assert (v mod 10 = 0 \/ v mod 10 = 1 \/ v mod 10 = 2 \/ v mod 10 = 3
          \/ v mod 10 = 4 \/ v mod 10 = 5 \/ v mod 10 = 6 \/ v mod 10 = 7
          \/ v mod 10 = 8 \/ v mod 10 = 9) as C by lia.
  repeat (destruct C as [C|C]; [rewrite C; split; reflexivity|]).
  rewrite C. split; reflexivity.
Qed.

Lemma frac_digits_length d v : List.length (frac_digits d v) = d.
Proof.
  revert v. induction d as [|d IH]; intros v; simpl; [reflexivity|].
  rewrite length_app, IH. simpl. lia.
Qed.

Lemma frac_digits_digits d v : forallb is_digit (frac_digits d v) = true.
Proof.
  revert v. induction d as [|d IH]; intros v; simpl; [reflexivity|].
  rewrite forallb_app, IH. simpl.
  rewrite (proj1 (digit_char_spec v)). reflexivity.
Qed.

Lemma frac_digits_value d v :
  digits_acc 0 (frac_digits d v) = v mod 10 ^ Z.of_nat d.
Proof.
  revert v. induction d as [|d IH]; intros v.
  - simpl. rewrite Z.mod_1_r. reflexivity.
  - cbn [frac_digits]. rewrite digits_acc_app, IH.
    cbn [digits_acc fold_left]. rewrite (proj2 (digit_char_spec v)).
    rewrite Nat2Z.inj_succ, Z.pow_succ_r by lia.
    assert (0 < 10 ^ Z.of_nat d) by (apply Z.pow_pos_nonneg; lia).
    rewrite (Z.rem_mul_r v 10 (10 ^ Z.of_nat d)) by lia. lia.
Qed.

Lemma quantize_eq x d : quantize x d = rne_div (x * 10 ^ Z.of_nat d) U.
Proof. unfold quantize. apply rne_shr_spec. lia. Qed.

Lemma quantize_nonneg x d : 0 <= x -> 0 <= quantize x d.
Proof.
  intros Hx. rewrite quantize_eq. apply rne_div_ge_int; [apply U_pos|].
  assert (0 < 10 ^ Z.of_nat d) by (apply Z.pow_pos_nonneg; lia). nia.
Qed.

(** [quantize] picks a nearest multiple of [10^-d]. *)
Lemma quantize_nearest x d :
  2 * Z.abs (quantize x d * U - x * 10 ^ Z.of_nat d) <= U.
Proof. rewrite quantize_eq. apply rne_div_nearest, U_pos. Qed.

Lemma quantize_mono x y d : x <= y -> quantize x d <= quantize y d.
Proof.
  intros H. rewrite !quantize_eq. pose proof U_pos.
  assert (0 < 10 ^ Z.of_nat d) by (apply Z.pow_pos_nonneg; lia).
  apply rne_div_mono_num; nia.
Qed.

(** The numeral [format_f x d] denotes the multiple of [10^-d] nearest to
    [x], and has [d] digits after the point. *)
Lemma unsigned_value_fixed c l d v :
  forallb is_digit (c :: l) = true ->
  unsigned_value
    (string_of_list_ascii (c :: l)
     ++ match d with
        | O => ""
        | _ => String "." (string_of_list_ascii (frac_digits d v))
        end)
  = Some (Z_of_digits (c :: l) * 10 ^ Z.of_nat d + v mod 10 ^ Z.of_nat d, d).
Proof.
  intros D. unfold unsigned_value. destruct d as [|d].
  - rewrite span_digits_app by (exact D || exact I).
    change (10 ^ Z.of_nat 0) with 1. rewrite Z.mod_1_r. do 2 f_equal. lia.
  - rewrite span_digits_app by (exact D || reflexivity).
    rewrite span_digits_all by apply frac_digits_digits.
    pose proof (frac_digits_length (S d) v) as Len.
    pose proof (frac_digits_value (S d) v) as Val.
    destruct (frac_digits (S d) v) as [|f fp] eqn:E; [discriminate Len|].
    rewrite Len. do 2 f_equal.
    unfold Z_of_digits.
    rewrite digits_acc_app, digits_acc_shift, Len, Val. reflexivity.
Qed.

(** The numeral [format_f x d] denotes the multiple of [10^-d] nearest to
    [x], and has [d] digits after the point. *)
Lemma format_f_value x d :
  decimal_value (format_f x d)
  = Some (if x <? 0 then - quantize (- x) d else quantize x d, d).
Proof.
  unfold format_f.
  pose proof (quantize_nonneg (Z.abs x) d ltac:(lia)) as M0.
  set (m := quantize (Z.abs x) d) in *.
  assert (0 < 10 ^ Z.of_nat d) as P0 by (apply Z.pow_pos_nonneg; lia).
  set (p := 10 ^ Z.of_nat d) in *.
  destruct (str_of_int_nonneg (m / p) ltac:(apply Z.div_pos; lia))
    as (c & l & -> & D & V).
  assert (Ascii.eqb c "-" = false) as NM.
  { apply is_digit_not_minus. simpl in D.
    apply andb_true_iff in D. apply D. }
  pose proof (unsigned_value_fixed c l d (m mod p) D) as UV.
  fold p in UV. rewrite Z.mod_mod, V in UV by lia.
  replace (m / p * p + m mod p) with m in UV
    by (pose proof (Z.div_mod m p ltac:(lia)); lia).
  destruct (Z.ltb_spec x 0) as [N|P].
  - change ("-" ++ ?s)%string with (String "-" s).
    cbn [decimal_value]. change (Ascii.eqb "-" "-") with true.
    cbv iota. rewrite UV. subst m. rewrite Z.abs_neq by lia. reflexivity.
  - change ("" ++ ?s)%string with s.
    change (string_of_list_ascii (c :: l) ++ ?s)%string
      with (String c (string_of_list_ascii l ++ s)) in *.
    cbn [decimal_value]. rewrite NM, UV.
    subst m. rewrite Z.abs_eq by lia. reflexivity.
Qed.

Lemma format_f_has_decimals x d : has_decimals d (format_f x d) = true.
Proof.
  unfold has_decimals. rewrite format_f_value. apply Nat.eqb_refl.
Qed.

(** The specification [f"0.{decimals}f"] for three to eight decimals. *)
Lemma decimal_formatter_parse d :
  3 <= d <= 8 ->
  parse_spec ("0." ++ str_of_int d ++ "f") = Some (Z.to_nat d).
Proof.
  intros H.
  assert (d = 3 \/ d = 4 \/ d = 5 \/ d = 6 \/ d = 7 \/ d = 8) as C by lia.
  repeat (destruct C as [C|C]; [subst d; reflexivity|]).
  subst d; reflexivity.
Qed.

Lemma format_decimal_formatter x d r :
  3 <= d <= 8 ->
  format x ("0." ++ str_of_int d ++ "f") = Some r ->
  r = format_f x (Z.to_nat d).
Proof.
  intros H. unfold format. rewrite decimal_formatter_parse by assumption.
  congruence.
Qed.

End FormatFacts.

(* ================================================================== *)
(** * The scripts *)
(* ================================================================== *)

Section ClosedOrderFacts.

Lemma START_valid : valid_datetime START.
Proof. unfold valid_datetime. vm_compute. intuition discriminate. Qed.

Lemma END_valid : valid_datetime END.
Proof. unfold valid_datetime. vm_compute. intuition discriminate. Qed.

Lemma START_le_END : dt_le START END = true.
Proof. reflexivity. Qed.

Lemma VOLUME_MIN_pos : 0 < VOLUME_MIN.
Proof. vm_compute. reflexivity. Qed.

Lemma PRICE_MIN_pos : 0 < PRICE_MIN.
Proof. vm_compute. reflexivity. Qed.

Lemma VOLUME_range : VOLUME_MIN <= float_of_int VOLUME_MAX.
Proof. vm_compute. discriminate. Qed.

Lemma PRICE_range : PRICE_MIN <= float_of_int PRICE_MAX.
Proof. vm_compute. discriminate. Qed.

Lemma VOLUME_MIN_representable : representable VOLUME_MIN.
Proof. apply literal_representable. lia. Qed.

Lemma PRICE_MIN_representable : representable PRICE_MIN.
Proof. apply literal_representable. lia. Qed.

(** A run of [gen_random_closed_order] is its seven draws followed by
    the construction of the record. *)
Lemma gen_random_closed_order_inv tz s rec s' :
  gen_random_closed_order tz s = Some (rec, s') ->
  exists open close price volume executed_volume decimals status,
    closed_order_draws tz s s' open close price volume executed_volume
      decimals status
    /\ rec = closed_order_record open close price volume executed_volume
               decimals status.
Proof.
  unfold gen_random_closed_order. intros H.
  inv_bind H. rename a into open, s0 into s1, D into Dopen.
  inv_bind H. rename a into close, s0 into s2, D into Dclose.
  inv_bind H. rename a into price, s0 into s3, D into Dprice.
  inv_bind H. rename a into volume, s0 into s4, D into Dvolume.
  inv_bind H. rename a into executed, s0 into s5, D into Dexec.
  cbv zeta in H.
  inv_bind H. rename a into decimals, s0 into s6, D into Ddec.
  inv_bind H. rename a into status, s0 into s7, D into Dstatus.
  pose proof (randint_inv _ _ _ _ _ Ddec) as Hd.
  inv_bind H. apply lift_inv in D. destruct D as [Fvol ->].
  inv_bind H. apply lift_inv in D. destruct D as [Fexec ->].
  inv_bind H. apply lift_inv in D. destruct D as [Fcost ->].
  inv_bind H. apply lift_inv in D. destruct D as [Ffee ->].
  inv_bind H. apply lift_inv in D. destruct D as [Fprice ->].
  apply ret_inv in H. destruct H as [-> ->].
  apply (format_decimal_formatter _ _ _ Hd) in Fvol, Fexec, Fcost, Ffee,
    Fprice.
  subst.
  exists open, close, price, volume, executed, decimals, status.
  split; [|reflexivity].
  exists s1, s2, s3, s4, s5, s6. repeat split; assumption.
Qed.

(** What the draws of a run are known to satisfy. *)
Lemma closed_order_draws_facts tz s s' open close price volume
    executed_volume decimals status :
  closed_order_draws tz s s' open close price volume executed_volume
    decimals status ->
  PRICE_MIN <= price <= float_of_int PRICE_MAX
  /\ VOLUME_MIN <= volume <= float_of_int VOLUME_MAX
  /\ VOLUME_MIN <= executed_volume <= volume
  /\ 3 <= decimals <= 8
  /\ In status OVER_ORDER_STATUSES.
Proof.
  intros (s1 & s2 & s3 & s4 & s5 & s6 & _ & _ & Hp & Hv & He & Hd & Hs).
  apply (uniform_inv _ _ _ _ _ PRICE_MIN_representable
           (float_of_int_representable _) PRICE_range) in Hp.
  apply (uniform_inv _ _ _ _ _ VOLUME_MIN_representable
           (float_of_int_representable _) VOLUME_range) in Hv.
  destruct Hp as (Hp & _). destruct Hv as (Hv & Rv & _).
  apply (uniform_inv _ _ _ _ _ VOLUME_MIN_representable Rv (proj1 Hv)) in He.
  destruct He as (He & _).
  apply randint_inv in Hd. apply choice_In in Hs.
  repeat split; try lia; assumption.
Qed.

End ClosedOrderFacts.

Section IdentifierFacts.

Lemma choices_inv {A} (population : list A) k s xs s' :
  choices population k s = Some (xs, s') ->
  List.length xs = k /\ Forall (fun x => In x population) xs.
Proof.
  revert s xs s'. induction k as [|k IH]; intros s xs s' H.
  - apply ret_inv in H. destruct H as [-> _]. split; constructor.
  - cbn [choices] in H.
    inv_bind H. inv_bind H. inv_bind H.
    apply ret_inv in H. destruct H as [-> _].
    apply lift_inv in D0. destruct D0 as [Hx _].
    apply IH in D1. destruct D1 as [L F]. split.
    + simpl. rewrite L. reflexivity.
    + constructor; [eapply getitem_In, Hx | exact F].
Qed.

(** [floor(random() * n)] is an index below [n] as soon as the largest
    draw is: the product is monotone in the draw. *)
Lemma scaled_draw_index k n :
  0 <= k < 2 ^ 53 -> 0 < n < 2 ^ 53 ->
  fmul ((2 ^ 53 - 1) * 2 ^ 1021) (float_of_int n) < n * U ->
  0 <= floor (fmul (k * 2 ^ 1021) (float_of_int n)) < n.
Proof.
  intros Hk Hn Hmax. rewrite floor_eq. pose proof U_pos as HU.
  rewrite float_of_int_exact in * by lia.
  assert (0 < 2 ^ 1021) as V by reflexivity.
  set (v := 2 ^ 1021) in *. split.
  - apply Z.div_pos; [|lia]. apply fmul_nonneg; nia.
  - apply Z.div_lt_upper_bound; [lia|].
    eapply Z.le_lt_trans; [|rewrite Z.mul_comm; exact Hmax].
    apply fmul_mono.
    assert (k * v <= (2 ^ 53 - 1) * v) by nia. nia.
Qed.

Lemma getitem_in_range {A} (seq : list A) i :
  0 <= i < Z.of_nat (List.length seq) -> exists x, getitem seq i = Some x.
Proof.
  intros H. unfold getitem.
  destruct (Z.leb_spec 0 i); [|lia].
  destruct (Z.ltb_spec i (Z.of_nat (List.length seq))); [|lia].
  cbn [andb].
  destruct (nth_error seq (Z.to_nat i)) as [x|] eqn:E.
  - exists x. reflexivity.
  - apply nth_error_None in E. lia.
Qed.

(** [choices] returns when the tape holds two words per symbol. *)
Lemma choices_total {A} (population : list A) k s :
  0 < Z.of_nat (List.length population) < 2 ^ 53 ->
  fmul ((2 ^ 53 - 1) * 2 ^ 1021)
       (float_of_int (Z.of_nat (List.length population)))
  < Z.of_nat (List.length population) * U ->
  (2 * k <= List.length s)%nat ->
  exists xs, choices population k s = Some (xs, skipn (2 * k) s).
Proof.
  intros Hn Hmax. revert s. induction k as [|k IH]; intros s Hs.
  - exists []. reflexivity.
  - destruct s as [|w1 [|w2 s]]; try (simpl in Hs; lia).
    cbn [choices]. unfold bind at 1.
    destruct (random_total w1 w2 s) as [r Hr]. rewrite Hr.
    apply random_inv in Hr. destruct Hr as (_ & _ & j & _ & Hj & ->).
    destruct (getitem_in_range population _
                (scaled_draw_index j _ Hj Hn Hmax)) as [x Hx].
    unfold bind at 1. rewrite Hx. cbn [lift ret].
    destruct (IH s ltac:(simpl in Hs; lia)) as [xs Hxs].
    unfold bind at 1. rewrite Hxs.
    exists (x :: xs). unfold ret.
    replace (2 * S k)%nat with (S (S (2 * k))) by lia. reflexivity.
Qed.

End IdentifierFacts.

Section OrderIdFacts.

Lemma upper_alnum_alphabet c :
  In c (list_ascii_of_string UPPER_ALPHA_NUMERIC) -> is_upper_alnum c = true.
Proof.
  assert (forallb is_upper_alnum (list_ascii_of_string UPPER_ALPHA_NUMERIC)
          = true) as H by reflexivity.
  rewrite forallb_forall in H. apply H.
Qed.

Lemma gen_segment_inv n s str s' :
  gen_segment n s = Some (str, s') ->
  exists cs,
    str = string_of_list_ascii cs
    /\ List.length cs = Z.to_nat n
    /\ forallb is_upper_alnum cs = true.
Proof.
  unfold gen_segment. intros H. inv_bind H.
  apply ret_inv in H. destruct H as [-> _].
  apply choices_inv in D. destruct D as [L F].
  exists a. repeat split; [assumption|].
  apply forallb_forall. rewrite Forall_forall in F.
  intros c Hc. apply upper_alnum_alphabet, F, Hc.
Qed.

Lemma gen_segment_total n s :
  (2 * Z.to_nat n <= List.length s)%nat ->
  exists str, gen_segment n s = Some (str, skipn (2 * Z.to_nat n) s).
Proof.
  intros Hs. unfold gen_segment, bind.
  destruct (choices_total (list_ascii_of_string UPPER_ALPHA_NUMERIC)
              (Z.to_nat n) s) as [xs ->].
  - split; reflexivity.
  - vm_compute. reflexivity.
  - exact Hs.
  - eexists. reflexivity.
Qed.

Lemma gen_order_id_total s :
  (34 <= List.length s)%nat ->
  exists id, gen_order_id s = Some (id, skipn 34 s).
Proof.
  intros Hs. unfold gen_order_id.
  destruct (gen_segment_total 6 s) as [a Ha].
  { change (Z.to_nat 6) with 6%nat. lia. }
  change (2 * Z.to_nat 6)%nat with 12%nat in Ha.
  destruct (gen_segment_total 5 (skipn 12 s)) as [b Hb].
  { change (Z.to_nat 5) with 5%nat. rewrite length_skipn. lia. }
  change (2 * Z.to_nat 5)%nat with 10%nat in Hb.
  rewrite skipn_skipn in Hb.
  destruct (gen_segment_total 6 (skipn (10 + 12) s)) as [c Hc].
  { change (Z.to_nat 6) with 6%nat. rewrite length_skipn. lia. }
  change (2 * Z.to_nat 6)%nat with 12%nat in Hc.
  rewrite skipn_skipn in Hc.
  unfold bind. rewrite Ha, Hb, Hc. eexists. reflexivity.
Qed.

End OrderIdFacts.

(** Evaluates the run of a generator on a concrete tape, the first part of
    the goal, and keeps the equation as [E]. *)
Ltac run_sample E :=
  match goal with
  | |- ?A /\ _ => assert (E : A) by (vm_compute; reflexivity)
  end.

(** ** Interpolation between two doubles in descending order *)

Section Reversed.

Lemma fsub_opp x y : fsub (- x) (- y) = - fsub x y.
Proof.
  rewrite !fsub_eq. rewrite <- round53_opp by lia. f_equal. lia.
Qed.

Lemma fmul_opp_r x y : fmul x (- y) = - fmul x y.
Proof.
  rewrite !fmul_eq. rewrite <- round53_opp by apply U_pos. f_equal. lia.
Qed.

Lemma fadd_opp x y : fadd (- x) (- y) = - fadd x y.
Proof.
  rewrite !fadd_eq. rewrite <- round53_opp by lia. f_equal. lia.
Qed.

(** The interpolation of [gen_random_timestamp] and of [uniform] between
    two doubles given in descending order stays between them. *)
Lemma lerp_bounds_reversed s e k :
  representable s -> representable e -> e <= s -> 0 <= k < 2 ^ 53 ->
  e <= fadd s (fmul (k * 2 ^ 1021) (fsub e s)) <= s.
Proof.
  intros Rs Re Hle Hk.
  pose proof (lerp_bounds (- s) (- e) k (representable_opp _ Rs)
                (representable_opp _ Re) ltac:(lia) Hk) as H.
  rewrite fsub_opp, fmul_opp_r, fadd_opp in H. lia.
Qed.

End Reversed.

(** ** Generators read the tape from its front *)

Section Prefix.

Lemma ret_prefix {A} (a : A) : reads_a_prefix (ret a).
Proof. intros s x s' t H. inversion H; subst. reflexivity. Qed.

Lemma raise_prefix {A} : reads_a_prefix (@raise A).
Proof. intros s x s' t H. discriminate H. Qed.

Lemma lift_prefix {A} (o : option A) : reads_a_prefix (lift o).
Proof. destruct o; [apply ret_prefix | apply raise_prefix]. Qed.

Lemma bind_prefix {A B} (m : M A) (f : A -> M B) :
  reads_a_prefix m -> (forall a, reads_a_prefix (f a)) ->
  reads_a_prefix (bind m f).
Proof.
  intros Hm Hf s x s' t H.
  apply bind_inv in H. destruct H as (a & s1 & Ha & H).
  unfold bind. rewrite (Hm _ _ _ t Ha). apply Hf, H.
Qed.

Lemma genrand_uint32_prefix : reads_a_prefix genrand_uint32.
Proof.
  intros [|w s] x s' t H; [discriminate H|].
  inversion H; subst. reflexivity.
Qed.

Lemma _randbelow_prefix n : reads_a_prefix (_randbelow n).
Proof.
  intros s. induction s as [|w s IH]; intros x s' t H; [discriminate H|].
  cbn [_randbelow app] in *.
  destruct (Z.shiftr (w mod 2 ^ 32) (32 - bit_length n) <? n).
  - inversion H; subst. reflexivity.
  - apply IH, H.
Qed.

Lemma random_prefix : reads_a_prefix random.
Proof.
  unfold random.
  do 2 (apply bind_prefix; [apply genrand_uint32_prefix | intros]).
  apply ret_prefix.
Qed.

Lemma uniform_prefix a b : reads_a_prefix (uniform a b).
Proof.
  unfold uniform. apply bind_prefix; [apply random_prefix | intros].
  apply ret_prefix.
Qed.

Lemma randint_prefix a b : reads_a_prefix (randint a b).
Proof.
  unfold randint. destruct (0 <? b + 1 - a); [|apply raise_prefix].
  apply bind_prefix; [apply _randbelow_prefix | intros]. apply ret_prefix.
Qed.

Lemma choice_prefix {A} (seq : list A) : reads_a_prefix (choice seq).
Proof.
  unfold choice. destruct seq; [apply raise_prefix|].
  apply bind_prefix; [apply _randbelow_prefix | intros]. apply lift_prefix.
Qed.

Lemma choices_prefix {A} (population : list A) k :
  reads_a_prefix (choices population k).
Proof.
  induction k as [|k IH]; cbn [choices]; [apply ret_prefix|].
  apply bind_prefix; [apply random_prefix | intros].
  apply bind_prefix; [apply lift_prefix | intros].
  apply bind_prefix; [apply IH | intros]. apply ret_prefix.
Qed.

Lemma gen_random_timestamp_prefix tz start end_ :
  reads_a_prefix (gen_random_timestamp tz start end_).
Proof.
  unfold gen_random_timestamp. cbv zeta.
  apply bind_prefix; [apply random_prefix | intros]. apply ret_prefix.
Qed.

Lemma gen_segment_prefix n : reads_a_prefix (gen_segment n).
Proof.
  unfold gen_segment. apply bind_prefix; [apply choices_prefix | intros].
  apply ret_prefix.
Qed.

Lemma gen_order_id_prefix : reads_a_prefix gen_order_id.
Proof.
  unfold gen_order_id.
  do 3 (apply bind_prefix; [apply gen_segment_prefix | intros]).
  apply ret_prefix.
Qed.

Lemma gen_random_kraken_identifiers_prefix n :
  reads_a_prefix (gen_random_kraken_identifiers n).
Proof.
  induction n as [|n IH]; cbn [gen_random_kraken_identifiers];
    [apply ret_prefix|].
  apply bind_prefix; [apply gen_order_id_prefix | intros].
  apply bind_prefix; [apply IH | intros]. apply ret_prefix.
Qed.

Lemma transfer_gen_segment_prefix n :
  reads_a_prefix (transfer_ids.gen_segment n).
Proof.
  unfold transfer_ids.gen_segment.
  apply bind_prefix; [apply choices_prefix | intros]. apply ret_prefix.
Qed.

Lemma gen_random_kraken_transfer_identifiers_prefix n :
  reads_a_prefix (transfer_ids.gen_random_kraken_transfer_identifiers n).
Proof.
  induction n as [|n IH];
    cbn [transfer_ids.gen_random_kraken_transfer_identifiers];
    [apply ret_prefix|].
  do 2 (apply bind_prefix; [apply transfer_gen_segment_prefix | intros]).
  apply bind_prefix; [apply IH | intros]. apply ret_prefix.
Qed.

Lemma gen_random_closed_order_prefix tz :
  reads_a_prefix (gen_random_closed_order tz).
Proof.
  unfold gen_random_closed_order.
  do 2 (apply bind_prefix; [apply gen_random_timestamp_prefix | intros]).
  do 3 (apply bind_prefix; [apply uniform_prefix | intros]).
  cbv zeta.
  apply bind_prefix; [apply randint_prefix | intros].
  apply bind_prefix; [apply choice_prefix | intros].
  do 5 (apply bind_prefix; [apply lift_prefix | intros]).
  apply ret_prefix.
Qed.

End Prefix.

(* ================================================================== *)
(** * Seeding the random source *)
(* ================================================================== *)

Section Seeding.

Import MersenneTwister.










End Seeding.

(** The model of the twister against CPython: the words after
    [random.seed(a)]. *)
Lemma twister_agrees_with_CPython :
  forallb (fun b => b) twister_cross_checks = true.
Proof. vm_compute. reflexivity. Qed.

(* ================================================================== *)
(** * Timestamps in a zone with rules *)
(* ================================================================== *)

Section Zoned.

Lemma MIN_second_eq : zoned.MIN_second = -62135596800.
Proof. reflexivity. Qed.

Lemma MAX_second_eq : zoned.MAX_second = 253402300799.
Proof. reflexivity. Qed.

Lemma local_inv z u t :
  zoned.local z u = Some t ->
  t = u + z u /\ -62135596800 <= t <= 253402300799.
Proof.
  unfold zoned.local. cbv zeta. rewrite MIN_second_eq, MAX_second_eq.
  destruct (Z.leb_spec (-62135596800) (u + z u)) as [L1|L1];
    destruct (Z.leb_spec (u + z u) 253402300799) as [L2|L2]; cbn [andb];
    intros E; inversion E. lia.
Qed.

Lemma local_intro z u :
  -62135596800 <= u + z u <= 253402300799 ->
  zoned.local z u = Some (u + z u).
Proof.
  intros H. unfold zoned.local. cbv zeta.
  rewrite MIN_second_eq, MAX_second_eq.
  destruct (Z.leb_spec (-62135596800) (u + z u)); [|lia].
  destruct (Z.leb_spec (u + z u) 253402300799); [|lia]. reflexivity.
Qed.

(** In a zone of fixed offset [_mktime] is the naive reading less the
    offset, when it returns; it raises for a datetime of the first day of
    year 1, or one whose instant reads outside the years 1 to 9999. *)
Lemma _mktime_fixed_inv z tz d s :
  (forall u, z u = tz) ->
  zoned._mktime z d = Some s ->
  s = dt_second d - tz
  /\ -62135596800 <= dt_second d + tz <= 253402300799
  /\ -62135596800 + 86400 <= dt_second d <= 253402300799.
Proof.
  intros Hz. unfold zoned._mktime. cbv zeta.
  destruct (zoned.local z (dt_second d)) as [lt|] eqn:E1; [|discriminate].
  apply local_inv in E1. rewrite Hz in E1. destruct E1 as [-> R1].
  replace (dt_second d + tz - dt_second d) with tz by lia.
  destruct (zoned.local z (dt_second d - tz)) as [t1|] eqn:E2;
    [|discriminate].
  apply local_inv in E2. rewrite Hz in E2. destruct E2 as [-> R2].
  replace (dt_second d - tz + tz) with (dt_second d) in * by lia.
  rewrite Z.eqb_refl.
  destruct (zoned.local z (dt_second d - tz - 24 * 3600)) as [lt2|] eqn:E3;
    [|discriminate].
  apply local_inv in E3. rewrite Hz in E3. destruct E3 as [-> R3].
  replace (dt_second d - tz - 24 * 3600 + tz
           - (dt_second d - tz - 24 * 3600)) with tz by lia.
  rewrite Z.eqb_refl. intros H. inversion H. lia.
Qed.

Lemma _mktime_fixed_intro z tz d :
  (forall u, z u = tz) ->
  -62135596800 <= dt_second d + tz <= 253402300799 ->
  -62135596800 + 86400 <= dt_second d <= 253402300799 ->
  zoned._mktime z d = Some (dt_second d - tz).
Proof.
  intros Hz R1 R2. unfold zoned._mktime. cbv zeta.
  rewrite (local_intro z (dt_second d)) by (rewrite Hz; lia).
  rewrite Hz.
  replace (dt_second d + tz - dt_second d) with tz by lia.
  rewrite (local_intro z (dt_second d - tz)) by (rewrite Hz; lia).
  rewrite Hz.
  replace (dt_second d - tz + tz) with (dt_second d) by lia.
  rewrite Z.eqb_refl.
  rewrite (local_intro z (dt_second d - tz - 24 * 3600))
    by (rewrite Hz; lia).
  rewrite Hz.
  replace (dt_second d - tz - 24 * 3600 + tz
           - (dt_second d - tz - 24 * 3600)) with tz by lia.
  rewrite Z.eqb_refl. reflexivity.
Qed.

(** When it is defined, the timestamp in a zone of fixed offset is the
    one of [Datetime.timestamp]. *)
Lemma timestamp_fixed_inv z tz d ts :
  (forall u, z u = tz) ->
  zoned.timestamp z d = Some ts ->
  ts = timestamp tz d
  /\ -62135596800 <= dt_second d + tz <= 253402300799
  /\ -62135596800 + 86400 <= dt_second d <= 253402300799.
Proof.
  intros Hz. unfold zoned.timestamp.
  destruct (zoned._mktime z d) as [s|] eqn:E; [|discriminate].
  apply (_mktime_fixed_inv z tz d s Hz) in E. destruct E as (-> & R).
  unfold timestamp. intros H. split; [congruence | exact R].
Qed.

Lemma timestamp_fixed_intro z tz d :
  (forall u, z u = tz) ->
  -62135596800 <= dt_second d + tz <= 253402300799 ->
  -62135596800 + 86400 <= dt_second d <= 253402300799 ->
  zoned.timestamp z d = Some (timestamp tz d).
Proof.
  intros Hz R1 R2. unfold zoned.timestamp.
  rewrite (_mktime_fixed_intro z tz d Hz R1 R2). unfold timestamp.
  reflexivity.
Qed.

Lemma zoned_timestamp_representable z d ts :
  zoned.timestamp z d = Some ts -> representable ts.
Proof.
  unfold zoned.timestamp. destruct (zoned._mktime z d); [|discriminate].
  intros H. inversion H. apply fadd_representable.
Qed.

(** A call of the generator that returns has computed both timestamps
    and one draw. *)
Lemma zoned_gen_random_timestamp_inv z start end_ s v s' :
  zoned.gen_random_timestamp z start end_ s = Some (v, s') ->
  exists ts te w1 w2 k,
    zoned.timestamp z start = Some ts /\ zoned.timestamp z end_ = Some te
    /\ s = w1 :: w2 :: s' /\ 0 <= k < 2 ^ 53
    /\ v = fadd ts (fmul (k * 2 ^ 1021) (fsub te ts)).
Proof.
  unfold zoned.gen_random_timestamp. intros H.
  apply bind_inv in H. destruct H as (te & s1 & He & H).
  apply lift_inv in He. destruct He as [He ->].
  apply bind_inv in H. destruct H as (ts & s2 & Hs & H).
  apply lift_inv in Hs. destruct Hs as [Hs ->].
  cbv zeta in H.
  apply bind_inv in H. destruct H as (r & s3 & Hr & H).
  apply random_inv in Hr. destruct Hr as (w1 & w2 & k & -> & Hk & ->).
  apply bind_inv in H. destruct H as (ts' & s4 & Hs' & H).
  apply lift_inv in Hs'. destruct Hs' as [Hs' ->].
  apply ret_inv in H. destruct H as [-> ->].
  rewrite Hs in Hs'. inversion Hs'. subst ts'.
  exists ts, te, w1, w2, k. repeat split; try assumption; lia.
Qed.

(** It returns as soon as both timestamps are defined and the source has
    two words. *)
Lemma zoned_gen_random_timestamp_total z start end_ ts te w1 w2 s :
  zoned.timestamp z start = Some ts -> zoned.timestamp z end_ = Some te ->
  exists v, zoned.gen_random_timestamp z start end_ (w1 :: w2 :: s)
            = Some (v, s).
Proof.
  intros Hs He. unfold zoned.gen_random_timestamp, bind.
  rewrite He, Hs. cbn [lift ret]. cbv zeta.
  destruct (random_total w1 w2 s) as [r ->]. eexists. reflexivity.
Qed.

(** The value lies between the two timestamps, whichever is the
    smaller. *)
Lemma zoned_gen_random_timestamp_between z start end_ s v s' ts te :
  zoned.gen_random_timestamp z start end_ s = Some (v, s') ->
  zoned.timestamp z start = Some ts -> zoned.timestamp z end_ = Some te ->
  Z.min ts te <= v <= Z.max ts te.
Proof.
  intros H Hs He. apply zoned_gen_random_timestamp_inv in H.
  destruct H as (ts' & te' & w1 & w2 & k & Hs' & He' & _ & Hk & ->).
  rewrite Hs in Hs'. rewrite He in He'. inversion Hs'. inversion He'.
  subst ts' te'.
  pose proof (zoned_timestamp_representable _ _ _ Hs) as Rs.
  pose proof (zoned_timestamp_representable _ _ _ He) as Re.
  destruct (Z_le_gt_dec ts te) as [L|G].
  - pose proof (lerp_bounds ts te k Rs Re L Hk). lia.
  - pose proof (lerp_bounds_reversed ts te k Rs Re ltac:(lia) Hk). lia.
Qed.

(** [timestamp] is monotone on datetimes whose second count is a double
    (any datetime the constructor accepts, in any zone of an offset the
    platform can have). *)
Lemma timestamp_mono_wide tz a b :
  Z.abs (dt_second a - tz) < 2 ^ 53 -> Z.abs (dt_second b - tz) < 2 ^ 53 ->
  0 <= dt_microsecond a < 1000000 -> 0 <= dt_microsecond b < 1000000 ->
  dt_le a b = true ->
  timestamp tz a <= timestamp tz b.
Proof.
  intros Sa Sb Ma Mb H. unfold dt_le in H. unfold timestamp.
  rewrite (float_of_int_exact (dt_second a - tz)),
    (float_of_int_exact (dt_second b - tz)) by assumption.
  pose proof (microsecond_fraction _ Ma) as Fa.
  pose proof (microsecond_fraction _ Mb) as Fb.
  pose proof U_pos as HU.
  apply fadd_mono.
  apply orb_true_iff in H. destruct H as [H|H].
  - apply Z.ltb_lt in H.
    assert ((dt_second a - tz + 1) * U <= (dt_second b - tz) * U)
      by (apply Z.mul_le_mono_nonneg_r; lia).
    lia.
  - apply andb_true_iff in H. destruct H as [E L].
    apply Z.eqb_eq in E. apply Z.leb_le in L. rewrite E.
    pose proof (microsecond_fraction_mono _ _ (conj (proj1 Ma) L) (proj2 Mb)).
    lia.
Qed.

(** In a zone of fixed offset the timestamps of two datetimes are in the
    order of the datetimes. *)
Lemma zoned_timestamp_mono_fixed z tz a b ta tb :
  (forall u, z u = tz) ->
  valid_datetime a -> valid_datetime b -> dt_le a b = true ->
  zoned.timestamp z a = Some ta -> zoned.timestamp z b = Some tb ->
  ta <= tb.
Proof.
  intros Hz [_ Ma] [_ Mb] Hle Ha Hb.
  apply (timestamp_fixed_inv z tz a ta Hz) in Ha.
  apply (timestamp_fixed_inv z tz b tb Hz) in Hb.
  destruct Ha as (-> & A1 & A2). destruct Hb as (-> & B1 & B2).
  apply timestamp_mono_wide; try assumption; try lia.
Qed.

(** On datetimes whose timestamp is defined, in a zone of fixed offset,
    the generator is [timestamps.gen_random_timestamp]. *)
Lemma zoned_gen_random_timestamp_fixed z tz start end_ s :
  (forall u, z u = tz) ->
  -62135596800 <= dt_second start + tz <= 253402300799 ->
  -62135596800 + 86400 <= dt_second start <= 253402300799 ->
  -62135596800 <= dt_second end_ + tz <= 253402300799 ->
  -62135596800 + 86400 <= dt_second end_ <= 253402300799 ->
  zoned.gen_random_timestamp z start end_ s
  = gen_random_timestamp tz start end_ s.
Proof.
  intros Hz S1 S2 E1 E2.
  unfold zoned.gen_random_timestamp, gen_random_timestamp, bind.
  rewrite (timestamp_fixed_intro z tz start Hz S1 S2).
  rewrite (timestamp_fixed_intro z tz end_ Hz E1 E2).
  cbn [lift ret]. cbv zeta.
  destruct (random s) as [[r s1]|]; reflexivity.
Qed.

(** The three datetimes [gen_random_closed_order] takes a timestamp of,
    [START], [END] and [fromtimestamp(open)] for [open] in the window,
    have one: the call of [timestamp()] cannot raise there. *)
Lemma closed_order_timestamps_defined tz open :
  -86400 < tz < 86400 ->
  (1577836800 - tz) * U <= open <= (1704067200 - tz) * U ->
  zoned.timestamp (zoned.fixed_offset tz) START = Some (timestamp tz START)
  /\ zoned.timestamp (zoned.fixed_offset tz) END = Some (timestamp tz END)
  /\ zoned.timestamp (zoned.fixed_offset tz) (fromtimestamp tz open)
     = Some (timestamp tz (fromtimestamp tz open)).
Proof.
  intros Htz Ho.
  assert (dt_second START = 1577836800) as S0 by reflexivity.
  assert (dt_second END = 1704067200) as S1 by reflexivity.
  destruct (fromtimestamp_between tz (1577836800 - tz) (1704067200 - tz)
              open ltac:(lia) ltac:(lia) Ho) as (Bs & _ & _).
  split; [|split]; apply (timestamp_fixed_intro _ tz);
    try (intros u; reflexivity); lia.
Qed.

End Zoned.


(* ================================================================== *)
(** * Properties of the generators *)
(* ================================================================== *)

(** ** Timestamps *)

(** C1, as amended.  Every value [gen_random_timestamp(start, end)]
    returns lies between [start.timestamp()] and [end.timestamp()], bounds
    included, whichever of the two is the smaller; so it lies in the closed
    interval from [start.timestamp()] to [end.timestamp()] when these are
    in this order, which [start <= end] ensures in a zone of fixed
    offset. *)
Theorem gen_random_timestamp_closed_interval z start end_ s v s' :
  zoned.gen_random_timestamp z start end_ s = Some (v, s') ->
  exists ts te,
    zoned.timestamp z start = Some ts
    /\ zoned.timestamp z end_ = Some te
    /\ fle (Z.min ts te) v = true /\ fle v (Z.max ts te) = true
    /\ (fle ts te = true -> fle ts v = true /\ fle v te = true)
    /\ (forall tz,
          (forall u, z u = tz) ->
          valid_datetime start -> valid_datetime end_ ->
          dt_le start end_ = true ->
          fle ts v = true /\ fle v te = true).
Proof.
  intros H.
  destruct (zoned_gen_random_timestamp_inv _ _ _ _ _ _ H)
    as (ts & te & _ & _ & _ & Hs & He & _).
  pose proof (zoned_gen_random_timestamp_between _ _ _ _ _ _ _ _ H Hs He)
    as B.
  exists ts, te. unfold fle.
  split; [exact Hs|]. split; [exact He|].
  split; [apply Z.leb_le; lia|]. split; [apply Z.leb_le; lia|].
  split.
  - intros L. apply Z.leb_le in L. split; apply Z.leb_le; lia.
  - intros tz Hz Vs Ve Hle.
    pose proof (zoned_timestamp_mono_fixed z tz _ _ _ _ Hz Vs Ve Hle Hs He).
    split; apply Z.leb_le; lia.
Qed.

Lemma gen_random_timestamp_closed_interval_witness :
  exists v,
    zoned.gen_random_timestamp (zoned.fixed_offset 0) START END [96; 0]
    = Some (v, [])
    /\ exists ts te,
         zoned.timestamp (zoned.fixed_offset 0) START = Some ts
         /\ zoned.timestamp (zoned.fixed_offset 0) END = Some te
         /\ fle ts v = true /\ fle v te = true.
Proof.
  eexists. run_sample E. split; [exact E|].
  destruct (gen_random_timestamp_closed_interval
              (zoned.fixed_offset 0) START END [96; 0] _ [] E)
    as (ts & te & Hs & He & _ & _ & _ & F).
  exists ts, te. split; [exact Hs|]. split; [exact He|].
  apply (F 0).
  - intros u. reflexivity.
  - unfold valid_datetime. vm_compute. intuition discriminate.
  - unfold valid_datetime. vm_compute. intuition discriminate.
  - reflexivity.
Defined.

(** C1, as stated, fails in two ways.  The upper bound is attained: with
    the largest draw of [random()], [gen_random_timestamp(START, END)] is
    exactly [END.timestamp()], because the sum rounds up to it, and for
    [start = end] the result is [end.timestamp()] whatever the draw.  And
    [start <= end] does not order the timestamps in a zone that changes
    its clocks: in America/New_York, [datetime(2020, 3, 8, 2, 30)], a
    reading the clocks skip, has a timestamp half an hour above that of
    [datetime(2020, 3, 8, 3, 0)], and the value returned is above
    [end.timestamp()]. *)
Lemma gen_random_timestamp_reaches_end :
  (dt_le START END = true
   /\ zoned.timestamp (zoned.fixed_offset 0) END = Some (timestamp 0 END)
   /\ zoned.gen_random_timestamp (zoned.fixed_offset 0) START END
        [4294967295; 4294967295]
      = Some (timestamp 0 END, [])
   /\ flt (timestamp 0 END) (timestamp 0 END) = false)
  /\ (dt_le START START = true
      /\ zoned.timestamp (zoned.fixed_offset 0) START
         = Some (timestamp 0 START)
      /\ zoned.gen_random_timestamp (zoned.fixed_offset 0) START START
           [0; 0]
         = Some (timestamp 0 START, [])
      /\ flt (timestamp 0 START) (timestamp 0 START) = false)
  /\ (dt_le (zoned.datetime_ymdhm 2020 3 8 2 30)
        (zoned.datetime_ymdhm 2020 3 8 3 0) = true
      /\ zoned.timestamp zoned.new_york_2020
           (zoned.datetime_ymdhm 2020 3 8 2 30)
         = Some (float_of_int 1583652600)
      /\ zoned.timestamp zoned.new_york_2020
           (zoned.datetime_ymdhm 2020 3 8 3 0)
         = Some (float_of_int 1583650800)
      /\ zoned.gen_random_timestamp zoned.new_york_2020
           (zoned.datetime_ymdhm 2020 3 8 2 30)
           (zoned.datetime_ymdhm 2020 3 8 3 0) [0; 0]
         = Some (float_of_int 1583652600, [])
      /\ flt (float_of_int 1583652600) (float_of_int 1583650800) = false).
Proof.
  split; [|split].
  - split; [|split; [|split]]; vm_compute; reflexivity.
  - split; [|split; [|split]]; vm_compute; reflexivity.
  - split; [|split; [|split; [|split]]]; vm_compute; reflexivity.
Qed.

(** C10, as amended.  When [start] and [end] are the same datetime,
    [gen_random_timestamp] returns [start.timestamp()] itself, for every
    draw, provided [start.timestamp()] is defined; when that call raises,
    so does the generator. *)
Theorem gen_random_timestamp_degenerate z d w1 w2 s :
  match zoned.timestamp z d with
  | Some ts =>
      zoned.gen_random_timestamp z d d (w1 :: w2 :: s) = Some (ts, s)
  | None => zoned.gen_random_timestamp z d d (w1 :: w2 :: s) = None
  end.
Proof.
  destruct (zoned.timestamp z d) as [ts|] eqn:E.
  - destruct (zoned_gen_random_timestamp_total z d d ts ts w1 w2 s E E)
      as [v Hv].
    rewrite Hv. apply zoned_gen_random_timestamp_inv in Hv.
    destruct Hv as (ts' & te' & _ & _ & k & Hs & He & _ & _ & ->).
    rewrite E in Hs, He. injection Hs as <-. injection He as <-.
    rewrite fsub_diag, fmul_0_r, fadd_0_r
      by (eapply zoned_timestamp_representable, E).
    reflexivity.
  - unfold zoned.gen_random_timestamp, bind. rewrite E. reflexivity.
Qed.

(** C10, as stated, fails: the call does fail for some datetimes.  In UTC
    [datetime(1, 1, 1).timestamp()] raises ValueError ([_mktime] looks a
    day back, into year 0), and five hours east of UTC so does
    [datetime(9999, 12, 31, 23, 0).timestamp()]; with [start = end] at
    such a datetime the generator raises, whatever the random source
    holds. *)
Lemma gen_random_timestamp_degenerate_raises :
  (valid_datetime (datetime_ymd 1 1 1)
   /\ zoned.timestamp (zoned.fixed_offset 0) (datetime_ymd 1 1 1) = None
   /\ zoned.gen_random_timestamp (zoned.fixed_offset 0)
        (datetime_ymd 1 1 1) (datetime_ymd 1 1 1) [0; 0] = None)
  /\ (valid_datetime (zoned.datetime_ymdhm 9999 12 31 23 0)
      /\ zoned.gen_random_timestamp (zoned.fixed_offset 18000)
           (zoned.datetime_ymdhm 9999 12 31 23 0)
           (zoned.datetime_ymdhm 9999 12 31 23 0) [0; 0] = None).
Proof.
  split.
  - split; [|split; vm_compute; reflexivity].
    unfold valid_datetime. vm_compute. intuition discriminate.
  - split; [|vm_compute; reflexivity].
    unfold valid_datetime. vm_compute. intuition discriminate.
Qed.

(** ** Closed orders *)

(** C2.  In every record [gen_random_closed_order] returns, [cost] is the
    binary64 product [price * executed_volume] of the values drawn, [fee]
    is the binary64 product [0.0026 * cost], and the ["cost"] and ["fee"]
    fields are the numerals, with [decimals] digits after the point, of the
    multiples of [10^-decimals] nearest to [cost] and to [fee]. *)
Theorem closed_order_cost_and_fee tz s record s' :
  gen_random_closed_order tz s = Some (record, s') ->
  exists open close price volume executed_volume decimals status,
    closed_order_draws tz s s' open close price volume executed_volume
      decimals status
    /\ let d := Z.to_nat decimals in
       let cost := fmul price executed_volume in
       let fee := fmul (literal 26 10000) cost in
       dict_get record "cost" = Some (PStr (format_f cost d))
       /\ dict_get record "fee" = Some (PStr (format_f fee d))
       /\ decimal_value (format_f cost d) = Some (quantize cost d, d)
       /\ decimal_value (format_f fee d) = Some (quantize fee d, d)
       /\ 2 * Z.abs (quantize cost d * U - cost * 10 ^ Z.of_nat d) <= U
       /\ 2 * Z.abs (quantize fee d * U - fee * 10 ^ Z.of_nat d) <= U.
Proof.
  intros H. apply gen_random_closed_order_inv in H.
  destruct H as (o & c & p & v & e & d & st & Hd & ->).
  exists o, c, p, v, e, d, st. split; [exact Hd|]. cbv zeta.
  pose proof (closed_order_draws_facts _ _ _ _ _ _ _ _ _ _ Hd)
    as (Hp & _ & He & _).
  pose proof PRICE_MIN_pos. pose proof VOLUME_MIN_pos.
  assert (0 <= fmul p e) as C0 by (apply fmul_nonneg; lia).
  assert (0 <= fmul (literal 26 10000) (fmul p e)) as F0.
  { apply fmul_nonneg; [|exact C0].
    rewrite literal_eq by lia.
    apply round53_nonneg; [lia|]. pose proof U_pos. lia. }
  split; [reflexivity|]. split; [reflexivity|].
  rewrite !format_f_value.
  destruct (Z.ltb_spec (fmul p e) 0); [lia|].
  destruct (Z.ltb_spec (fmul (literal 26 10000) (fmul p e)) 0); [lia|].
  split; [reflexivity|]. split; [reflexivity|].
  split; apply quantize_nearest.
Qed.

Lemma closed_order_cost_and_fee_witness :
  exists record,
    gen_random_closed_order 0 sample_order_tape = Some (record, [])
    /\ (exists cost d,
          dict_get record "cost" = Some (PStr (format_f cost d))
          /\ decimal_value (format_f cost d) = Some (quantize cost d, d))
    /\ dict_get record "cost" = Some (PStr "8134036.483479")
    /\ dict_get record "fee" = Some (PStr "21148.494857").
Proof.
  eexists. run_sample E. split; [exact E|].
  destruct (closed_order_cost_and_fee 0 sample_order_tape _ [] E)
    as (o & c & p & v & e & d & st & _ & Hc & _ & Hv & _).
  split; [|split; vm_compute; reflexivity].
  exists (fmul p e), (Z.to_nat d). split; [exact Hc | exact Hv].
Defined.

(** C3 fails on the code.  On the tape [sample_order_tape] the function
    returns a record whose ["closetm"] is smaller than its ["opentm"]:
    [datetime.fromtimestamp(open)] rounds [open] to whole microseconds,
    here downwards, and the second draw, [0.0], returns the rounded
    start. *)
Theorem closed_order_can_close_before_opening :
  exists record,
    gen_random_closed_order 0 sample_order_tape = Some (record, [])
    /\ closes_before_opening record = true.
Proof.
  eexists. run_sample E. split; [exact E | vm_compute; reflexivity].
Qed.

(** C4.  In every record [gen_random_closed_order] returns, the executed
    volume drawn is at least [VOLUME_MIN] and at most the volume drawn; the
    ["vol_exec"] and ["vol"] fields print these two values, and the printed
    numbers are in the same order. *)
Theorem closed_order_executed_volume_bounds tz s record s' :
  gen_random_closed_order tz s = Some (record, s') ->
  exists open close price volume executed_volume decimals status,
    closed_order_draws tz s s' open close price volume executed_volume
      decimals status
    /\ fle VOLUME_MIN executed_volume = true
    /\ fle executed_volume volume = true
    /\ dict_get record "vol"
       = Some (PStr (format_f volume (Z.to_nat decimals)))
    /\ dict_get record "vol_exec"
       = Some (PStr (format_f executed_volume (Z.to_nat decimals)))
    /\ quantize executed_volume (Z.to_nat decimals)
       <= quantize volume (Z.to_nat decimals).
Proof.
  intros H. apply gen_random_closed_order_inv in H.
  destruct H as (o & c & p & v & e & d & st & Hd & ->).
  exists o, c, p, v, e, d, st. split; [exact Hd|].
  pose proof (closed_order_draws_facts _ _ _ _ _ _ _ _ _ _ Hd)
    as (_ & _ & He & _).
  unfold fle. split; [apply Z.leb_le, He|]. split; [apply Z.leb_le, He|].
  split; [reflexivity|]. split; [reflexivity|].
  apply quantize_mono, He.
Qed.

Lemma closed_order_executed_volume_bounds_witness :
  exists record,
    gen_random_closed_order 0 sample_order_tape = Some (record, [])
    /\ (exists volume executed_volume d,
          fle executed_volume volume = true
          /\ dict_get record "vol" = Some (PStr (format_f volume d))
          /\ dict_get record "vol_exec"
             = Some (PStr (format_f executed_volume d)))
    /\ dict_get record "vol" = Some (PStr "698.522082")
    /\ dict_get record "vol_exec" = Some (PStr "244.021094").
Proof.
  eexists. run_sample E. split; [exact E|].
  destruct (closed_order_executed_volume_bounds 0 sample_order_tape _ [] E)
    as (o & c & p & v & e & d & st & _ & _ & Hle & Hv & He & _).
  split; [|split; vm_compute; reflexivity].
  exists v, e, (Z.to_nat d). split; [exact Hle|]. split; [exact Hv | exact He].
Defined.

(** C5.  Every record [gen_random_closed_order] returns has the same
    values in its fields that are not drawn: ["refid"] is the string
    ["None"], ["userref"] is 1, ["starttm"] and ["expiretm"] are 0,
    ["descr"] is the empty dict, ["stopprice"] and ["limitprice"] are
    ["0.00000"], ["misc"] is empty, ["oflags"] is ["fciq"] and ["trigger"]
    is ["index"]; and its keys are always the same nineteen. *)
Theorem closed_order_constant_fields tz s record s' :
  gen_random_closed_order tz s = Some (record, s') ->
  dict_get record "refid" = Some (PStr "None")
  /\ dict_get record "userref" = Some (PInt 1)
  /\ dict_get record "starttm" = Some (PInt 0)
  /\ dict_get record "expiretm" = Some (PInt 0)
  /\ dict_get record "descr" = Some (PDict [])
  /\ dict_get record "stopprice" = Some (PStr "0.00000")
  /\ dict_get record "limitprice" = Some (PStr "0.00000")
  /\ dict_get record "misc" = Some (PStr "")
  /\ dict_get record "oflags" = Some (PStr "fciq")
  /\ dict_get record "trigger" = Some (PStr "index")
  /\ map fst record
     = ["refid"; "userref"; "status"; "reason"; "opentm"; "closetm";
        "starttm"; "expiretm"; "descr"; "vol"; "vol_exec"; "cost"; "fee";
        "price"; "stopprice"; "limitprice"; "misc"; "oflags";
        "trigger"]%string.
Proof.
  intros H. apply gen_random_closed_order_inv in H.
  destruct H as (o & c & p & v & e & d & st & _ & ->).
  repeat (split; [reflexivity|]). reflexivity.
Qed.

Lemma closed_order_constant_fields_witness :
  exists record,
    gen_random_closed_order 0 sample_order_tape = Some (record, [])
    /\ dict_get record "refid" = Some (PStr "None")
    /\ dict_get record "trigger" = Some (PStr "index").
Proof.
  eexists. run_sample E. split; [exact E|].
  pose proof (closed_order_constant_fields 0 sample_order_tape _ [] E) as H.
  split; apply H.
Defined.

(** C6.  In every record [gen_random_closed_order] returns, one precision
    [decimals] is drawn from 3 to 8, and each of the fields ["vol"],
    ["vol_exec"], ["cost"], ["fee"] and ["price"] is a numeral with exactly
    [decimals] digits after the point. *)
Theorem closed_order_one_precision tz s record s' :
  gen_random_closed_order tz s = Some (record, s') ->
  exists open close price volume executed_volume decimals status,
    closed_order_draws tz s s' open close price volume executed_volume
      decimals status
    /\ 3 <= decimals <= 8
    /\ forall key,
         In key ["vol"; "vol_exec"; "cost"; "fee"; "price"]%string ->
         exists text,
           dict_get record key = Some (PStr text)
           /\ has_decimals (Z.to_nat decimals) text = true.
Proof.
  intros H. apply gen_random_closed_order_inv in H.
  destruct H as (o & c & p & v & e & d & st & Hd & ->).
  exists o, c, p, v, e, d, st. split; [exact Hd|].
  pose proof (closed_order_draws_facts _ _ _ _ _ _ _ _ _ _ Hd)
    as (_ & _ & _ & H38 & _).
  split; [exact H38|].
  intros key Hk. cbn [In] in Hk.
  destruct Hk as [<-|[<-|[<-|[<-|[<-|[]]]]]];
    (eexists; split; [reflexivity | apply format_f_has_decimals]).
Qed.

Lemma closed_order_one_precision_witness :
  exists record,
    gen_random_closed_order 0 sample_order_tape = Some (record, [])
    /\ (exists decimals text,
          3 <= decimals <= 8
          /\ dict_get record "price" = Some (PStr text)
          /\ has_decimals (Z.to_nat decimals) text = true)
    /\ dict_get record "price" = Some (PStr "33333.333367").
Proof.
  eexists. run_sample E. split; [exact E|].
  destruct (closed_order_one_precision 0 sample_order_tape _ [] E)
    as (o & c & p & v & e & d & st & _ & H38 & Hk).
  split; [|vm_compute; reflexivity].
  destruct (Hk "price"%string) as (text & Ht & Hd).
  { cbn [In]. tauto. }
  exists d, text. split; [exact H38|]. split; [exact Ht | exact Hd].
Defined.

(** C7.  In every record [gen_random_closed_order] returns, ["status"] is
    one of ["canceled"], ["closed"] and ["expired"]; ["reason"] is the
    string ["User requested"] when the status is ["canceled"], and [None]
    otherwise. *)
Theorem closed_order_status_and_reason tz s record s' :
  gen_random_closed_order tz s = Some (record, s') ->
  exists status,
    dict_get record "status" = Some (PStr status)
    /\ In status ["canceled"; "closed"; "expired"]%string
    /\ (status = "canceled"%string ->
        dict_get record "reason" = Some (PStr "User requested"))
    /\ (status <> "canceled"%string ->
        dict_get record "reason" = Some PNone).
Proof.
  intros H. apply gen_random_closed_order_inv in H.
  destruct H as (o & c & p & v & e & d & st & Hd & ->).
  exists st.
  pose proof (closed_order_draws_facts _ _ _ _ _ _ _ _ _ _ Hd)
    as (_ & _ & _ & _ & Hst).
  split; [reflexivity|]. split; [exact Hst|].
  cbn [closed_order_record dict_get String.eqb Ascii.eqb Bool.eqb].
  split; intros Hc.
  - apply String.eqb_eq in Hc. rewrite Hc. reflexivity.
  - apply String.eqb_neq in Hc. rewrite Hc. reflexivity.
Qed.

Lemma closed_order_status_and_reason_witness :
  exists record,
    gen_random_closed_order 0 sample_order_tape = Some (record, [])
    /\ (exists status,
          dict_get record "status" = Some (PStr status)
          /\ In status ["canceled"; "closed"; "expired"]%string)
    /\ dict_get record "status" = Some (PStr "canceled")
    /\ dict_get record "reason" = Some (PStr "User requested").
Proof.
  eexists. run_sample E. split; [exact E|].
  destruct (closed_order_status_and_reason 0 sample_order_tape _ [] E)
    as (st & Hs & Hin & _).
  split; [|split; vm_compute; reflexivity].
  exists st. split; [exact Hs | exact Hin].
Defined.

(** ** Identifiers *)

(** C8.  Every string [gen_order_id] returns matches
    [[A-Z0-9]{6}-[A-Z0-9]{5}-[A-Z0-9]{6}]. *)
Theorem gen_order_id_pattern s id s' :
  gen_order_id s = Some (id, s') -> matches_order_id id = true.
Proof.
  unfold gen_order_id. intros H.
  inv_bind H. inv_bind H. inv_bind H.
  apply ret_inv in H. destruct H as [-> _].
  apply gen_segment_inv in D, D0, D1.
  destruct D as (la & -> & La & Fa).
  destruct D0 as (lb & -> & Lb & Fb).
  destruct D1 as (lc & -> & Lc & Fc).
  change (Z.to_nat 6) with 6%nat in *. change (Z.to_nat 5) with 5%nat in *.
  destruct la as [|a1 [|a2 [|a3 [|a4 [|a5 [|a6 [|]]]]]]]; try discriminate La.
  destruct lb as [|b1 [|b2 [|b3 [|b4 [|b5 [|]]]]]]; try discriminate Lb.
  destruct lc as [|c1 [|c2 [|c3 [|c4 [|c5 [|c6 [|]]]]]]]; try discriminate Lc.
  unfold matches_order_id.
  cbn [string_of_list_ascii append list_ascii_of_string].
  rewrite Fa, Fb, Fc. reflexivity.
Qed.

Lemma gen_order_id_pattern_witness :
  exists id,
    gen_order_id sample_id_tape = Some (id, [])
    /\ matches_order_id id = true.
Proof.
  eexists. run_sample E. split; [exact E|].
  exact (gen_order_id_pattern sample_id_tape _ [] E).
Defined.

(** ** Determinism *)



(** The part of C3 that holds.  In every record [gen_random_closed_order]
    returns (in a zone of fixed offset), ["opentm"] and ["closetm"] both
    lie between [START.timestamp()] and [END.timestamp()], bounds included,
    and ["closetm"] is at least the timestamp of
    [datetime.fromtimestamp(opentm)]. *)
Theorem closed_order_timestamps_in_window tz s record s' :
  -86400 < tz < 86400 ->
  gen_random_closed_order tz s = Some (record, s') ->
  exists open close,
    dict_get record "opentm" = Some (PFloat open)
    /\ dict_get record "closetm" = Some (PFloat close)
    /\ fle (timestamp tz START) open = true
    /\ fle open (timestamp tz END) = true
    /\ fle (timestamp tz START) close = true
    /\ fle close (timestamp tz END) = true
    /\ fle (timestamp tz (fromtimestamp tz open)) close = true.
Proof.
  intros Htz H. apply gen_random_closed_order_inv in H.
  destruct H as (o & c & p & v & e & d & st & Hd & ->).
  destruct Hd as (s1 & s2 & _ & _ & _ & _ & Ho & Hc & _).
  exists o, c. split; [reflexivity|]. split; [reflexivity|].
  pose proof (gen_random_timestamp_range tz Htz _ _ _ _ _
                START_valid END_valid START_le_END Ho) as Ro.
  assert (dt_second START = 1577836800) as S0 by reflexivity.
  assert (dt_second END = 1704067200) as S1 by reflexivity.
  rewrite (timestamp_whole_second tz Htz START START_valid eq_refl) in *.
  rewrite (timestamp_whole_second tz Htz END END_valid eq_refl) in *.
  rewrite S0, S1 in *.
  destruct (fromtimestamp_between tz (1577836800 - tz) (1704067200 - tz) o
              ltac:(lia) ltac:(lia) Ro) as (Bs & Bu & Btop).
  set (D := fromtimestamp tz o) in *.
  assert (valid_datetime D) as VD by (unfold valid_datetime; lia).
  assert (dt_le START D = true) as L1.
  { unfold dt_le. rewrite S0. change (dt_microsecond START) with 0.
    destruct (Z.ltb_spec 1577836800 (dt_second D)); [reflexivity|].
    destruct (Z.eqb_spec 1577836800 (dt_second D)); [|lia].
    destruct (Z.leb_spec 0 (dt_microsecond D)); [reflexivity | lia]. }
  assert (dt_le D END = true) as L2.
  { unfold dt_le. rewrite S1. change (dt_microsecond END) with 0.
    destruct (Z.ltb_spec (dt_second D) 1704067200); [reflexivity|].
    destruct (Z.eqb_spec (dt_second D) 1704067200); [|lia].
    destruct (Z.leb_spec (dt_microsecond D) 0); [reflexivity|].
    specialize (Btop ltac:(lia)). lia. }
  pose proof (gen_random_timestamp_range tz Htz _ _ _ _ _ VD END_valid L2 Hc)
    as Rc.
  pose proof (timestamp_mono tz Htz _ _ START_valid VD L1) as M.
  rewrite (timestamp_whole_second tz Htz START START_valid eq_refl) in M.
  rewrite (timestamp_whole_second tz Htz END END_valid eq_refl) in Rc.
  rewrite S0 in M. rewrite S1 in Rc.
  unfold fle. repeat split; apply Z.leb_le; lia.
Qed.

Lemma closed_order_timestamps_in_window_witness :
  exists record,
    gen_random_closed_order 0 sample_order_tape = Some (record, [])
    /\ exists open close,
         dict_get record "opentm" = Some (PFloat open)
         /\ dict_get record "closetm" = Some (PFloat close)
         /\ fle (timestamp 0 START) close = true
         /\ fle close (timestamp 0 END) = true.
Proof.
  eexists. run_sample E. split; [exact E|].
  destruct (closed_order_timestamps_in_window 0 sample_order_tape _ []
              ltac:(lia) E) as (o & c & Ho & Hc & _ & _ & L & R & _).
  exists o, c. repeat (split; [assumption|]). assumption.
Defined.

(* ================================================================== *)
(** * The identifier generators, in full *)
(* ================================================================== *)

Section Reading.

(** [random()] reads two words, and fails only for want of them. *)
Lemma random_reads s :
  match random s with
  | Some (_, s') => (2 <= List.length s)%nat /\ s' = skipn 2 s
  | None => (List.length s < 2)%nat
  end.
Proof.
  destruct s as [|w1 [|w2 s]]; [cbn; lia | cbn; lia |].
  destruct (random_total w1 w2 s) as [r ->]. cbn. split; [lia | reflexivity].
Qed.

(** [choices] reads two words per symbol, in order, and fails only for
    want of them: no index leaves the population. *)
Lemma choices_reads {A} (population : list A) k s :
  0 < Z.of_nat (List.length population) < 2 ^ 53 ->
  fmul ((2 ^ 53 - 1) * 2 ^ 1021)
       (float_of_int (Z.of_nat (List.length population)))
  < Z.of_nat (List.length population) * U ->
  match choices population k s with
  | Some (xs, s') =>
      List.length xs = k /\ Forall (fun x => In x population) xs
      /\ (2 * k <= List.length s)%nat /\ s' = skipn (2 * k) s
  | None => (List.length s < 2 * k)%nat
  end.
Proof.
  intros Hn Hmax.
  destruct (Nat.le_gt_cases (2 * k) (List.length s)) as [L | G].
  - destruct (choices_total population k s Hn Hmax L) as [xs E].
    rewrite E. apply choices_inv in E. destruct E as [E1 E2].
    repeat split; assumption.
  - destruct (choices population k s) as [[xs s']|] eqn:E; [|exact G].
    exfalso. revert s G xs s' E.
    induction k as [|k IH]; intros s G xs s' E; [lia|].
    cbn [choices] in E. inv_bind E.
    apply random_inv in D. destruct D as (w1 & w2 & j & -> & _ & _).
    inv_bind E. apply lift_inv in D. destruct D as [_ ->].
    inv_bind E. apply (IH s0) in D; [exact D | simpl in G; lia].
Qed.

Lemma string_length_of_list cs :
  String.length (string_of_list_ascii cs) = List.length cs.
Proof. induction cs; simpl; congruence. Qed.

Lemma list_ascii_of_string_app s1 s2 :
  list_ascii_of_string (s1 ++ s2)
  = list_ascii_of_string s1 ++ list_ascii_of_string s2.
Proof. induction s1; simpl; congruence. Qed.

(** A segment: [k] symbols of the population, joined. *)
Lemma joined_choices_reads (population : list ascii) k s :
  0 < Z.of_nat (List.length population) < 2 ^ 53 ->
  fmul ((2 ^ 53 - 1) * 2 ^ 1021)
       (float_of_int (Z.of_nat (List.length population)))
  < Z.of_nat (List.length population) * U ->
  match (cs <- choices population k ;; ret (string_of_list_ascii cs)) s with
  | Some (str, s') =>
      (exists cs, str = string_of_list_ascii cs /\ List.length cs = k
                  /\ Forall (fun c => In c population) cs)
      /\ (2 * k <= List.length s)%nat /\ s' = skipn (2 * k) s
  | None => (List.length s < 2 * k)%nat
  end.
Proof.
  intros Hn Hmax. unfold bind.
  pose proof (choices_reads population k s Hn Hmax) as H.
  destruct (choices _ _ s) as [[cs s']|]; [|exact H].
  destruct H as (L & F & R & ->). cbn [ret].
  split; [exists cs; auto | auto].
Qed.

End Reading.

Section OrderIds.

Lemma UPPER_ALPHA_NUMERIC_size :
  0 < Z.of_nat (List.length (list_ascii_of_string UPPER_ALPHA_NUMERIC))
  < 2 ^ 53.
Proof. split; reflexivity. Qed.

(** The largest draw of [random()], scaled by [36.0], stays below [36.0]. *)
Lemma UPPER_ALPHA_NUMERIC_index :
  fmul ((2 ^ 53 - 1) * 2 ^ 1021)
       (float_of_int
          (Z.of_nat (List.length (list_ascii_of_string UPPER_ALPHA_NUMERIC))))
  < Z.of_nat (List.length (list_ascii_of_string UPPER_ALPHA_NUMERIC)) * U.
Proof. vm_compute. reflexivity. Qed.

Lemma order_gen_segment_reads n s :
  match order_ids.gen_segment n s with
  | Some (str, s') =>
      (exists cs, str = string_of_list_ascii cs
                  /\ List.length cs = Z.to_nat n
                  /\ forallb is_upper_alnum cs = true)
      /\ (2 * Z.to_nat n <= List.length s)%nat
      /\ s' = skipn (2 * Z.to_nat n) s
  | None => (List.length s < 2 * Z.to_nat n)%nat
  end.
Proof.
  unfold order_ids.gen_segment.
  pose proof (joined_choices_reads (list_ascii_of_string UPPER_ALPHA_NUMERIC)
                (Z.to_nat n) s UPPER_ALPHA_NUMERIC_size
                UPPER_ALPHA_NUMERIC_index) as H.
  destruct (bind _ _ s) as [[str s']|]; [|exact H].
  destruct H as ((cs & -> & L & F) & R). split; [|exact R].
  exists cs. repeat split; try assumption.
  apply forallb_forall. rewrite Forall_forall in F.
  intros c Hc. apply upper_alnum_alphabet, F, Hc.
Qed.

Lemma gen_order_id_matches s id s' :
  gen_order_id s = Some (id, s') -> matches_order_id id = true.
Proof.
  unfold gen_order_id. intros H.
  inv_bind H. inv_bind H. inv_bind H.
  apply ret_inv in H. destruct H as [-> _].
  apply gen_segment_inv in D, D0, D1.
  destruct D as (la & -> & La & Fa).
  destruct D0 as (lb & -> & Lb & Fb).
  destruct D1 as (lc & -> & Lc & Fc).
  change (Z.to_nat 6) with 6%nat in *. change (Z.to_nat 5) with 5%nat in *.
  destruct la as [|a1 [|a2 [|a3 [|a4 [|a5 [|a6 [|]]]]]]]; try discriminate La.
  destruct lb as [|b1 [|b2 [|b3 [|b4 [|b5 [|]]]]]]; try discriminate Lb.
  destruct lc as [|c1 [|c2 [|c3 [|c4 [|c5 [|c6 [|]]]]]]]; try discriminate Lc.
  unfold matches_order_id.
  cbn [string_of_list_ascii append list_ascii_of_string].
  rewrite Fa, Fb, Fc. reflexivity.
Qed.

Lemma gen_order_id_reads s :
  match gen_order_id s with
  | Some (_, s') => (34 <= List.length s)%nat /\ s' = skipn 34 s
  | None => (List.length s < 34)%nat
  end.
Proof.
  unfold gen_order_id, bind.
  pose proof (order_gen_segment_reads 6 s) as Ha.
  destruct (order_ids.gen_segment 6 s) as [[a s1]|];
    [| change (Z.to_nat 6) with 6%nat in Ha; lia].
  destruct Ha as (_ & La & ->). change (Z.to_nat 6) with 6%nat in La.
  pose proof (order_gen_segment_reads 5 (skipn (2 * Z.to_nat 6) s)) as Hb.
  destruct (order_ids.gen_segment 5 _) as [[b s2]|];
    [| change (Z.to_nat 5) with 5%nat in Hb;
       change (Z.to_nat 6) with 6%nat in Hb;
       rewrite length_skipn in Hb; lia].
  destruct Hb as (_ & Lb & ->).
  change (Z.to_nat 5) with 5%nat in *. change (Z.to_nat 6) with 6%nat in *.
  rewrite length_skipn in Lb. rewrite skipn_skipn.
  pose proof (order_gen_segment_reads 6 (skipn (2 * 5 + 2 * 6) s)) as Hc.
  destruct (order_ids.gen_segment 6 _) as [[c s3]|];
    [| change (Z.to_nat 6) with 6%nat in Hc;
       rewrite length_skipn in Hc; lia].
  destruct Hc as (_ & Lc & ->). change (Z.to_nat 6) with 6%nat in *.
  rewrite length_skipn in Lc. rewrite skipn_skipn. cbn [ret].
  split; [lia | reflexivity].
Qed.

Lemma skipn_step (a b : nat) (s : rng) : skipn a (skipn b s) = skipn (b + a) s.
Proof. rewrite skipn_skipn. f_equal. lia. Qed.

Lemma gen_random_kraken_identifiers_reads n s :
  match gen_random_kraken_identifiers n s with
  | Some (ids, s') =>
      List.length ids = n
      /\ Forall (fun id => matches_order_id id = true) ids
      /\ (34 * n <= List.length s)%nat /\ s' = skipn (34 * n) s
  | None => (List.length s < 34 * n)%nat
  end.
Proof.
  revert s. induction n as [|n IH]; intros s.
  - cbn. repeat split; [constructor | lia].
  - cbn [gen_random_kraken_identifiers]. unfold bind at 1.
    pose proof (gen_order_id_reads s) as H.
    pose proof (gen_order_id_matches s) as Hm.
    destruct (gen_order_id s) as [[id s1]|]; [|lia].
    destruct H as (L & ->). specialize (Hm id _ eq_refl).
    unfold bind at 1. specialize (IH (skipn 34 s)).
    destruct (gen_random_kraken_identifiers n (skipn 34 s)) as [[ids s2]|].
    + destruct IH as (Ln & F & R & ->). cbn [ret].
      rewrite length_skipn in R. rewrite skipn_step.
      repeat split.
      * simpl. congruence.
      * constructor; assumption.
      * lia.
      * f_equal. lia.
    + rewrite length_skipn in IH. lia.
Qed.

End OrderIds.

Section TransferIds.

Lemma alnum_alphabet c :
  In c (list_ascii_of_string ALL_ALPHA_NUMERIC) -> is_alnum c = true.
Proof.
  assert (forallb is_alnum (list_ascii_of_string ALL_ALPHA_NUMERIC) = true)
    as H by reflexivity.
  rewrite forallb_forall in H. apply H.
Qed.

Lemma ALL_ALPHA_NUMERIC_size :
  0 < Z.of_nat (List.length (list_ascii_of_string ALL_ALPHA_NUMERIC)) < 2 ^ 53.
Proof. split; reflexivity. Qed.

(** The largest draw of [random()], scaled by [62.0], stays below [62.0]. *)
Lemma ALL_ALPHA_NUMERIC_index :
  fmul ((2 ^ 53 - 1) * 2 ^ 1021)
       (float_of_int
          (Z.of_nat (List.length (list_ascii_of_string ALL_ALPHA_NUMERIC))))
  < Z.of_nat (List.length (list_ascii_of_string ALL_ALPHA_NUMERIC)) * U.
Proof. vm_compute. reflexivity. Qed.

Lemma transfer_gen_segment_reads n s :
  match transfer_ids.gen_segment n s with
  | Some (str, s') =>
      (exists cs, str = string_of_list_ascii cs
                  /\ List.length cs = Z.to_nat n
                  /\ forallb is_alnum cs = true)
      /\ (2 * Z.to_nat n <= List.length s)%nat
      /\ s' = skipn (2 * Z.to_nat n) s
  | None => (List.length s < 2 * Z.to_nat n)%nat
  end.
Proof.
  unfold transfer_ids.gen_segment.
  pose proof (joined_choices_reads (list_ascii_of_string ALL_ALPHA_NUMERIC)
                (Z.to_nat n) s ALL_ALPHA_NUMERIC_size
                ALL_ALPHA_NUMERIC_index) as H.
  destruct (bind _ _ s) as [[str s']|]; [|exact H].
  destruct H as ((cs & -> & L & F) & R). split; [|exact R].
  exists cs. repeat split; try assumption.
  apply forallb_forall. rewrite Forall_forall in F.
  intros c Hc. apply alnum_alphabet, F, Hc.
Qed.

Lemma transfer_id_matches la lb :
  List.length la = 7%nat -> List.length lb = 22%nat ->
  forallb is_alnum la = true -> forallb is_alnum lb = true ->
  matches_transfer_id
    (string_of_list_ascii la ++ "-" ++ string_of_list_ascii lb) = true.
Proof.
  intros La Lb Fa Fb. unfold matches_transfer_id.
  rewrite !list_ascii_of_string_app, !list_ascii_of_string_of_list_ascii.
  destruct la as [|a1 [|a2 [|a3 [|a4 [|a5 [|a6 [|a7 [|]]]]]]]];
    try discriminate La.
  cbn [list_ascii_of_string app List.length firstn nth_error skipn].
  rewrite Lb, Fa, Fb. reflexivity.
Qed.

Lemma gen_random_kraken_transfer_identifiers_reads n s :
  match transfer_ids.gen_random_kraken_transfer_identifiers n s with
  | Some (ids, s') =>
      List.length ids = n
      /\ Forall (fun id => matches_transfer_id id = true) ids
      /\ (58 * n <= List.length s)%nat /\ s' = skipn (58 * n) s
  | None => (List.length s < 58 * n)%nat
  end.
Proof.
  revert s. induction n as [|n IH]; intros s.
  - cbn. repeat split; [constructor | lia].
  - cbn [transfer_ids.gen_random_kraken_transfer_identifiers].
    unfold bind at 1.
    pose proof (transfer_gen_segment_reads 7 s) as Ha.
    destruct (transfer_ids.gen_segment 7 s) as [[a s1]|];
      [| change (Z.to_nat 7) with 7%nat in Ha; lia].
    destruct Ha as ((la & -> & La & Fa) & Ra & ->).
    change (Z.to_nat 7) with 7%nat in *.
    unfold bind at 1.
    pose proof (transfer_gen_segment_reads 22 (skipn (2 * 7) s)) as Hb.
    destruct (transfer_ids.gen_segment 22 _) as [[b s2]|];
      [| change (Z.to_nat 22) with 22%nat in Hb;
         rewrite length_skipn in Hb; lia].
    destruct Hb as ((lb & -> & Lb & Fb) & Rb & ->).
    change (Z.to_nat 22) with 22%nat in *.
    rewrite length_skipn in Rb. rewrite skipn_step.
    unfold bind at 1. specialize (IH (skipn (2 * 7 + 2 * 22) s)).
    destruct (transfer_ids.gen_random_kraken_transfer_identifiers n _)
      as [[ids s3]|].
    + destruct IH as (Ln & F & R & ->). cbn [ret].
      rewrite length_skipn in R. rewrite skipn_step.
      repeat split.
      * simpl. congruence.
      * constructor; [apply transfer_id_matches; assumption | assumption].
      * lia.
      * f_equal. lia.
    + rewrite length_skipn in IH. lia.
Qed.

End TransferIds.

Section Coverage.

Lemma choices_succ {A} (population : list A) k s :
  choices population (S k) s
  = (l <- choices population 1 ;;
     xs <- choices population k ;;
     ret (l ++ xs)) s.
Proof.
  cbn [choices]. unfold bind.
  destruct (random s) as [[r s1]|]; [|reflexivity].
  destruct (lift _ s1) as [[x s2]|]; [|reflexivity].
  cbn [ret app]. reflexivity.
Qed.

Lemma choices_cons {A} (population : list A) k w t c cs rest :
  choices population 1 w = Some ([c], []) ->
  choices population k t = Some (cs, rest) ->
  choices population (S k) (w ++ t) = Some (c :: cs, rest).
Proof.
  intros H1 H2. rewrite choices_succ.
  apply (choices_prefix population 1 _ _ _ t) in H1.
  unfold bind. rewrite H1. change ([] ++ t) with t. rewrite H2.
  reflexivity.
Qed.

Lemma draws_symbol_inv population c :
  draws_symbol population c = true ->
  choices population 1 (words_for_symbol population c) = Some ([c], []).
Proof.
  unfold draws_symbol.
  generalize (words_for_symbol population c). intros w.
  destruct (choices population 1 w) as [[[|x [|]] [|]]|];
    try discriminate.
  intros E. apply Ascii.eqb_eq in E. subst x. reflexivity.
Qed.

(** From the tape built for them, [choices] returns the symbols [cs]. *)
Lemma choices_tape_for population cs rest :
  Forall (fun c => draws_symbol population c = true) cs ->
  choices population (List.length cs) (tape_for population cs ++ rest)
  = Some (cs, rest).
Proof.
  induction 1 as [|c cs Hc _ IH]; [reflexivity|].
  change (tape_for population (c :: cs))
    with (words_for_symbol population c ++ tape_for population cs).
  rewrite <- app_assoc.
  change (List.length (c :: cs)) with (S (List.length cs)).
  apply choices_cons; [apply draws_symbol_inv, Hc | exact IH].
Qed.

Lemma UPPER_ALPHA_NUMERIC_drawn :
  forallb (draws_symbol (list_ascii_of_string UPPER_ALPHA_NUMERIC))
    (list_ascii_of_string UPPER_ALPHA_NUMERIC) = true.
Proof. vm_compute. reflexivity. Qed.

Lemma ALL_ALPHA_NUMERIC_drawn :
  forallb (draws_symbol (list_ascii_of_string ALL_ALPHA_NUMERIC))
    (list_ascii_of_string ALL_ALPHA_NUMERIC) = true.
Proof. vm_compute. reflexivity. Qed.

Lemma upper_alnum_in_alphabet c :
  is_upper_alnum c = true ->
  In c (list_ascii_of_string UPPER_ALPHA_NUMERIC).
Proof.
  intros H.
  assert (existsb (Ascii.eqb c) (list_ascii_of_string UPPER_ALPHA_NUMERIC)
          = true) as E.
  { destruct c as [[] [] [] [] [] [] [] []];
      first [discriminate H | reflexivity]. }
  apply existsb_exists in E. destruct E as (x & Hx & E).
  apply Ascii.eqb_eq in E. subst x. exact Hx.
Qed.

Lemma alnum_in_alphabet c :
  is_alnum c = true -> In c (list_ascii_of_string ALL_ALPHA_NUMERIC).
Proof.
  intros H.
  assert (existsb (Ascii.eqb c) (list_ascii_of_string ALL_ALPHA_NUMERIC)
          = true) as E.
  { destruct c as [[] [] [] [] [] [] [] []];
      first [discriminate H | reflexivity]. }
  apply existsb_exists in E. destruct E as (x & Hx & E).
  apply Ascii.eqb_eq in E. subst x. exact Hx.
Qed.

Lemma order_gen_segment_tape cs rest :
  forallb is_upper_alnum cs = true ->
  order_ids.gen_segment (Z.of_nat (List.length cs))
    (tape_for (list_ascii_of_string UPPER_ALPHA_NUMERIC) cs ++ rest)
  = Some (string_of_list_ascii cs, rest).
Proof.
  intros F. unfold order_ids.gen_segment, bind. rewrite Nat2Z.id.
  rewrite choices_tape_for; [reflexivity|].
  apply Forall_forall. intros c Hc.
  rewrite forallb_forall in F.
  pose proof UPPER_ALPHA_NUMERIC_drawn as D. rewrite forallb_forall in D.
  apply D, upper_alnum_in_alphabet, F, Hc.
Qed.

Lemma transfer_gen_segment_tape cs rest :
  forallb is_alnum cs = true ->
  transfer_ids.gen_segment (Z.of_nat (List.length cs))
    (tape_for (list_ascii_of_string ALL_ALPHA_NUMERIC) cs ++ rest)
  = Some (string_of_list_ascii cs, rest).
Proof.
  intros F. unfold transfer_ids.gen_segment, bind. rewrite Nat2Z.id.
  rewrite choices_tape_for; [reflexivity|].
  apply Forall_forall. intros c Hc.
  rewrite forallb_forall in F.
  pose proof ALL_ALPHA_NUMERIC_drawn as D. rewrite forallb_forall in D.
  apply D, alnum_in_alphabet, F, Hc.
Qed.

Lemma gen_order_id_onto id :
  matches_order_id id = true -> exists s, gen_order_id s = Some (id, []).
Proof.
  intros H. rewrite <- (string_of_list_ascii_of_string id).
  unfold matches_order_id in H.
  destruct (list_ascii_of_string id)
    as [|a1 [|a2 [|a3 [|a4 [|a5 [|a6 [|d1 [|b1 [|b2 [|b3 [|b4 [|b5 [|d2
        [|c1 [|c2 [|c3 [|c4 [|c5 [|c6 [|]]]]]]]]]]]]]]]]]]]];
    try discriminate H.
  apply andb_prop in H. destruct H as [H Fc].
  apply andb_prop in H. destruct H as [H E2].
  apply andb_prop in H. destruct H as [H Fb].
  apply andb_prop in H. destruct H as [Fa E1].
  apply Ascii.eqb_eq in E1, E2. subst d1 d2.
  set (pop := list_ascii_of_string UPPER_ALPHA_NUMERIC).
  exists (tape_for pop [a1; a2; a3; a4; a5; a6]
          ++ tape_for pop [b1; b2; b3; b4; b5]
          ++ tape_for pop [c1; c2; c3; c4; c5; c6] ++ []).
  unfold gen_order_id, bind.
  rewrite (order_gen_segment_tape [a1; a2; a3; a4; a5; a6] _ Fa).
  rewrite (order_gen_segment_tape [b1; b2; b3; b4; b5] _ Fb).
  rewrite (order_gen_segment_tape [c1; c2; c3; c4; c5; c6] _ Fc).
  reflexivity.
Qed.

End Coverage.

Section CoverageOfLists.

Lemma string_of_list_ascii_app' l1 l2 :
  string_of_list_ascii (l1 ++ l2)
  = (string_of_list_ascii l1 ++ string_of_list_ascii l2)%string.
Proof. induction l1; simpl; congruence. Qed.

Lemma nth_error_split_at {A} (l : list A) n x :
  nth_error l n = Some x -> l = firstn n l ++ x :: skipn (S n) l.
Proof.
  revert l. induction n as [|n IH]; intros [|y l] H; try discriminate H.
  - inversion H. reflexivity.
  - cbn [firstn skipn app]. f_equal. apply IH, H.
Qed.

(** A string matching the transfer pattern is seven symbols, a dash and
    twenty-two symbols. *)
Lemma matches_transfer_id_inv id :
  matches_transfer_id id = true ->
  exists la lb,
    id = (string_of_list_ascii la ++ "-" ++ string_of_list_ascii lb)%string
    /\ List.length la = 7%nat /\ List.length lb = 22%nat
    /\ forallb is_alnum la = true /\ forallb is_alnum lb = true.
Proof.
  unfold matches_transfer_id. cbv zeta.
  set (l := list_ascii_of_string id). intros H.
  apply andb_prop in H. destruct H as [H Fb].
  apply andb_prop in H. destruct H as [H E].
  apply andb_prop in H. destruct H as [L Fa].
  apply Nat.eqb_eq in L.
  destruct (nth_error l 7) as [d|] eqn:N; [|discriminate E].
  apply Ascii.eqb_eq in E. subst d.
  exists (firstn 7 l), (skipn 8 l). repeat split; try assumption.
  - rewrite <- (string_of_list_ascii_of_string id). fold l.
    rewrite (nth_error_split_at l 7 _ N) at 1.
    rewrite string_of_list_ascii_app'. reflexivity.
  - rewrite length_firstn. lia.
  - rewrite length_skipn. lia.
Qed.

Lemma gen_random_kraken_identifiers_onto ids :
  Forall (fun id => matches_order_id id = true) ids ->
  exists s, gen_random_kraken_identifiers (List.length ids) s
            = Some (ids, []).
Proof.
  induction 1 as [|id ids Hid _ (s' & IH)]; [exists []; reflexivity|].
  destruct (gen_order_id_onto id Hid) as (s1 & H1).
  exists (s1 ++ s').
  cbn [List.length gen_random_kraken_identifiers]. unfold bind.
  rewrite (gen_order_id_prefix _ _ _ s' H1). cbn [app].
  rewrite IH. reflexivity.
Qed.

Lemma gen_random_kraken_transfer_identifiers_onto ids :
  Forall (fun id => matches_transfer_id id = true) ids ->
  exists s,
    transfer_ids.gen_random_kraken_transfer_identifiers (List.length ids) s
    = Some (ids, []).
Proof.
  induction 1 as [|id ids Hid _ (s' & IH)]; [exists []; reflexivity|].
  apply matches_transfer_id_inv in Hid.
  destruct Hid as (la & lb & -> & La & Lb & Fa & Fb).
  set (pop := list_ascii_of_string ALL_ALPHA_NUMERIC).
  exists (tape_for pop la ++ tape_for pop lb ++ s').
  cbn [List.length transfer_ids.gen_random_kraken_transfer_identifiers].
  pose proof (transfer_gen_segment_tape la (tape_for pop lb ++ s') Fa) as Ha.
  pose proof (transfer_gen_segment_tape lb s' Fb) as Hb.
  rewrite La in Ha. rewrite Lb in Hb.
  change (Z.of_nat 7) with 7 in Ha. change (Z.of_nat 22) with 22 in Hb.
  fold pop in Ha, Hb.
  unfold bind. rewrite Ha, Hb, IH. reflexivity.
Qed.

End CoverageOfLists.

(* ================================================================== *)
(** * Closed orders: amounts, failure, and the two timestamps *)
(* ================================================================== *)

Section Amounts.

Lemma quantize_int n d : quantize (n * U) d = n * 10 ^ Z.of_nat d.
Proof.
  rewrite quantize_eq.
  replace (n * U * 10 ^ Z.of_nat d) with (n * 10 ^ Z.of_nat d * U) by lia.
  apply rne_div_exact, U_pos.
Qed.

(** A non-negative double prints without a sign, as the nearest multiple
    of [10^-d]. *)
Lemma format_f_nonneg x d :
  0 <= x ->
  exists c rest,
    format_f x d = String c rest /\ is_digit c = true
    /\ decimal_value (String c rest) = Some (quantize x d, d).
Proof.
  intros Hx. pose proof (format_f_value x d) as V.
  destruct (Z.ltb_spec x 0) as [|_]; [lia|].
  unfold format_f in *. destruct (Z.ltb_spec x 0) as [|_]; [lia|].
  assert (0 <= quantize (Z.abs x) d / 10 ^ Z.of_nat d) as Hq.
  { apply Z.div_pos; [apply quantize_nonneg; lia | lia]. }
  destruct (str_of_int_nonneg _ Hq) as (c & l & E & F & _).
  rewrite E in *. cbn [string_of_list_ascii append] in *.
  cbn [forallb] in F. apply andb_prop in F.
  eexists _, _. split; [reflexivity|]. split; [apply F | exact V].
Qed.

Lemma closed_order_record_amounts o c p v e d st :
  0 <= p -> 0 <= v -> 0 <= e ->
  let record := closed_order_record o c p v e d st in
  let n := Z.to_nat d in
  amount record "price" = Some (quantize p n, n)
  /\ amount record "vol" = Some (quantize v n, n)
  /\ amount record "vol_exec" = Some (quantize e n, n)
  /\ amount record "cost" = Some (quantize (fmul p e) n, n)
  /\ amount record "fee"
     = Some (quantize (fmul (literal 26 10000) (fmul p e)) n, n).
Proof.
  intros Hp Hv He. cbv zeta.
  assert (0 <= fmul p e) as C0 by (apply fmul_nonneg; lia).
  assert (0 <= fmul (literal 26 10000) (fmul p e)) as F0.
  { apply fmul_nonneg; [|exact C0].
    rewrite literal_eq by lia.
    apply round53_nonneg; [lia|]. pose proof U_pos. lia. }
  unfold amount.
  cbn [closed_order_record dict_get String.eqb Ascii.eqb Bool.eqb].
  destruct (format_f_nonneg p (Z.to_nat d) Hp) as (c1 & r1 & -> & -> & ->).
  destruct (format_f_nonneg v (Z.to_nat d) Hv) as (c2 & r2 & -> & -> & ->).
  destruct (format_f_nonneg e (Z.to_nat d) He) as (c3 & r3 & -> & -> & ->).
  destruct (format_f_nonneg _ (Z.to_nat d) C0) as (c4 & r4 & -> & -> & ->).
  destruct (format_f_nonneg _ (Z.to_nat d) F0) as (c5 & r5 & -> & -> & ->).
  repeat split.
Qed.

Lemma VOLUME_MIN_printed d :
  3 <= d <= 8 ->
  10 * quantize VOLUME_MIN (Z.to_nat d) = 10 ^ Z.of_nat (Z.to_nat d).
Proof.
  intros H.
  assert (d = 3 \/ d = 4 \/ d = 5 \/ d = 6 \/ d = 7 \/ d = 8) as C by lia.
  destruct C as [->|[->|[->|[->|[->| ->]]]]]; vm_compute; reflexivity.
Qed.

Lemma largest_cost :
  fmul (float_of_int PRICE_MAX) (float_of_int VOLUME_MAX) = 50000000 * U.
Proof. vm_compute. reflexivity. Qed.

Lemma largest_fee_printed d :
  3 <= d <= 8 ->
  quantize (fmul (literal 26 10000) (50000000 * U)) (Z.to_nat d)
  = 130000 * 10 ^ Z.of_nat (Z.to_nat d).
Proof.
  intros H.
  assert (d = 3 \/ d = 4 \/ d = 5 \/ d = 6 \/ d = 7 \/ d = 8) as C by lia.
  destruct C as [->|[->|[->|[->|[->| ->]]]]]; vm_compute; reflexivity.
Qed.

Lemma closed_order_amount_bounds p v e d :
  PRICE_MIN <= p <= float_of_int PRICE_MAX ->
  VOLUME_MIN <= v <= float_of_int VOLUME_MAX ->
  VOLUME_MIN <= e <= v ->
  3 <= d <= 8 ->
  let n := Z.to_nat d in
  let unit := 10 ^ Z.of_nat n in
  0 <= quantize p n <= 50000 * unit
  /\ unit <= 10 * quantize e n
  /\ quantize e n <= quantize v n <= 1000 * unit
  /\ 0 <= quantize (fmul p e) n <= 50000000 * unit
  /\ 0 <= quantize (fmul (literal 26 10000) (fmul p e)) n <= 130000 * unit.
Proof.
  intros Hp Hv He Hd. cbv zeta.
  pose proof PRICE_MIN_pos. pose proof VOLUME_MIN_pos. pose proof U_pos.
  assert (float_of_int PRICE_MAX = 50000 * U) as EP
    by (apply float_of_int_exact; reflexivity).
  assert (float_of_int VOLUME_MAX = 1000 * U) as EV
    by (apply float_of_int_exact; reflexivity).
  assert (0 <= literal 26 10000) as L0.
  { rewrite literal_eq by lia. apply round53_nonneg; lia. }
  assert (0 <= fmul p e) as C0 by (apply fmul_nonneg; lia).
  assert (fmul p e <= 50000000 * U) as C1.
  { rewrite <- largest_cost. apply fmul_mono.
    apply Z.mul_le_mono_nonneg; lia. }
  assert (0 <= fmul (literal 26 10000) (fmul p e)) as F0
    by (apply fmul_nonneg; lia).
  assert (fmul (literal 26 10000) (fmul p e)
          <= fmul (literal 26 10000) (50000000 * U)) as F1.
  { apply fmul_mono. apply Z.mul_le_mono_nonneg_l; lia. }
  repeat split.
  - apply quantize_nonneg; lia.
  - rewrite <- quantize_int. apply quantize_mono. lia.
  - rewrite <- (VOLUME_MIN_printed d Hd).
    apply Z.mul_le_mono_nonneg_l; [lia|]. apply quantize_mono, He.
  - apply quantize_mono, He.
  - rewrite <- quantize_int. apply quantize_mono. lia.
  - apply quantize_nonneg, C0.
  - rewrite <- quantize_int. apply quantize_mono, C1.
  - apply quantize_nonneg, F0.
  - rewrite <- (largest_fee_printed d Hd). apply quantize_mono, F1.
Qed.

End Amounts.

Section NoException.

Lemma ends_in_zeros_tail k w s :
  ends_in_zeros (S k) (w :: s) -> ends_in_zeros k s.
Proof.
  intros ([|w' p] & E).
  - exists []. cbn [app repeat] in *. congruence.
  - exists (p ++ [0]). cbn [app] in E. inversion E.
    rewrite <- app_assoc. reflexivity.
Qed.

Lemma ends_in_zeros_cons k s :
  ends_in_zeros (S k) s -> exists w s', s = w :: s'.
Proof.
  intros ([|w p] & ->); cbn [app repeat]; eexists _, _; reflexivity.
Qed.

Lemma bind_returns {A B} (m : M A) (f : A -> M B) s a s1 r :
  m s = Some (a, s1) -> f a s1 = r -> bind m f s = r.
Proof. intros H1 H2. unfold bind. rewrite H1. exact H2. Qed.

Lemma random_zeros k s :
  ends_in_zeros (S (S k)) s ->
  exists r s', random s = Some (r, s') /\ ends_in_zeros k s'.
Proof.
  intros H. destruct (ends_in_zeros_cons _ _ H) as (w1 & s1 & ->).
  apply ends_in_zeros_tail in H.
  destruct (ends_in_zeros_cons _ _ H) as (w2 & s2 & ->).
  apply ends_in_zeros_tail in H.
  destruct (random_total w1 w2 s2) as [r Hr]. eauto.
Qed.

(** The rejection loop of [_randbelow] ends at the first zero word at the
    latest. *)
Lemma _randbelow_zeros n k s :
  0 < n -> ends_in_zeros (S k) s ->
  exists r s', _randbelow n s = Some (r, s') /\ ends_in_zeros k s'.
Proof.
  intros Hn (p & ->). induction p as [|w p IH].
  - cbn [app repeat _randbelow]. rewrite Z.mod_0_l by lia.
    rewrite Z.shiftr_0_l. destruct (Z.ltb_spec 0 n); [|lia].
    eexists _, _. split; [reflexivity | exists []; reflexivity].
  - cbn [app _randbelow].
    destruct (Z.shiftr (w mod 2 ^ 32) (32 - bit_length n) <? n).
    + eexists _, _. split; [reflexivity|].
      exists (p ++ [0]). rewrite <- app_assoc. reflexivity.
    + exact IH.
Qed.

Lemma gen_random_timestamp_zeros tz start end_ k s :
  ends_in_zeros (S (S k)) s ->
  exists v s',
    gen_random_timestamp tz start end_ s = Some (v, s')
    /\ ends_in_zeros k s'.
Proof.
  intros H. destruct (random_zeros _ _ H) as (r & s' & Hr & Z).
  unfold gen_random_timestamp. cbv zeta.
  eexists _, s'. split; [|exact Z].
  eapply bind_returns; [exact Hr | reflexivity].
Qed.

Lemma uniform_zeros a b k s :
  ends_in_zeros (S (S k)) s ->
  exists x s', uniform a b s = Some (x, s') /\ ends_in_zeros k s'.
Proof.
  intros H. destruct (random_zeros _ _ H) as (r & s' & Hr & Z).
  eexists _, s'. split; [|exact Z].
  eapply bind_returns; [exact Hr | reflexivity].
Qed.

Lemma randint_zeros a b k s :
  a <= b -> ends_in_zeros (S k) s ->
  exists r s', randint a b s = Some (r, s') /\ ends_in_zeros k s'.
Proof.
  intros Hab H. unfold randint.
  destruct (Z.ltb_spec 0 (b + 1 - a)); [|lia].
  destruct (_randbelow_zeros (b + 1 - a) k s ltac:(lia) H)
    as (r & s' & Hr & Z).
  eexists _, s'. split; [|exact Z].
  eapply bind_returns; [exact Hr | reflexivity].
Qed.

Lemma choice_zeros {A} (x0 : A) (seq : list A) k s :
  ends_in_zeros (S k) s ->
  exists x s', choice (x0 :: seq) s = Some (x, s') /\ ends_in_zeros k s'.
Proof.
  intros H. unfold choice.
  destruct (_randbelow_zeros (Z.of_nat (List.length (x0 :: seq))) k s
              ltac:(cbn [List.length]; lia) H) as (i & s' & Hi & Z).
  destruct (getitem_in_range (x0 :: seq) i (_randbelow_inv _ _ _ _ Hi))
    as [x Hx].
  exists x, s'. split; [|exact Z].
  eapply bind_returns; [exact Hi|]. rewrite Hx. reflexivity.
Qed.

Lemma format_returns x d :
  3 <= d <= 8 ->
  format x ("0." ++ str_of_int d ++ "f") = Some (format_f x (Z.to_nat d)).
Proof.
  intros H. unfold format. rewrite (decimal_formatter_parse d H).
  reflexivity.
Qed.

(** Nothing in [gen_random_closed_order] raises: on a tape that ends with
    twelve zero words, whatever comes before them, it returns. *)
Lemma gen_random_closed_order_zeros tz s :
  ends_in_zeros 12 s ->
  exists record s', gen_random_closed_order tz s = Some (record, s').
Proof.
  intros H.
  destruct (gen_random_timestamp_zeros tz START END _ _ H)
    as (o & s1 & Ho & H1).
  destruct (gen_random_timestamp_zeros tz (fromtimestamp tz o) END _ _ H1)
    as (c & s2 & Hc & H2).
  destruct (uniform_zeros PRICE_MIN (float_of_int PRICE_MAX) _ _ H2)
    as (p & s3 & Hp & H3).
  destruct (uniform_zeros VOLUME_MIN (float_of_int VOLUME_MAX) _ _ H3)
    as (v & s4 & Hv & H4).
  destruct (uniform_zeros VOLUME_MIN v _ _ H4) as (e & s5 & He & H5).
  destruct (randint_zeros 3 8 _ _ ltac:(lia) H5) as (d & s6 & Hd & H6).
  destruct (choice_zeros "canceled"%string ["closed"; "expired"]%string
              _ _ H6) as (st & s7 & Hst & _).
  pose proof (randint_inv _ _ _ _ _ Hd) as Rd.
  eexists _, s7. unfold gen_random_closed_order.
  eapply bind_returns; [exact Ho|].
  eapply bind_returns; [exact Hc|].
  eapply bind_returns; [exact Hp|].
  eapply bind_returns; [exact Hv|].
  eapply bind_returns; [exact He|]. cbv zeta.
  eapply bind_returns; [exact Hd|].
  eapply bind_returns; [exact Hst|].
  rewrite !(format_returns _ d Rd). reflexivity.
Qed.

End NoException.

Section RoundTrip.

Lemma grid_le a b : 0 <= b -> a < 2 ^ (53 + b) -> grid a <= b.
Proof.
  intros Hb Ha. unfold grid.
  destruct (Z_lt_le_dec 0 a) as [P|N].
  - apply Z.log2_lt_pow2 in Ha; lia.
  - rewrite Z.log2_nonpos by assumption. lia.
Qed.

(** Rounding to a double moves a number by half a spacing at most. *)
Lemma round53_error p q b :
  0 < q -> 0 <= b -> Z.abs p < q * 2 ^ (53 + b) ->
  2 * Z.abs (round53 p q * q - p) <= q * 2 ^ b.
Proof.
  intros Hq Hb Hp. unfold round53.
  set (k := grid (Z.abs p / q)).
  assert (0 <= k) as K0 by apply grid_nonneg.
  assert (k <= b) as Kb.
  { apply grid_le; [assumption|].
    apply Z.div_lt_upper_bound; assumption. }
  assert (0 < 2 ^ k) as Pk by (apply Z.pow_pos_nonneg; lia).
  assert (2 ^ k <= 2 ^ b) as Pb by (apply Z.pow_le_mono_r; lia).
  pose proof (rne_div_nearest p (q * 2 ^ k) ltac:(nia)) as N.
  replace (rne_div p (q * 2 ^ k) * 2 ^ k * q)
    with (rne_div p (q * 2 ^ k) * (q * 2 ^ k)) by ring.
  eapply Z.le_trans; [exact N|].
  apply Z.mul_le_mono_nonneg_l; lia.
Qed.

Variable tz : Z.

(** [datetime.fromtimestamp(t).timestamp()] is less than a microsecond
    below [t], for an instant [t] of the years the scripts use. *)
Lemma timestamp_fromtimestamp_near t :
  0 <= t < 2 ^ 31 * U ->
  1000000 * (t - timestamp tz (fromtimestamp tz t)) < U.
Proof.
  intros Ht. pose proof U_pos as HU.
  unfold fromtimestamp. rewrite modf_eq, round_half_even_eq.
  rewrite Z.rem_mod_nonneg, Z.quot_div_nonneg by lia.
  pose proof (Z.div_mod t U ltac:(lia)) as E.
  pose proof (Z.mod_pos_bound t U HU) as B.
  assert (0 <= t / U) as Q0 by (apply Z.div_pos; lia).
  assert (t / U < 2 ^ 31) as Q1 by (apply Z.div_lt_upper_bound; lia).
  set (q := t / U) in *. set (fr := t mod U) in *.
  set (x := fmul fr (float_of_int 1000000)).
  assert (x = round53 (fr * 1000000) 1) as Ex.
  { subst x. rewrite float_1e6, fmul_eq. apply round53_ext; lia. }
  assert (0 <= x <= 1000000 * U) as Hx.
  { rewrite Ex. split.
    - apply round53_nonneg; lia.
    - rewrite <- (round53_id (1000000 * U))
        by (apply representable_int; reflexivity).
      apply round53_mono_num; lia. }
  assert (0 <= rne_div x U <= 1000000) as Hus.
  { split; [apply rne_div_ge_int | apply rne_div_le_int]; lia. }
  pose proof (rne_div_nearest x U HU) as N2.
  set (us := rne_div x U) in *.
  destruct (Z.leb_spec 1000000 us) as [C|C].
  - assert (us = 1000000) as -> by lia.
    unfold timestamp. cbn [dt_second dt_microsecond].
    change (1000000 - 1000000) with 0. rewrite zero_microseconds.
    replace (q + 1 + tz - tz) with (q + 1) by lia.
    rewrite float_of_int_exact by lia.
    rewrite fadd_0_r by (apply representable_int; lia). nia.
  - destruct (Z.ltb_spec us 0) as [Neg|_]; [lia|].
    unfold timestamp. cbn [dt_second dt_microsecond].
    replace (q + tz - tz) with q by lia.
    rewrite (float_of_int_exact q) by lia.
    pose proof (microsecond_fraction us ltac:(lia)) as G.
    assert (fdiv (float_of_int us) (float_of_int 1000000)
            = round53 (us * U) 1000000) as Eg.
    { rewrite float_1e6, (float_of_int_exact us) by lia.
      rewrite fdiv_eq by lia.
      rewrite Z.sgn_pos, Z.abs_eq, Z.mul_1_l by lia.
      apply round53_ext; lia. }
    set (g := fdiv (float_of_int us) (float_of_int 1000000)) in *.
    rewrite fadd_eq.
    assert (2 ^ 1020 > 0) as V by reflexivity.
    assert (U = 2 ^ 54 * 2 ^ 1020) as EU by reflexivity.
    pose proof (round53_error (fr * 1000000) 1 1041 ltac:(lia) ltac:(lia))
      as N1.
    change (2 ^ (53 + 1041)) with (2 ^ 20 * U) in N1.
    change (2 ^ 1041) with (2 ^ 21 * 2 ^ 1020) in N1.
    rewrite <- Ex in N1. specialize (N1 ltac:(lia)).
    pose proof (round53_error (us * U) 1000000 1021 ltac:(lia) ltac:(lia))
      as N3.
    change (2 ^ (53 + 1021)) with U in N3.
    change (2 ^ 1021) with (2 * 2 ^ 1020) in N3.
    rewrite <- Eg in N3. specialize (N3 ltac:(nia)).
    pose proof (round53_error (q * U + g) 1 1052 ltac:(lia) ltac:(lia))
      as N4.
    change (2 ^ (53 + 1052)) with (2 ^ 31 * U) in N4.
    change (2 ^ 1052) with (2 ^ 32 * 2 ^ 1020) in N4.
    specialize (N4 ltac:(nia)).
    set (ts := round53 (q * U + g) 1) in *.
    set (W := us * U) in *. set (Q := q * U) in *.
    rewrite E. replace (U * q) with Q by (subst Q; lia).
    rewrite EU in *. set (v := 2 ^ 1020) in *.
    clearbody v ts W Q g x. clear - N1 N2 N3 N4 V B. lia.
Qed.

End RoundTrip.

(* ================================================================== *)
(** * The scripts run as programs *)
(* ================================================================== *)

Section Programs.

Lemma string_app_assoc (a b c : string) :
  ((a ++ b) ++ c)%string = (a ++ (b ++ c))%string.
Proof. induction a; simpl; congruence. Qed.

Lemma string_app_nil_r (a : string) : (a ++ "")%string = a.
Proof. induction a; simpl; congruence. Qed.

(** A line that holds no line feed is read back whole. *)
Lemma lines_from_line cur x rest :
  forallb (fun c => negb (Ascii.eqb c "010")) (list_ascii_of_string x)
  = true ->
  lines_from cur (x ++ newline ++ rest)
  = (cur ++ x)%string :: lines_from EmptyString rest.
Proof.
  revert cur. induction x as [|c x IH]; intros cur H.
  - cbn [append newline lines_from]. rewrite Ascii.eqb_refl.
    rewrite string_app_nil_r. reflexivity.
  - cbn [list_ascii_of_string forallb] in H. apply andb_prop in H.
    destruct H as [Hc Hx]. apply negb_true_iff in Hc.
    cbn [append lines_from]. rewrite Hc, (IH _ Hx).
    rewrite string_app_assoc. reflexivity.
Qed.

Lemma printed_text ids acc :
  fold_left (fun stdout uuid => print uuid stdout) ids acc
  = (acc ++ fold_right (fun id t => id ++ newline ++ t) "" ids)%string.
Proof.
  revert acc. induction ids as [|id ids IH]; intros acc.
  - cbn. rewrite string_app_nil_r. reflexivity.
  - cbn [fold_left fold_right]. rewrite IH. unfold print.
    rewrite !string_app_assoc. reflexivity.
Qed.

(** Printing strings that hold no line feed, one per call, writes them as
    the lines of standard output. *)
Lemma lines_printed ids :
  Forall (fun id => forallb (fun c => negb (Ascii.eqb c "010"))
                      (list_ascii_of_string id) = true) ids ->
  lines (fold_left (fun stdout uuid => print uuid stdout) ids EmptyString)
  = ids.
Proof.
  intros H. rewrite printed_text. cbn [append]. unfold lines.
  induction H as [|id ids Hid _ IH]; [reflexivity|].
  cbn [fold_right]. rewrite (lines_from_line _ _ _ Hid), IH. reflexivity.
Qed.

Lemma upper_alnum_no_newline c :
  is_upper_alnum c = true -> negb (Ascii.eqb c "010") = true.
Proof.
  intros H. destruct (Ascii.eqb_spec c "010"); [subst; discriminate H|].
  reflexivity.
Qed.

Lemma alnum_no_newline c :
  is_alnum c = true -> negb (Ascii.eqb c "010") = true.
Proof.
  intros H. destruct (Ascii.eqb_spec c "010"); [subst; discriminate H|].
  reflexivity.
Qed.

Lemma forallb_impl {A} (f g : A -> bool) l :
  (forall x, f x = true -> g x = true) ->
  forallb f l = true -> forallb g l = true.
Proof.
  intros I H. rewrite forallb_forall in *. auto.
Qed.

Lemma matches_order_id_no_newline id :
  matches_order_id id = true ->
  forallb (fun c => negb (Ascii.eqb c "010")) (list_ascii_of_string id)
  = true.
Proof.
  unfold matches_order_id. intros H.
  destruct (list_ascii_of_string id)
    as [|a1 [|a2 [|a3 [|a4 [|a5 [|a6 [|d1 [|b1 [|b2 [|b3 [|b4 [|b5 [|d2
        [|c1 [|c2 [|c3 [|c4 [|c5 [|c6 [|]]]]]]]]]]]]]]]]]]]];
    try discriminate H.
  apply andb_prop in H. destruct H as [H Fc].
  apply andb_prop in H. destruct H as [H E2].
  apply andb_prop in H. destruct H as [H Fb].
  apply andb_prop in H. destruct H as [Fa E1].
  apply Ascii.eqb_eq in E1, E2. subst d1 d2.
  apply (forallb_impl _ _ _ upper_alnum_no_newline) in Fa, Fb, Fc.
  change (forallb (fun c => negb (Ascii.eqb c "010"))
            ([a1; a2; a3; a4; a5; a6] ++ ["-"%char]
             ++ [b1; b2; b3; b4; b5] ++ ["-"%char]
             ++ [c1; c2; c3; c4; c5; c6]) = true).
  rewrite !forallb_app, Fa, Fb, Fc. reflexivity.
Qed.

Lemma matches_transfer_id_no_newline id :
  matches_transfer_id id = true ->
  forallb (fun c => negb (Ascii.eqb c "010")) (list_ascii_of_string id)
  = true.
Proof.
  intros H. apply matches_transfer_id_inv in H.
  destruct H as (la & lb & -> & _ & _ & Fa & Fb).
  apply (forallb_impl _ _ _ alnum_no_newline) in Fa, Fb.
  rewrite !list_ascii_of_string_app, !list_ascii_of_string_of_list_ascii.
  rewrite !forallb_app, Fa, Fb. reflexivity.
Qed.

Lemma order_ids_main_reads s :
  match order_ids_main s with
  | Some (stdout, s') =>
      List.length (lines stdout) = 19%nat
      /\ Forall (fun line => matches_order_id line = true) (lines stdout)
      /\ (646 <= List.length s)%nat /\ s' = skipn 646 s
  | None => (List.length s < 646)%nat
  end.
Proof.
  unfold order_ids_main, bind.
  pose proof (gen_random_kraken_identifiers_reads 19 s) as H.
  destruct (gen_random_kraken_identifiers 19 s) as [[ids s']|];
    [|exact H].
  destruct H as (L & F & R & ->). cbn [ret].
  rewrite lines_printed.
  - repeat split; assumption.
  - eapply Forall_impl; [|exact F].
    intros id. apply matches_order_id_no_newline.
Qed.

Lemma transfer_ids_main_reads s :
  match transfer_ids_main s with
  | Some (stdout, s') =>
      List.length (lines stdout) = 3%nat
      /\ Forall (fun line => matches_transfer_id line = true) (lines stdout)
      /\ (174 <= List.length s)%nat /\ s' = skipn 174 s
  | None => (List.length s < 174)%nat
  end.
Proof.
  unfold transfer_ids_main, bind.
  pose proof (gen_random_kraken_transfer_identifiers_reads 3 s) as H.
  destruct (transfer_ids.gen_random_kraken_transfer_identifiers 3 s)
    as [[ids s']|]; [|exact H].
  destruct H as (L & F & R & ->). cbn [ret].
  rewrite lines_printed.
  - repeat split; assumption.
  - eapply Forall_impl; [|exact F].
    intros id. apply matches_transfer_id_no_newline.
Qed.

(** *** The mapping of closed orders *)

Lemma dict_set_keys d key value :
  map fst (dict_set d key value)
  = if existsb (String.eqb key) (map fst d) then map fst d
    else map fst d ++ [key].
Proof.
  induction d as [|[k v] d IH]; [reflexivity|].
  cbn [dict_set map fst existsb]. rewrite (String.eqb_sym key k).
  destruct (String.eqb k key); [reflexivity|].
  cbn [map fst orb]. rewrite IH.
  destruct (existsb _ _); reflexivity.
Qed.

Lemma dict_set_NoDup d key value :
  NoDup (map fst d) -> NoDup (map fst (dict_set d key value)).
Proof.
  intros H. rewrite dict_set_keys.
  destruct (existsb (String.eqb key) (map fst d)) eqn:E; [exact H|].
  apply NoDup_app; [exact H | repeat constructor; intros [] |].
  intros k Hk [<-|[]].
  assert (existsb (String.eqb key) (map fst d) = true); [|congruence].
  apply existsb_exists. exists key. split; [exact Hk|].
  apply String.eqb_refl.
Qed.

Lemma dict_set_length d key value :
  (List.length d <= List.length (dict_set d key value)
   <= S (List.length d))%nat.
Proof.
  rewrite <- !(length_map fst), dict_set_keys.
  destruct (existsb _ _); [lia|]. rewrite length_app. cbn. lia.
Qed.

Lemma dict_set_nonempty d key value : dict_set d key value <> [].
Proof. destruct d as [|[k v] d]; cbn; [|destruct (String.eqb k key)];
  discriminate. Qed.

Lemma dict_set_Forall (P : string * pyvalue -> Prop) d key value :
  Forall P d -> P (key, value) -> Forall P (dict_set d key value).
Proof.
  intros H Hk. induction H as [|[k v] d Hkv Hd IH].
  - repeat constructor. exact Hk.
  - cbn [dict_set]. destruct (String.eqb_spec k key) as [->|_].
    + constructor; assumption.
    + constructor; assumption.
Qed.

End Programs.

Section Orders.

Lemma orders_comprehension_inv tz n d0 s d s' :
  orders_comprehension tz n d0 s = Some (d, s') ->
  NoDup (map fst d0) -> Forall (is_order_item tz) d0 ->
  NoDup (map fst d) /\ Forall (is_order_item tz) d
  /\ (List.length d0 <= List.length d <= List.length d0 + n)%nat
  /\ (n <> O -> d <> []).
Proof.
  revert d0 s. induction n as [|n IH]; intros d0 s H N F.
  - apply ret_inv in H. destruct H as [-> _].
    split; [exact N|]. split; [exact F|]. split; [lia|].
    intros C. contradiction C. reflexivity.
  - cbn [orders_comprehension] in H.
    inv_bind H. rename a into key, D into Hkey.
    inv_bind H. rename a into value, D into Hvalue.
    pose proof (dict_set_length d0 key (PDict value)) as L.
    apply IH in H.
    + destruct H as (N' & F' & L' & _).
      split; [exact N'|]. split; [exact F'|]. split; [lia|].
      intros _ ->. cbn [List.length] in L'.
      pose proof (dict_set_nonempty d0 key (PDict value)) as NE.
      destruct (dict_set d0 key (PDict value)); [congruence|].
      cbn [List.length] in L'. lia.
    + apply dict_set_NoDup, N.
    + apply dict_set_Forall; [exact F|]. split.
      * exact (gen_order_id_matches _ _ _ Hkey).
      * exists value, s0, s1. split; [reflexivity | exact Hvalue].
Qed.

(** The two timestamps of a record: [open] lies in the window, and
    [close] is at least the timestamp of [fromtimestamp(open)]. *)
Lemma closed_order_window tz o c s s1 s2 :
  -86400 < tz < 86400 ->
  gen_random_timestamp tz START END s = Some (o, s1) ->
  gen_random_timestamp tz (fromtimestamp tz o) END s1 = Some (c, s2) ->
  (1577836800 - tz) * U <= o <= (1704067200 - tz) * U
  /\ timestamp tz (fromtimestamp tz o) <= c.
Proof.
  intros Htz Ho Hc.
  pose proof (gen_random_timestamp_range tz Htz _ _ _ _ _
                START_valid END_valid START_le_END Ho) as Ro.
  assert (dt_second START = 1577836800) as S0 by reflexivity.
  assert (dt_second END = 1704067200) as S1 by reflexivity.
  rewrite (timestamp_whole_second tz Htz START START_valid eq_refl) in *.
  rewrite (timestamp_whole_second tz Htz END END_valid eq_refl) in *.
  rewrite S0, S1 in *. split; [exact Ro|].
  destruct (fromtimestamp_between tz (1577836800 - tz) (1704067200 - tz) o
              ltac:(lia) ltac:(lia) Ro) as (Bs & Bu & Btop).
  set (D := fromtimestamp tz o) in *.
  assert (valid_datetime D) as VD by (unfold valid_datetime; lia).
  assert (dt_le D END = true) as L2.
  { unfold dt_le. rewrite S1. change (dt_microsecond END) with 0.
    destruct (Z.ltb_spec (dt_second D) 1704067200); [reflexivity|].
    destruct (Z.eqb_spec (dt_second D) 1704067200); [|lia].
    destruct (Z.leb_spec (dt_microsecond D) 0); [reflexivity|].
    specialize (Btop ltac:(lia)). lia. }
  apply (gen_random_timestamp_range tz Htz _ _ _ _ _ VD END_valid L2 Hc).
Qed.

End Orders.

Section Fee.

(** The printed fee against the printed cost: four roundings separate
    them (the literal [0.0026], the product, and the two numerals), and
    together they move [10000 * fee - 26 * cost] by little more than half
    of [10000] units of the last digit. *)
Lemma printed_fee_bound P c f cn fn L :
  0 < P <= 10 ^ 8 -> 0 <= c <= 50000000 * U ->
  2 * Z.abs (cn * U - c * P) <= U ->
  2 * Z.abs (fn * U - f * P) <= U ->
  2 * Z.abs (f * U - L * c) <= U * 2 ^ 1038 ->
  2 * Z.abs (10000 * L - 26 * U) <= 10000 * 2 ^ 1013 ->
  Z.abs (10000 * fn - 26 * cn) <= 5032.
Proof.
  intros HP Hc N4 N1 N2 N3. pose proof U_pos as HU.
  set (A1 := fn * U - f * P) in *. set (A2 := f * U - L * c) in *.
  set (A3 := 10000 * L - 26 * U) in *. set (A4 := cn * U - c * P) in *.
  assert ((10000 * fn - 26 * cn) * (U * U)
          = 10000 * (U * A1) + 10000 * (P * A2) + P * c * A3
            - 26 * (U * A4)) as I by (subst A1 A2 A3 A4; ring).
  assert (2 * Z.abs (U * A1) <= U * U) as B1.
  { rewrite Z.abs_mul, (Z.abs_eq U) by lia.
    replace (2 * (U * Z.abs A1)) with (U * (2 * Z.abs A1)) by ring.
    apply Z.mul_le_mono_nonneg_l; lia. }
  assert (2 * Z.abs (U * A4) <= U * U) as B4.
  { rewrite Z.abs_mul, (Z.abs_eq U) by lia.
    replace (2 * (U * Z.abs A4)) with (U * (2 * Z.abs A4)) by ring.
    apply Z.mul_le_mono_nonneg_l; lia. }
  assert (U * 2 ^ 1038 = 2 * (U * 2 ^ 1037)) as E2 by reflexivity.
  assert (Z.abs (P * A2) <= 10 ^ 8 * (U * 2 ^ 1037)) as B2.
  { rewrite Z.abs_mul, (Z.abs_eq P) by lia.
    apply Z.mul_le_mono_nonneg; lia. }
  assert (10000 * 2 ^ 1013 = 2 * (5000 * 2 ^ 1013)) as E3 by reflexivity.
  assert (Z.abs (P * c * A3)
          <= 10 ^ 8 * (50000000 * U) * (5000 * 2 ^ 1013)) as B3.
  { rewrite !Z.abs_mul, (Z.abs_eq P), (Z.abs_eq c) by lia.
    apply Z.mul_le_mono_nonneg; [| |lia|lia].
    - apply Z.mul_nonneg_nonneg; lia.
    - apply Z.mul_le_mono_nonneg; lia. }
  assert (10000 * (10 ^ 8 * (U * 2 ^ 1037)) <= 8 * (U * U)) as K2
    by (apply Z.leb_le; vm_compute; reflexivity).
  assert (10 ^ 8 * (50000000 * U) * (5000 * 2 ^ 1013) <= 11 * (U * U)) as K3
    by (apply Z.leb_le; vm_compute; reflexivity).
  assert (0 < U * U) as W0 by (apply Z.mul_pos_pos; lia).
  destruct (Z_le_gt_dec (Z.abs (10000 * fn - 26 * cn)) 5032) as [|G];
    [assumption|].
  assert (5033 * (U * U) <= Z.abs ((10000 * fn - 26 * cn) * (U * U))) as C.
  { rewrite Z.abs_mul, (Z.abs_eq (U * U)) by lia.
    apply Z.mul_le_mono_nonneg_r; lia. }
  rewrite I in C.
  set (W := U * U) in *. set (a1 := U * A1) in *. set (a4 := U * A4) in *.
  set (a2 := P * A2) in *. set (a3 := P * c * A3) in *.
  set (k2 := 10 ^ 8 * (U * 2 ^ 1037)) in *.
  set (k3 := 10 ^ 8 * (50000000 * U) * (5000 * 2 ^ 1013)) in *.
  clearbody W a1 a2 a3 a4 k2 k3. clear - C B1 B2 B3 B4 K2 K3 W0. lia.
Qed.

Lemma closed_order_cost_range p e v :
  PRICE_MIN <= p <= float_of_int PRICE_MAX ->
  VOLUME_MIN <= v <= float_of_int VOLUME_MAX ->
  VOLUME_MIN <= e <= v ->
  0 <= fmul p e <= 50000000 * U.
Proof.
  intros Hp Hv He.
  pose proof PRICE_MIN_pos. pose proof VOLUME_MIN_pos. pose proof U_pos.
  assert (float_of_int PRICE_MAX = 50000 * U) as EP
    by (apply float_of_int_exact; reflexivity).
  assert (float_of_int VOLUME_MAX = 1000 * U) as EV
    by (apply float_of_int_exact; reflexivity).
  split; [apply fmul_nonneg; lia|].
  rewrite <- largest_cost. apply fmul_mono.
  apply Z.mul_le_mono_nonneg; lia.
Qed.

Lemma fee_product_error c :
  0 <= c <= 50000000 * U ->
  2 * Z.abs (fmul (literal 26 10000) c * U - literal 26 10000 * c)
  <= U * 2 ^ 1038.
Proof.
  intros Hc. pose proof U_pos as HU. rewrite fmul_eq.
  assert (0 <= literal 26 10000) as L0.
  { rewrite literal_eq by lia. apply round53_nonneg; lia. }
  assert (literal 26 10000 * 50000000 < 2 ^ 1091) as L1
    by (apply Z.ltb_lt; vm_compute; reflexivity).
  apply round53_error; [lia | lia |].
  change (2 ^ (53 + 1038)) with (2 ^ 1091).
  rewrite Z.abs_eq by (apply Z.mul_nonneg_nonneg; lia).
  apply Z.le_lt_trans with (literal 26 10000 * (50000000 * U)).
  - apply Z.mul_le_mono_nonneg_l; lia.
  - rewrite Z.mul_assoc, (Z.mul_comm U).
    apply Z.mul_lt_mono_pos_r; lia.
Qed.

Lemma fee_literal_error :
  2 * Z.abs (10000 * literal 26 10000 - 26 * U) <= 10000 * 2 ^ 1013.
Proof. apply Z.leb_le. vm_compute. reflexivity. Qed.

End Fee.

(* ================================================================== *)
(** * Further properties of the scripts *)
(* ================================================================== *)

(** ** scripts/order_ids.py *)

(** X2.  [gen_order_id()] makes seventeen draws of [random()]: it reads
    exactly 34 words of the random source, and it returns whenever the
    source has them (no index leaves the alphabet, so nothing is raised). *)
Theorem gen_order_id_reads_34_words s :
  match gen_order_id s with
  | Some (_, s') => (34 <= List.length s)%nat /\ s' = skipn 34 s
  | None => (List.length s < 34)%nat
  end.
Proof. exact (gen_order_id_reads s). Qed.

(** X3.  [order_ids.gen_segment(n)] returns a string of [max(n, 0)] symbols
    of [A-Z0-9] for two words of the random source each, so the empty
    string for [n <= 0]; it fails only when the source is exhausted. *)
Theorem order_ids_gen_segment_spec n s :
  match order_ids.gen_segment n s with
  | Some (str, s') =>
      String.length str = Z.to_nat n
      /\ forallb is_upper_alnum (list_ascii_of_string str) = true
      /\ (2 * Z.to_nat n <= List.length s)%nat
      /\ s' = skipn (2 * Z.to_nat n) s
  | None => (List.length s < 2 * Z.to_nat n)%nat
  end.
Proof.
  pose proof (order_gen_segment_reads n s) as H.
  destruct (order_ids.gen_segment n s) as [[str s']|]; [|exact H].
  destruct H as ((cs & -> & L & F) & R & E).
  rewrite string_length_of_list, list_ascii_of_string_of_list_ascii.
  repeat split; assumption.
Qed.

(** X4.  [gen_random_kraken_identifiers(n)] returns a list of exactly [n]
    strings, each matching [[A-Z0-9]{6}-[A-Z0-9]{5}-[A-Z0-9]{6}], for
    [34 * n] words of the random source; it fails only when the source is
    exhausted. *)
Theorem gen_random_kraken_identifiers_spec n s :
  match gen_random_kraken_identifiers n s with
  | Some (ids, s') =>
      List.length ids = n
      /\ Forall (fun id => matches_order_id id = true) ids
      /\ (34 * n <= List.length s)%nat /\ s' = skipn (34 * n) s
  | None => (List.length s < 34 * n)%nat
  end.
Proof. exact (gen_random_kraken_identifiers_reads n s). Qed.

(** X5.  Every string that matches
    [[A-Z0-9]{6}-[A-Z0-9]{5}-[A-Z0-9]{6}] is a possible result of
    [gen_order_id()]: each symbol of the alphabet, the last one included,
    is reached by some draw.  With C8, the results of [gen_order_id] are
    exactly the strings of the pattern. *)
Theorem gen_order_id_covers_pattern id :
  matches_order_id id = true -> exists s, gen_order_id s = Some (id, []).
Proof. exact (gen_order_id_onto id). Qed.

Lemma gen_order_id_covers_pattern_witness :
  matches_order_id "OZ9A0B-7KPQX-ZZ0099" = true
  /\ exists s, gen_order_id s = Some ("OZ9A0B-7KPQX-ZZ0099"%string, []).
Proof.
  split; [reflexivity|].
  apply (gen_order_id_covers_pattern "OZ9A0B-7KPQX-ZZ0099"). reflexivity.
Defined.

(** X6.  Every list of at most 18 strings that match the order identifier
    pattern is a possible result of [gen_random_kraken_identifiers(n)],
    for [n] the length of the list, lists with repeated identifiers
    included: it is returned from [34 * n] words, at most 623, and the
    twister delivers every sequence of up to 623 words from some state. *)
Theorem gen_random_kraken_identifiers_cover_pattern ids :
  Forall (fun id => matches_order_id id = true) ids ->
  (List.length ids <= 18)%nat ->
  exists s,
    (List.length s <= 623)%nat
    /\ gen_random_kraken_identifiers (List.length ids) s = Some (ids, []).
Proof.
  intros F L.
  destruct (gen_random_kraken_identifiers_onto ids F) as (s & H).
  exists s. split; [|exact H].
  pose proof (gen_random_kraken_identifiers_reads (List.length ids) s) as R.
  rewrite H in R. destruct R as (_ & _ & _ & R).
  apply (f_equal (@List.length Z)) in R. rewrite length_skipn in R.
  cbn [List.length] in R. lia.
Qed.

Lemma gen_random_kraken_identifiers_cover_pattern_witness :
  exists s,
    (List.length s <= 623)%nat
    /\ gen_random_kraken_identifiers 2 s
       = Some (["AAAAAA-00000-ZZZZZZ"; "AAAAAA-00000-ZZZZZZ"]%string, []).
Proof.
  apply (gen_random_kraken_identifiers_cover_pattern
           ["AAAAAA-00000-ZZZZZZ"; "AAAAAA-00000-ZZZZZZ"]%string).
  - repeat constructor.
  - cbn [List.length]. lia.
Defined.

(** X7.  Run as a program, scripts/order_ids.py writes nineteen lines to
    standard output, each an identifier matching
    [[A-Z0-9]{6}-[A-Z0-9]{5}-[A-Z0-9]{6}], and reads 646 words of the
    random source. *)
Theorem order_ids_main_prints_19_identifiers s :
  match order_ids_main s with
  | Some (stdout, s') =>
      List.length (lines stdout) = 19%nat
      /\ Forall (fun line => matches_order_id line = true) (lines stdout)
      /\ (646 <= List.length s)%nat /\ s' = skipn 646 s
  | None => (List.length s < 646)%nat
  end.
Proof. exact (order_ids_main_reads s). Qed.

(** ** scripts/transfer_ids.py *)

(** X8.  [transfer_ids.gen_segment(n)] returns a string of [max(n, 0)]
    symbols of [A-Za-z0-9] for two words of the random source each; it
    fails only when the source is exhausted. *)
Theorem transfer_ids_gen_segment_spec n s :
  match transfer_ids.gen_segment n s with
  | Some (str, s') =>
      String.length str = Z.to_nat n
      /\ forallb is_alnum (list_ascii_of_string str) = true
      /\ (2 * Z.to_nat n <= List.length s)%nat
      /\ s' = skipn (2 * Z.to_nat n) s
  | None => (List.length s < 2 * Z.to_nat n)%nat
  end.
Proof.
  pose proof (transfer_gen_segment_reads n s) as H.
  destruct (transfer_ids.gen_segment n s) as [[str s']|]; [|exact H].
  destruct H as ((cs & -> & L & F) & R & E).
  rewrite string_length_of_list, list_ascii_of_string_of_list_ascii.
  repeat split; assumption.
Qed.

(** X9.  [gen_random_kraken_transfer_identifiers(n)] returns a list of
    exactly [n] strings, each matching [[A-Za-z0-9]{7}-[A-Za-z0-9]{22}],
    for [58 * n] words of the random source; it fails only when the source
    is exhausted. *)
Theorem gen_random_kraken_transfer_identifiers_spec n s :
  match transfer_ids.gen_random_kraken_transfer_identifiers n s with
  | Some (ids, s') =>
      List.length ids = n
      /\ Forall (fun id => matches_transfer_id id = true) ids
      /\ (58 * n <= List.length s)%nat /\ s' = skipn (58 * n) s
  | None => (List.length s < 58 * n)%nat
  end.
Proof. exact (gen_random_kraken_transfer_identifiers_reads n s). Qed.

(** X10.  Every list of at most 10 strings that match
    [[A-Za-z0-9]{7}-[A-Za-z0-9]{22}] is a possible result of
    [gen_random_kraken_transfer_identifiers(n)], for [n] the length of the
    list: it is returned from [58 * n] words, at most 623, and the twister
    delivers every sequence of up to 623 words from some state. *)
Theorem gen_random_kraken_transfer_identifiers_cover_pattern ids :
  Forall (fun id => matches_transfer_id id = true) ids ->
  (List.length ids <= 10)%nat ->
  exists s,
    (List.length s <= 623)%nat
    /\ transfer_ids.gen_random_kraken_transfer_identifiers
         (List.length ids) s
       = Some (ids, []).
Proof.
  intros F L.
  destruct (gen_random_kraken_transfer_identifiers_onto ids F) as (s & H).
  exists s. split; [|exact H].
  pose proof (gen_random_kraken_transfer_identifiers_reads
                (List.length ids) s) as R.
  rewrite H in R. destruct R as (_ & _ & _ & R).
  apply (f_equal (@List.length Z)) in R. rewrite length_skipn in R.
  cbn [List.length] in R. lia.
Qed.

Lemma gen_random_kraken_transfer_identifiers_cover_pattern_witness :
  exists s,
    (List.length s <= 623)%nat
    /\ transfer_ids.gen_random_kraken_transfer_identifiers 1 s
       = Some (["AbCdEf9-zZ00aAyY11bBxX22cCwW33"%string], []).
Proof.
  apply (gen_random_kraken_transfer_identifiers_cover_pattern
           ["AbCdEf9-zZ00aAyY11bBxX22cCwW33"%string]).
  - repeat constructor.
  - cbn [List.length]. lia.
Defined.

(** X11.  Run as a program, scripts/transfer_ids.py writes three lines to
    standard output, each matching [[A-Za-z0-9]{7}-[A-Za-z0-9]{22}], and
    reads 174 words of the random source. *)
Theorem transfer_ids_main_prints_3_identifiers s :
  match transfer_ids_main s with
  | Some (stdout, s') =>
      List.length (lines stdout) = 3%nat
      /\ Forall (fun line => matches_transfer_id line = true) (lines stdout)
      /\ (174 <= List.length s)%nat /\ s' = skipn 174 s
  | None => (List.length s < 174)%nat
  end.
Proof. exact (transfer_ids_main_reads s). Qed.

(** ** scripts/timestamps.py *)

(** X12.  [gen_random_timestamp] does not check the order of its
    arguments, and raises only when one of the calls of [timestamp()]
    does: otherwise it returns as soon as the source has two words, and
    for [end.timestamp() <= start.timestamp()] the value lies between
    [end.timestamp()] and [start.timestamp()], bounds included. *)
Theorem gen_random_timestamp_inverted_interval z start end_ s :
  match zoned.gen_random_timestamp z start end_ s with
  | Some (v, s') =>
      exists ts te,
        zoned.timestamp z start = Some ts
        /\ zoned.timestamp z end_ = Some te
        /\ (2 <= List.length s)%nat /\ s' = skipn 2 s
        /\ (fle te ts = true -> fle te v = true /\ fle v ts = true)
  | None =>
      zoned.timestamp z start = None \/ zoned.timestamp z end_ = None
      \/ (List.length s < 2)%nat
  end.
Proof.
  destruct (zoned.gen_random_timestamp z start end_ s) as [[v s']|] eqn:H.
  - destruct (zoned_gen_random_timestamp_inv _ _ _ _ _ _ H)
      as (ts & te & w1 & w2 & _ & Hs & He & -> & _).
    pose proof (zoned_gen_random_timestamp_between _ _ _ _ _ _ _ _ H Hs He)
      as B.
    exists ts, te. split; [exact Hs|]. split; [exact He|].
    split; [cbn; lia|]. split; [reflexivity|].
    unfold fle. intros L. apply Z.leb_le in L.
    split; apply Z.leb_le; lia.
  - destruct (zoned.timestamp z start) as [ts|] eqn:Hs; [|auto].
    destruct (zoned.timestamp z end_) as [te|] eqn:He; [|auto].
    right. right. destruct s as [|w1 [|w2 s]]; [cbn; lia | cbn; lia|].
    destruct (zoned_gen_random_timestamp_total z start end_ ts te w1 w2 s
                Hs He) as [v Hv].
    congruence.
Qed.

(** ** scripts/closed_orders.py *)

(** X13.  In every record [gen_random_closed_order] returns, the fields
    ["price"], ["vol"], ["vol_exec"], ["cost"] and ["fee"] are unsigned
    numerals of one precision [d], and the numbers they denote are in
    range: the price is at most [PRICE_MAX] (and may print as zero), the
    executed volume is at least [0.1] and at most the volume, which is at
    most [VOLUME_MAX], the cost is at most [PRICE_MAX * VOLUME_MAX] and the
    fee at most [130000]. *)
Theorem closed_order_amounts_in_range tz s record s' :
  gen_random_closed_order tz s = Some (record, s') ->
  exists (d : nat) price vol vol_exec cost fee,
    amount record "price" = Some (price, d)
    /\ amount record "vol" = Some (vol, d)
    /\ amount record "vol_exec" = Some (vol_exec, d)
    /\ amount record "cost" = Some (cost, d)
    /\ amount record "fee" = Some (fee, d)
    /\ 0 <= price <= 50000 * 10 ^ Z.of_nat d
    /\ 10 ^ Z.of_nat d <= 10 * vol_exec
    /\ vol_exec <= vol <= 1000 * 10 ^ Z.of_nat d
    /\ 0 <= cost <= 50000000 * 10 ^ Z.of_nat d
    /\ 0 <= fee <= 130000 * 10 ^ Z.of_nat d.
Proof.
  intros H. apply gen_random_closed_order_inv in H.
  destruct H as (o & c & p & v & e & d & st & Hd & ->).
  pose proof (closed_order_draws_facts _ _ _ _ _ _ _ _ _ _ Hd)
    as (Hp & Hv & He & H38 & _).
  pose proof PRICE_MIN_pos. pose proof VOLUME_MIN_pos.
  destruct (closed_order_record_amounts o c p v e d st
              ltac:(lia) ltac:(lia) ltac:(lia)) as (A1 & A2 & A3 & A4 & A5).
  destruct (closed_order_amount_bounds p v e d Hp Hv He H38)
    as (B1 & B2 & B3 & B4 & B5).
  eexists _, _, _, _, _, _.
  split; [exact A1|]. split; [exact A2|]. split; [exact A3|].
  split; [exact A4|]. split; [exact A5|].
  split; [exact B1|]. split; [exact B2|]. split; [exact B3|].
  split; [exact B4 | exact B5].
Qed.

Lemma closed_order_amounts_in_range_witness :
  exists record,
    gen_random_closed_order 0 sample_order_tape = Some (record, [])
    /\ (exists (d : nat) price,
          amount record "price" = Some (price, d)
          /\ 0 <= price <= 50000 * 10 ^ Z.of_nat d)
    /\ amount record "price" = Some (33333333367, 6%nat).
Proof.
  eexists. run_sample E. split; [exact E|].
  destruct (closed_order_amounts_in_range 0 sample_order_tape _ [] E)
    as (d & p & v & e & c & f & Hp & _ & _ & _ & _ & Bp & _).
  split; [|vm_compute; reflexivity].
  exists d, p. split; [exact Hp | exact Bp].
Defined.

(** X14.  The printed fee is 0.26 % of the printed cost, to the last digit:
    in every record [gen_random_closed_order] returns, with ["cost"] and
    ["fee"] read as numbers of units of the last digit,
    [10000 * fee - 26 * cost] is at most 5032 in magnitude, so the fee is
    within 0.5032 units of the last digit of 0.0026 times the cost. *)
Theorem closed_order_printed_fee tz s record s' :
  gen_random_closed_order tz s = Some (record, s') ->
  exists (d : nat) cost fee,
    amount record "cost" = Some (cost, d)
    /\ amount record "fee" = Some (fee, d)
    /\ Z.abs (10000 * fee - 26 * cost) <= 5032.
Proof.
  intros H. apply gen_random_closed_order_inv in H.
  destruct H as (o & c & p & v & e & d & st & Hd & ->).
  pose proof (closed_order_draws_facts _ _ _ _ _ _ _ _ _ _ Hd)
    as (Hp & Hv & He & H38 & _).
  pose proof PRICE_MIN_pos. pose proof VOLUME_MIN_pos.
  destruct (closed_order_record_amounts o c p v e d st
              ltac:(lia) ltac:(lia) ltac:(lia)) as (_ & _ & _ & A4 & A5).
  eexists _, _, _. split; [exact A4|]. split; [exact A5|].
  pose proof (closed_order_cost_range p e v Hp Hv He) as Rc.
  apply (printed_fee_bound (10 ^ Z.of_nat (Z.to_nat d)) (fmul p e)
           (fmul (literal 26 10000) (fmul p e)) _ _ (literal 26 10000)).
  - split; [apply Z.pow_pos_nonneg; lia|].
    apply Z.pow_le_mono_r; lia.
  - exact Rc.
  - apply quantize_nearest.
  - apply quantize_nearest.
  - apply fee_product_error, Rc.
  - apply fee_literal_error.
Qed.

Lemma closed_order_printed_fee_witness :
  exists record,
    gen_random_closed_order 0 sample_order_tape = Some (record, [])
    /\ (exists (d : nat) cost fee,
          amount record "cost" = Some (cost, d)
          /\ amount record "fee" = Some (fee, d)
          /\ Z.abs (10000 * fee - 26 * cost) <= 5032)
    /\ amount record "cost" = Some (8134036483479, 6%nat)
    /\ amount record "fee" = Some (21148494857, 6%nat).
Proof.
  eexists. run_sample E. split; [exact E|].
  split; [|split; vm_compute; reflexivity].
  exact (closed_order_printed_fee 0 sample_order_tape _ [] E).
Defined.

(** X15.  [gen_random_closed_order] raises nothing: the format
    specification it builds is always valid, the range of [randint] is
    not empty and [choice] indexes inside the list.  Whatever the random
    source delivers first, the call returns as soon as twelve zero words
    follow; only an exhausted source makes the model fail. *)
Theorem gen_random_closed_order_never_raises tz s :
  exists record s',
    gen_random_closed_order tz (s ++ repeat 0 12) = Some (record, s').
Proof. apply gen_random_closed_order_zeros. exists s. reflexivity. Qed.

(** X16.  How far ["closetm"] can fall below ["opentm"]: in every record
    [gen_random_closed_order] returns (in a zone of fixed offset),
    [opentm - closetm] is less than one microsecond. *)
Theorem closed_order_closes_within_a_microsecond tz s record s' :
  -86400 < tz < 86400 ->
  gen_random_closed_order tz s = Some (record, s') ->
  exists open close,
    dict_get record "opentm" = Some (PFloat open)
    /\ dict_get record "closetm" = Some (PFloat close)
    /\ 1000000 * (open - close) < U.
Proof.
  intros Htz H. apply gen_random_closed_order_inv in H.
  destruct H as (o & c & p & v & e & d & st & Hd & ->).
  destruct Hd as (s1 & s2 & _ & _ & _ & _ & Ho & Hc & _).
  exists o, c. split; [reflexivity|]. split; [reflexivity|].
  destruct (closed_order_window tz o c s s1 s2 Htz Ho Hc) as (Ro & Rc).
  pose proof U_pos as HU.
  assert (0 <= (1577836800 - tz) * U) by (apply Z.mul_nonneg_nonneg; lia).
  assert ((1704067200 - tz) * U < 2 ^ 31 * U)
    by (apply Z.mul_lt_mono_pos_r; lia).
  pose proof (timestamp_fromtimestamp_near tz o ltac:(lia)) as N.
  lia.
Qed.

Lemma closed_order_closes_within_a_microsecond_witness :
  exists record,
    gen_random_closed_order 0 sample_order_tape = Some (record, [])
    /\ closes_before_opening record = true
    /\ exists open close,
         dict_get record "opentm" = Some (PFloat open)
         /\ dict_get record "closetm" = Some (PFloat close)
         /\ 1000000 * (open - close) < U.
Proof.
  eexists. run_sample E. split; [exact E|].
  split; [vm_compute; reflexivity|].
  exact (closed_order_closes_within_a_microsecond 0 sample_order_tape _ []
           ltac:(lia) E).
Defined.

(** X17.  The status of a record [gen_random_closed_order] returns is one
    of [ORDER_STATUSES] and none of [OPEN_ORDER_STATUSES]: a generated
    order is never pending or open. *)
Theorem closed_order_status_is_over tz s record s' :
  gen_random_closed_order tz s = Some (record, s') ->
  exists status,
    dict_get record "status" = Some (PStr status)
    /\ In status ORDER_STATUSES
    /\ ~ In status OPEN_ORDER_STATUSES.
Proof.
  intros H. apply gen_random_closed_order_inv in H.
  destruct H as (o & c & p & v & e & d & st & Hd & ->).
  pose proof (closed_order_draws_facts _ _ _ _ _ _ _ _ _ _ Hd)
    as (_ & _ & _ & _ & Hst).
  exists st. split; [reflexivity|]. split.
  - unfold ORDER_STATUSES. apply in_or_app. right. exact Hst.
  - cbn [In OVER_ORDER_STATUSES OPEN_ORDER_STATUSES] in *.
    intros [K|[K|[]]]; destruct Hst as [<-|[<-|[<-|[]]]]; discriminate K.
Qed.

Lemma closed_order_status_is_over_witness :
  exists record,
    gen_random_closed_order 0 sample_order_tape = Some (record, [])
    /\ exists status,
         dict_get record "status" = Some (PStr status)
         /\ In status ORDER_STATUSES
         /\ ~ In status OPEN_ORDER_STATUSES.
Proof.
  eexists. run_sample E. split; [exact E|].
  exact (closed_order_status_is_over 0 sample_order_tape _ [] E).
Defined.

(** X18.  The mapping scripts/closed_orders.py builds when run as a
    program has at least one and at most three items, with distinct keys:
    each key matches the order identifier pattern and each value is a
    record returned by [gen_random_closed_order]; identifiers that repeat
    leave one item. *)
Theorem closed_orders_main_orders_spec tz s orders s' :
  closed_orders_main_orders tz s = Some (orders, s') ->
  (1 <= List.length orders <= 3)%nat
  /\ NoDup (map fst orders)
  /\ Forall (is_order_item tz) orders.
Proof.
  intros H. unfold closed_orders_main_orders in H.
  apply orders_comprehension_inv in H; [|constructor|constructor].
  destruct H as (N & F & L & NE). cbn [List.length] in L.
  repeat split; try assumption; try lia.
  destruct orders; [contradiction NE; [discriminate | reflexivity]|].
  cbn [List.length]. lia.
Qed.

Lemma closed_orders_main_orders_spec_witness :
  exists orders,
    closed_orders_main_orders 0
      (sample_id_tape ++ sample_order_tape ++ sample_id_tape
       ++ sample_order_tape ++ sample_id_tape ++ sample_order_tape)
    = Some (orders, [])
    /\ List.length orders = 1%nat
    /\ NoDup (map fst orders).
Proof.
  eexists. run_sample E. split; [exact E|].
  split; [vm_compute; reflexivity|].
  exact (proj1 (proj2 (closed_orders_main_orders_spec 0 _ _ [] E))).
Defined.

(** ** All generators *)

(** X19.  No generator looks ahead in the random source: when a call
    returns from a source [s], it returns the same value from any source
    that starts with [s], and leaves what [s] left followed by the rest. *)
Theorem generators_read_a_prefix tz start end_ n :
  reads_a_prefix (gen_random_timestamp tz start end_)
  /\ reads_a_prefix gen_order_id
  /\ reads_a_prefix (gen_random_kraken_identifiers n)
  /\ reads_a_prefix (transfer_ids.gen_random_kraken_transfer_identifiers n)
  /\ reads_a_prefix (gen_random_closed_order tz).
Proof.
  split; [apply gen_random_timestamp_prefix|].
  split; [apply gen_order_id_prefix|].
  split; [apply gen_random_kraken_identifiers_prefix|].
  split; [apply gen_random_kraken_transfer_identifiers_prefix|].
  apply gen_random_closed_order_prefix.
Qed.

Lemma generators_read_a_prefix_witness :
  exists record,
    gen_random_closed_order 0 sample_order_tape = Some (record, [])
    /\ gen_random_closed_order 0 (sample_order_tape ++ [1; 2; 3])
       = Some (record, [1; 2; 3]).
Proof.
  eexists. run_sample E. split; [exact E|].
  exact (proj2 (proj2 (proj2 (proj2
           (generators_read_a_prefix 0 START END 0))))
           sample_order_tape _ [] [1; 2; 3] E).
Defined.
